(** * Olfactometer config generators: trial-schedule generation

    A shallow embedding of the two generators of this repository,
    [basic_plus_co2.py] (the odor panel scheduler) and [simple_pairs.py]
    (the concentration-ramp pair scheduler), together with the properties
    of the trial schedules they produce.

    Conventions of the embedding.
    - Python integers (pins, repeat counts) are [Z].
    - A scalar read from the parsed YAML is a [value]; Python's [==] on
      such values is [value_eqb] (it identifies [True] with [1] and
      [False] with [0], as Python does). The pair scheduler sorts the
      concentrations of a ramp, uses them in the keys of a dict and checks
      their types: its module has its own scalars, which include the
      floating point numbers, a float being given by its exact value or
      being an infinity. NaN is outside the model, and so are floats in
      the panel scheduler, which never looks into a concentration.
    - A Python [dict] is an association list in insertion order with unique
      keys: [dict_set] overwrites in place or appends, as [d[k] = v] does.
      Insertion order is kept because [simple_pairs.py] inverts its
      pin-to-odor map by iterating over it.
    - A raised exception is the left injection of a sum; the panel
      scheduler also threads the state of the [random] module and the
      warnings emitted so far. *)

From Stdlib Require Import String ZArith QArith List Bool Lia Arith.
From Stdlib Require Import Permutation Sorting.Sorted.
Import ListNotations.

Local Open Scope string_scope.
Local Open Scope list_scope.
Local Open Scope Z_scope.

(** ** Python values and exceptions *)

Inductive exception : Type :=
| AssertionError
| KeyError
| IndexError
| NameError
| TypeError
| NotImplementedError.

Inductive value : Type :=
| VNone
| VBool (b : bool)
| VInt (z : Z)
| VStr (s : string).

(** Python's [a == b]; [bool] is a subclass of [int]. *)
Definition value_eqb (a b : value) : bool :=
  match a, b with
  | VNone, VNone => true
  | VBool x, VBool y => Bool.eqb x y
  | VInt x, VInt y => x =? y
  | VBool x, VInt y => (if x then 1 else 0) =? y
  | VInt x, VBool y => x =? (if y then 1 else 0)
  | VStr x, VStr y => String.eqb x y
  | _, _ => false
  end.

(** Truth value of [v] in [if v:]. *)
Definition truthy (v : value) : bool :=
  match v with
  | VNone => false
  | VBool b => b
  | VInt z => negb (z =? 0)
  | VStr s => negb (String.eqb s EmptyString)
  end.

(** A dict with string keys, such as the descriptor of an odor. *)
Definition items : Type := list (string * value).

(** ** Dictionaries in insertion order *)

Section Dict.
Context {K V : Type} (eqb : K -> K -> bool).

Fixpoint dict_get (d : list (K * V)) (k : K) : option V :=
  match d with
  | [] => None
  | (k', v) :: d' => if eqb k k' then Some v else dict_get d' k
  end.

(** [d[k] = v] *)
Fixpoint dict_set (d : list (K * V)) (k : K) (v : V) : list (K * V) :=
  match d with
  | [] => [(k, v)]
  | (k', v') :: d' =>
      if eqb k k' then (k', v) :: d' else (k', v') :: dict_set d' k v
  end.

(** [{k: v for k, v in l}] *)
Definition dict_of_list (l : list (K * V)) : list (K * V) :=
  fold_left (fun d kv => dict_set d (fst kv) (snd kv)) l [].

Definition dict_keys (d : list (K * V)) : list K := map fst d.
Definition dict_values (d : list (K * V)) : list V := map snd d.
End Dict.

(** The error monad of a generator without side effects. *)
Definition result (A : Type) : Type := (exception + A)%type.

Definition ok {A} (a : A) : result A := inr a.
Definition raise {A} (e : exception) : result A := inl e.

Definition bind {A B} (m : result A) (f : A -> result B) : result B :=
  match m with
  | inl e => inl e
  | inr a => f a
  end.

Definition assert (b : bool) : result unit :=
  if b then ok tt else raise AssertionError.

Definition of_option {A} (e : exception) (o : option A) : result A :=
  match o with
  | Some a => ok a
  | None => raise e
  end.

Declare Scope result_scope.
Delimit Scope result_scope with result.
Notation "x <- m ;; k" := (bind m (fun x => k))
  (at level 61, m at next level, right associativity) : result_scope.
Notation "m ;;; k" := (bind m (fun _ => k))
  (at level 61, right associativity) : result_scope.

(** What a generator hands to [common.add_pinlist]: the pin-to-odor
    record and the ordered list of pin lists, one per trial. (The pair
    scheduler has its own, over its own scalars.) *)
Record config : Type := mk_config {
  pins2odors : list (Z * items);
  pinlist_at_each_trial : list (list Z)
}.

(** What [common.get_available_pins] returned. *)
Record available_pins : Type := mk_available_pins {
  available_valve_pins : list Z;
  pins2balances : list (Z * Z);
  single_manifold : bool
}.

(** [len(set(l))] for a list of integers. *)
Definition n_distinct (l : list Z) : nat := length (nodup Z.eq_dec l).

(** * simple_pairs.py *)

Module SimplePairs.

(** ** The scalars of a pair input *)

(** A Python [float], given by the number it stands for. *)
Inductive float : Type :=
| NegInf
| Finite (q : Q)
| PosInf.

(** A scalar of the parsed YAML. A concentration of a ramp may be any of
    them. *)
Inductive value : Type :=
| VNone
| VBool (b : bool)
| VInt (z : Z)
| VFloat (x : float)
| VStr (s : string).

Definition float_eqb (x y : float) : bool :=
  match x, y with
  | NegInf, NegInf => true
  | Finite p, Finite q => Qeq_bool p q
  | PosInf, PosInf => true
  | _, _ => false
  end.

Definition float_ltb (x y : float) : bool :=
  match x, y with
  | NegInf, NegInf => false
  | NegInf, _ => true
  | Finite _, NegInf => false
  | Finite p, Finite q => negb (Qle_bool q p)
  | Finite _, PosInf => true
  | PosInf, _ => false
  end.

(** The number a value stands for in a comparison: [bool] is a subclass
    of [int], and Python compares an [int] with a [float] by their exact
    values. *)
Definition as_number (v : value) : option float :=
  match v with
  | VBool b => Some (Finite (inject_Z (Z.b2z b)))
  | VInt z => Some (Finite (inject_Z z))
  | VFloat x => Some x
  | VNone => None
  | VStr _ => None
  end.

(** Python's [a == b]. *)
Definition value_eqb (a b : value) : bool :=
  match as_number a, as_number b with
  | Some x, Some y => float_eqb x y
  | None, None =>
      match a, b with
      | VNone, VNone => true
      | VStr s, VStr t => String.eqb s t
      | _, _ => false
      end
  | _, _ => false
  end.

(** Python's [a < b]: two numbers compare by value, two strings
    lexicographically (here byte by byte), and anything else is a
    [TypeError]. *)
Definition value_ltb (a b : value) : result bool :=
  match as_number a, as_number b with
  | Some x, Some y => ok (float_ltb x y)
  | None, None =>
      match a, b with
      | VStr s, VStr t => ok (String.ltb s t)
      | _, _ => raise TypeError
      end
  | _, _ => raise TypeError
  end.

(** [tuple(d.items())] of a dict with string keys, and [==] on such tuples. *)
Definition items : Type := list (string * value).

Fixpoint items_eqb (a b : items) : bool :=
  match a, b with
  | [], [] => true
  | (k, v) :: a', (k', v') :: b' =>
      String.eqb k k' && value_eqb v v' && items_eqb a' b'
  | _, _ => false
  end.

(** What the generator hands to [common.add_pinlist] for one pair. *)
Record config : Type := mk_config {
  pins2odors : list (Z * items);
  pinlist_at_each_trial : list (list Z)
}.

(** ** The generator *)

(** One odor of a pair: [{'name': ..., 'log10_concentrations': [...]}]. *)
Record odor : Type := mk_odor {
  name : string;
  log10_concentrations : list value
}.

(** The keys of [data] the generator reads. *)
Record data : Type := mk_data {
  n_repeats : Z;
  odor_pairs : list (odor * odor);
  available_group1_valve_pins : list Z;
  available_group2_valve_pins : list Z;
  group1_balance_pin : Z;
  group2_balance_pin : Z;
  co2_pin : option Z
}.

Definition get_odor_name (o : odor) : string := name o.
Definition get_odor_concs (o : odor) : list value :=
  log10_concentrations o.

(** [{'name': n, 'log10_conc': c}] *)
Definition vial (n : string) (c : value) : items :=
  [("name", VStr n); ("log10_conc", c)].

(** [v is None] *)
Definition is_none (v : value) : bool :=
  match v with
  | VNone => true
  | _ => false
  end.

(** [type(v) is int]: a [bool] is not of type [int]. *)
Definition is_int (v : value) : bool :=
  match v with
  | VInt _ => true
  | _ => false
  end.

(** [type(v) is float] *)
Definition is_float (v : value) : bool :=
  match v with
  | VFloat _ => true
  | _ => false
  end.

Definition get_vial_tuple (single_manifold : bool)
    (name : string) (log10_conc : value) : result items :=
  if single_manifold && is_none log10_conc then
    ok [("name", VStr "solvent")]
  else
    (assert (is_int log10_conc || is_float log10_conc
             || (negb single_manifold && is_none log10_conc)) ;;;
     ok (vial name log10_conc))%result.

Definition conc_sort_key (conc : value) : value :=
  if negb (is_none conc) then conc else VFloat NegInf.

(** [sorted(l, key=conc_sort_key)]: a stable sort that compares the keys
    with [<]. [insert_by_key c l] puts [c], which stood before the
    elements of [l], in front of the first of them whose key is not below
    its own. *)
Fixpoint insert_by_key (c : value) (l : list value) : result (list value) :=
  match l with
  | [] => ok [c]
  | d :: l' =>
      (below <- value_ltb (conc_sort_key d) (conc_sort_key c) ;;
       if below : bool then
         rest <- insert_by_key c l' ;;
         ok (d :: rest)
       else ok (c :: d :: l'))%result
  end.

Fixpoint sorted (l : list value) : result (list value) :=
  match l with
  | [] => ok []
  | c :: l' =>
      (s <- sorted l' ;;
       insert_by_key c s)%result
  end.

(** [sorted({p1, p2})] *)
Definition sorted_pin_set (p1 p2 : Z) : list Z :=
  if p1 =? p2 then [p1] else if p1 <? p2 then [p1; p2] else [p2; p1].

(** [l[-1]] *)
Definition last_item (l : list Z) : result Z :=
  match l with
  | [] => raise IndexError
  | x :: l' => ok (last l' x)
  end.

(** One iteration of the loop over
    [zip(manifold_odors, (group1 pins, group2 pins))]; the accumulator is
    [(odor_vials, odor_pins)]. *)
Definition assign_group (odor_name2log10_concs : list (string * list value))
    (acc : list items * list Z) (n : string)
    (available_group_valve_pins : list Z) : result (list items * list Z) :=
  if String.eqb n "CO2" then ok acc
  else
    (concs <- of_option KeyError (dict_get String.eqb odor_name2log10_concs n) ;;
     let n_concentrations := length concs in
     assert (n_concentrations + 1 <=? length available_group_valve_pins)%nat ;;;
     let group_vials := map (fun c => vial n c) concs in
     ok (fst acc ++ group_vials,
         snd acc ++ firstn (length group_vials) available_group_valve_pins)
    )%result.

Fixpoint assign_groups (odor_name2log10_concs : list (string * list value))
    (acc : list items * list Z) (groups : list (string * list Z))
    : result (list items * list Z) :=
  match groups with
  | [] => ok acc
  | (n, pool) :: rest =>
      (acc' <- assign_group odor_name2log10_concs acc n pool ;;
       assign_groups odor_name2log10_concs acc' rest)%result
  end.

(** The body of the two nested loops for one [(c1, c2)]: the pin list of
    the trial. [get_vial_tuple] is the closure defined in the generator;
    [co2_air_compensation_pin] is [None] while the variable is unbound. *)
Definition trial_pins (d : data) (single_manifold : bool)
    (get_vial_tuple : string -> value -> result items)
    (vials2pins : list (items * Z)) (n1 n2 : string)
    (co2_air_compensation_pin : option Z) (c1 c2 : value)
    : result (list Z) :=
  (o1 <- get_vial_tuple n1 c1 ;;
   o2 <- get_vial_tuple n2 c2 ;;
   p1 <- of_option KeyError (dict_get items_eqb vials2pins o1) ;;
   p2 <- of_option KeyError (dict_get items_eqb vials2pins o2) ;;
   let pins := sorted_pin_set p1 p2 in
   pins <- (if negb single_manifold then
              assert (length pins =? 2)%nat ;;;
              ok (pins ++ [group1_balance_pin d; group2_balance_pin d])
            else ok pins) ;;
   if String.eqb "CO2" n1 || String.eqb "CO2" n2 then
     comp <- of_option NameError co2_air_compensation_pin ;;
     ok (pins ++ [comp])
   else ok pins)%result.

(** The inner loop, appending to [pinlist_at_each_trial]. *)
Fixpoint inner_loop (f : value -> result (list Z)) (n_repeats : Z)
    (pinlist : list (list Z)) (odor2_concentrations : list value)
    : result (list (list Z)) :=
  match odor2_concentrations with
  | [] => ok pinlist
  | c2 :: rest =>
      (pins <- f c2 ;;
       inner_loop f n_repeats
         (pinlist ++ repeat pins (Z.to_nat n_repeats)) rest)%result
  end.

Fixpoint outer_loop (f : value -> value -> result (list Z))
    (n_repeats : Z) (pinlist : list (list Z))
    (odor1_concentrations odor2_concentrations : list value)
    : result (list (list Z)) :=
  match odor1_concentrations with
  | [] => ok pinlist
  | c1 :: rest =>
      (pinlist' <- inner_loop (f c1) n_repeats pinlist odor2_concentrations ;;
       outer_loop f n_repeats pinlist' rest odor2_concentrations)%result
  end.

(** The [if 'CO2' in manifold_odors:] block: the updated [pins2odors] and
    the binding of [co2_air_compensation_pin]. After the loop over the
    two manifolds, [available_group_valve_pins] is still bound to its
    last value, the pool of group 2. *)
Definition co2_block (d : data)
    (odor_name2log10_concs : list (string * list value))
    (manifold_odors : list string) (pins2odors : list (Z * items))
    : result (list (Z * items) * option Z) :=
  if existsb (String.eqb "CO2") manifold_odors then
    (co2_concs <- of_option KeyError
                    (dict_get String.eqb odor_name2log10_concs "CO2") ;;
     assert (length co2_concs =? 1)%nat ;;;
     co2_conc <- of_option IndexError (nth_error co2_concs 0) ;;
     pin <- of_option KeyError (co2_pin d) ;;
     let pins2odors := dict_set Z.eqb pins2odors pin (vial "CO2" co2_conc) in
     let available_group_valve_pins := available_group2_valve_pins d in
     co2_air_compensation_pin <- last_item available_group_valve_pins ;;
     let pins2odors :=
       dict_set Z.eqb pins2odors co2_air_compensation_pin
         [("name", VStr "air for co2 compensation"); ("log10_conc", VInt 0)] in
     ok (pins2odors, Some co2_air_compensation_pin))%result
  else ok (pins2odors, None).

(** The body of [for pair in odor_pairs:], over the closure
    [get_vial_tuple] it defines. *)
Definition make_pair_config_with
    (get_vial_tuple : string -> value -> result items)
    (d : data) (single_manifold : bool)
    (odor_pair : odor * odor) : result config :=
  let (odor1, odor2) := odor_pair in
  let odor1_name := get_odor_name odor1 in
  let odor2_name := get_odor_name odor2 in
  let odor1_log10_concs := get_odor_concs odor1 in
  let odor2_log10_concs := get_odor_concs odor2 in
  (assert (negb (String.eqb odor1_name odor2_name)) ;;;
   let odor_name2log10_concs :=
     dict_of_list String.eqb
       [(odor1_name, odor1_log10_concs); (odor2_name, odor2_log10_concs)] in
   let manifold_odors := [odor1_name; odor2_name] in
   vp <- assign_groups odor_name2log10_concs ([], [])
           (combine manifold_odors
              [available_group1_valve_pins d; available_group2_valve_pins d]) ;;
   let (odor_vials, odor_pins) := vp in
   assert (length odor_vials =? length odor_pins)%nat ;;;
   let pins2odors := dict_of_list Z.eqb (combine odor_pins odor_vials) in
   pc <- co2_block d odor_name2log10_concs manifold_odors pins2odors ;;
   let (pins2odors, co2_air_compensation_pin) := pc in
   let vials2pins :=
     dict_of_list items_eqb (map (fun po => (snd po, fst po)) pins2odors) in
   let (n1, n2) := (odor1_name, odor2_name) in
   odor1_concentrations <-
     (r <- of_option KeyError (dict_get String.eqb odor_name2log10_concs n1) ;;
      sorted r) ;;
   odor2_concentrations <-
     (r <- of_option KeyError (dict_get String.eqb odor_name2log10_concs n2) ;;
      sorted r) ;;
   pinlist <- outer_loop
                (trial_pins d single_manifold get_vial_tuple vials2pins n1 n2
                   co2_air_compensation_pin)
                (n_repeats d) [] odor1_concentrations odor2_concentrations ;;
   ok (mk_config pins2odors pinlist))%result.

Definition make_pair_config (d : data) (single_manifold : bool)
    : odor * odor -> result config :=
  make_pair_config_with (get_vial_tuple single_manifold) d single_manifold.

Fixpoint for_each_pair (f : odor * odor -> result config)
    (pairs : list (odor * odor)) (generated_config_dicts : list config)
    : result (list config) :=
  match pairs with
  | [] => ok generated_config_dicts
  | odor_pair :: rest =>
      (c <- f odor_pair ;;
       for_each_pair f rest (generated_config_dicts ++ [c]))%result
  end.

Definition make_config_dict (hw : available_pins) (d : data)
    : result (list config) :=
  (assert (negb (single_manifold hw)) ;;;
   assert (n_distinct (dict_values (pins2balances hw)) =? 2)%nat ;;;
   for_each_pair (make_pair_config d (single_manifold hw)) (odor_pairs d) []
  )%result.

(** ** Vocabulary of the statements about the pair scheduler *)

(** The order [sorted] sorts by: [a] may stand before [b] when the key
    of [b] is not below the key of [a]. *)
Definition conc_le (a b : value) : Prop :=
  value_ltb (conc_sort_key b) (conc_sort_key a) = ok false.


(** What the type check of [get_vial_tuple] lets through on two
    manifolds: an [int], a [float] or [None]. *)
Definition is_concentration (v : value) : bool :=
  is_int v || is_float v || is_none v.

(** The pins and vials one stream contributes to [odor_pins] and
    [odor_vials]. *)
Definition group_pins (n : string) (concs : list value)
    (pool : list Z) : list Z :=
  if String.eqb n "CO2" then [] else firstn (length concs) pool.

Definition group_vials (n : string) (concs : list value) : list items :=
  if String.eqb n "CO2" then [] else map (vial n) concs.

Definition air_for_co2_compensation : items :=
  [("name", VStr "air for co2 compensation"); ("log10_conc", VInt 0)].

(** The trial list of a cross product: for each [c1] of [s1] in turn, for
    each [c2] of [s2] in turn, [n] copies of the trial of [(c1, c2)]. *)
Definition cross_product_trials (pins_of : value -> value -> list Z)
    (n : nat) (s1 s2 : list value) : list (list Z) :=
  flat_map (fun c1 => flat_map (fun c2 => repeat (pins_of c1 c2) n) s2) s1.

Definition pins_or_nil (r : result (list Z)) : list Z :=
  match r with
  | inr pins => pins
  | inl _ => []
  end.


(** A descriptor built by the generator as [{'name': n, 'log10_conc': c}]. *)
Definition is_vial (o : items) : Prop := exists n c, o = vial n c.

(** Keys of the pin-to-odor map are unique and its values are vials. *)
Definition pins2odors_wf (p2o : list (Z * items)) : Prop :=
  NoDup (dict_keys p2o) /\ Forall is_vial (dict_values p2o).

(** A trial of a pair that involves no CO2: the two distinct vial pins in
    ascending order, then both balance pins. *)
Definition four_pin_trial (d : data) (odor_pair : odor * odor)
    (cfg : config) (pins : list Z) : Prop :=
  exists c1 c2 p1 p2,
    In c1 (log10_concentrations (fst odor_pair)) /\
    In c2 (log10_concentrations (snd odor_pair)) /\
    dict_get Z.eqb (pins2odors cfg) p1 = Some (vial (name (fst odor_pair)) c1) /\
    dict_get Z.eqb (pins2odors cfg) p2 = Some (vial (name (snd odor_pair)) c2) /\
    p1 <> p2 /\
    pins = [Z.min p1 p2; Z.max p1 p2;
            group1_balance_pin d; group2_balance_pin d] /\
    length pins = 4%nat.

(** [odor_pins] and [odor_vials] zipped into a dict: each stream that is
    not CO2 gets the first (ramp length) pins of its own pool, in pool
    order, one per concentration in ramp order. *)
Definition first_pins_map (d : data) (odor_pair : odor * odor)
    : list (Z * items) :=
  let (o1, o2) := odor_pair in
  dict_of_list Z.eqb
    (combine
       (group_pins (name o1) (log10_concentrations o1)
          (available_group1_valve_pins d)
        ++ group_pins (name o2) (log10_concentrations o2)
             (available_group2_valve_pins d))
       (group_vials (name o1) (log10_concentrations o1)
        ++ group_vials (name o2) (log10_concentrations o2))).

(** The pin-to-odor map of a pair: the first-pins assignment, followed,
    when a stream is CO2, by the entries of the CO2 pin and of the
    compensation pin. *)
Definition first_pins_assignment (d : data) (odor_pair : odor * odor)
    (cfg : config) : Prop :=
  (name (fst odor_pair) <> "CO2" /\ name (snd odor_pair) <> "CO2" /\
   pins2odors cfg = first_pins_map d odor_pair)
  \/ ((name (fst odor_pair) = "CO2" \/ name (snd odor_pair) = "CO2") /\
      exists c pin x,
        co2_pin d = Some pin /\
        pins2odors cfg
        = dict_set Z.eqb
            (dict_set Z.eqb (first_pins_map d odor_pair) pin (vial "CO2" c))
            x air_for_co2_compensation).

(** ** Vocabulary of the further properties *)

(** [data] with another value of [odor_pairs]. *)
Definition with_odor_pairs (d : data) (pairs : list (odor * odor)) : data :=
  mk_data (n_repeats d) pairs
    (available_group1_valve_pins d) (available_group2_valve_pins d)
    (group1_balance_pin d) (group2_balance_pin d) (co2_pin d).

(** [vials2pins] as built from a pin-to-odor map. *)
Definition vials2pins_of (p2o : list (Z * items)) : list (items * Z) :=
  dict_of_list items_eqb (map (fun po => (snd po, fst po)) p2o).

(** No two pins carry equal vials. *)
Definition distinct_vials (p2o : list (Z * items)) : Prop :=
  forall p o p' o',
    In (p, o) p2o -> In (p', o') p2o -> items_eqb o o' = true -> p = p'.

(** Hardware the pair scheduler accepts: two manifolds, two balance pins,
    and pools without a repeated or shared pin. *)
Definition hardware_ok (hw : available_pins) (d : data) : Prop :=
  single_manifold hw = false /\
  n_distinct (dict_values (pins2balances hw)) = 2%nat /\
  NoDup (available_group1_valve_pins d ++ available_group2_valve_pins d).

(** A pair the scheduler can wire: different names, concentrations that
    are numbers or null, a pool of at least (ramp length + 1) pins for
    each stream that is not CO2, and for a CO2 stream a one-element ramp
    and a CO2 pin outside both pools. *)
Definition pair_ok (d : data) (odor_pair : odor * odor) : Prop :=
  let (o1, o2) := odor_pair in
  name o1 <> name o2 /\
  Forall (fun c => is_concentration c = true) (log10_concentrations o1) /\
  Forall (fun c => is_concentration c = true) (log10_concentrations o2) /\
  (name o1 <> "CO2" ->
   (length (log10_concentrations o1) + 1
    <= length (available_group1_valve_pins d))%nat) /\
  (name o2 <> "CO2" ->
   (length (log10_concentrations o2) + 1
    <= length (available_group2_valve_pins d))%nat) /\
  (name o1 = "CO2" -> exists c, log10_concentrations o1 = [c]) /\
  (name o2 = "CO2" -> exists c, log10_concentrations o2 = [c]) /\
  (name o1 = "CO2" \/ name o2 = "CO2" ->
   available_group2_valve_pins d <> [] /\
   exists pin,
     co2_pin d = Some pin /\
     ~ In pin (available_group1_valve_pins d ++ available_group2_valve_pins d)).

(** The two entries a CO2 stream adds to the pin-to-odor map: the CO2 pin
    with the CO2 concentration, then the last pin of the pool of group 2
    with the compensation air. *)
Definition co2_entries (d : data) (odor_pair : odor * odor)
    : list (Z * items) :=
  let (o1, o2) := odor_pair in
  let co2_stream :=
    if String.eqb (name o1) "CO2" then Some o1
    else if String.eqb (name o2) "CO2" then Some o2
    else None in
  match co2_stream with
  | Some o =>
      match log10_concentrations o, co2_pin d,
            last_item (available_group2_valve_pins d) with
      | [c], Some pin, inr x =>
          [(pin, vial "CO2" c); (x, air_for_co2_compensation)]
      | _, _, _ => []
      end
  | None => []
  end.

(** The pin-to-odor map of a wired pair, entry by entry. *)
Definition wired_map (d : data) (odor_pair : odor * odor)
    : list (Z * items) :=
  combine
    (group_pins (name (fst odor_pair)) (log10_concentrations (fst odor_pair))
       (available_group1_valve_pins d)
     ++ group_pins (name (snd odor_pair))
          (log10_concentrations (snd odor_pair))
          (available_group2_valve_pins d))
    (group_vials (name (fst odor_pair)) (log10_concentrations (fst odor_pair))
     ++ group_vials (name (snd odor_pair))
          (log10_concentrations (snd odor_pair)))
  ++ co2_entries d odor_pair.

(** A ramp of integers and nulls. *)
Definition int_or_null (v : value) : bool := is_int v || is_none v.

(** ** Worked inputs *)

(** Two manifolds, pools [2, 3, 4] and [7, 8, 9], balance pins 5 and 6. *)
Definition two_manifolds : available_pins :=
  mk_available_pins [2; 3; 4; 7; 8; 9]
    [(2, 5); (3, 5); (4, 5); (7, 6); (8, 6); (9, 6)] false.

Definition one_manifold : available_pins :=
  mk_available_pins [2; 3; 4] [(2, 5); (3, 5); (4, 5)] true.

Definition one_balance_pin : available_pins :=
  mk_available_pins [2; 3; 4; 7; 8; 9]
    [(2, 5); (3, 5); (4, 5); (7, 5); (8, 5); (9, 5)] false.

Definition data_of (n : Z) (pairs : list (odor * odor)) (co2 : option Z)
    : data :=
  mk_data n pairs [2; 3; 4] [7; 8; 9] 5 6 co2.

(** Streams [X: [-6, -4]] and [Y: [-5, -3]], two repeats. *)
Definition xy_data : data :=
  data_of 2 [(mk_odor "X" [VInt (-6); VInt (-4)],
              mk_odor "Y" [VInt (-5); VInt (-3)])] None.

Definition same_name_data : data :=
  data_of 1 [(mk_odor "X" [VInt (-6)], mk_odor "X" [VInt (-4)])] None.

(** Stream 2 needs four pins of a pool of three. *)
Definition long_ramp_data : data :=
  data_of 1 [(mk_odor "X" [VInt (-6)],
              mk_odor "Y" [VNone; VInt (-5); VInt (-4)])] None.

(** CO2 as stream 1, whose manifold pool is [2, 3, 4]; CO2 pin 10. *)
Definition co2_first_data : data :=
  data_of 1 [(mk_odor "CO2" [VInt 0], mk_odor "Y" [VInt (-5)])] (Some 10).

Definition xy_configs : list config :=
  [mk_config
     [(2, vial "X" (VInt (-6))); (3, vial "X" (VInt (-4)));
      (7, vial "Y" (VInt (-5))); (8, vial "Y" (VInt (-3)))]
     [[2; 7; 5; 6]; [2; 7; 5; 6]; [2; 8; 5; 6]; [2; 8; 5; 6];
      [3; 7; 5; 6]; [3; 7; 5; 6]; [3; 8; 5; 6]; [3; 8; 5; 6]]].



(** Stream [X: [-6, 'high']]: a text among the concentrations. *)
Definition text_concentration_data : data :=
  data_of 1 [(mk_odor "X" [VStr "high"],
              mk_odor "Y" [VInt (-5)])] None.

End SimplePairs.

(** * basic_plus_co2.py *)

(** ** The [random] module

    [random.sample] and [random.shuffle] are library code; the scheduler is
    embedded over any state type [G] of the generator with these two
    operations, each returning its result and the next state. *)
Class RandomSource (G : Type) : Type := {
  random_sample : list Z -> nat -> G -> list Z * G;
  random_shuffle : list Z -> G -> list Z * G
}.

(** What the library documents of them: [sample(population, k)] is a list
    of [k] elements chosen from distinct positions of the population, and
    [shuffle(x)] reorders [x]. *)
Record RandomLaws {G : Type} (R : RandomSource G) : Prop := {
  sample_length : forall pop k g,
    (k <= length pop)%nat -> length (fst (random_sample pop k g)) = k;
  sample_selects : forall pop k g,
    (k <= length pop)%nat ->
    exists rest, Permutation (fst (random_sample pop k g) ++ rest) pop;
  shuffle_permutes : forall l g, Permutation (fst (random_shuffle l g)) l
}.

(** A source driven by a tape of raw draws, each reduced modulo the number
    of candidates left; an exhausted tape draws 0. *)
Fixpoint remove_nth (i : nat) (l : list Z) : list Z :=
  match i, l with
  | _, [] => []
  | O, _ :: l' => l'
  | S i', x :: l' => x :: remove_nth i' l'
  end.

Fixpoint tape_sample (pop : list Z) (k : nat) (tape : list nat)
    : list Z * list nat :=
  match k with
  | O => ([], tape)
  | S k' =>
      match pop with
      | [] => ([], tape)
      | _ :: _ =>
          let j := (hd O tape mod length pop)%nat in
          let (chosen, tape') := tape_sample (remove_nth j pop) k' (tl tape) in
          (nth j pop 0 :: chosen, tape')
      end
  end.

#[export] Instance tape_random : RandomSource (list nat) := {
  random_sample := tape_sample;
  random_shuffle := fun l tape => tape_sample l (length l) tape
}.

Inductive warning : Type :=
| defaulting_to_randomize
    (* 'defaulting to randomize_presentation_order=True, since not
       specified in config' *)
| only_randomizes_across_odors
    (* 'current implementation only randomizes across odors, keeping
       presentations of any given odor together' *).

Module BasicPlusCo2.

(** The keys of [data] the generator reads; an optional key is [None]
    when absent. An odor is a dict with string keys. *)
Record data : Type := mk_data {
  odors : list items;
  randomize_presentation_order : option value;
  n_repeats : option Z;
  co2_pin : option Z
}.

Section Generator.
Context {G : Type} {R : RandomSource G}.

(** What [common.add_balance_pins] makes of the pin list of one trial. *)
Variable balance_merge : list (Z * Z) -> list Z -> list Z.

(** Modelled from the spec: [common.add_balance_pins] belongs to the
    [olfactometer] package and is not part of these sources. The spec has
    the assembler merge the balance-pin bookkeeping into each trial of the
    list it is given. *)
Definition add_balance_pins (trial_pinlists : list (list Z))
    (pins2balances : list (Z * Z)) : list (list Z) :=
  map (balance_merge pins2balances) trial_pinlists.

(** The process state a run can change: the state of [random] and the
    warnings emitted so far. *)
Record world : Type := mk_world {
  rng : G;
  warnings : list warning
}.

(** State and exceptions; an exception keeps the state reached. *)
Definition gen (A : Type) : Type := world -> result A * world.

Definition ret {A} (a : A) : gen A := fun w => (inr a, w).

Definition gbind {A B} (m : gen A) (f : A -> gen B) : gen B :=
  fun w =>
    match m w with
    | (inl e, w') => (inl e, w')
    | (inr a, w') => f a w'
    end.

Definition lift {A} (r : result A) : gen A := fun w => (r, w).

Definition warn (msg : warning) : gen unit :=
  fun w => (inr tt, mk_world (rng w) (warnings w ++ [msg])).

Definition sample (population : list Z) (k : nat) : gen (list Z) :=
  fun w =>
    let (l, g) := random_sample population k (rng w) in
    (inr l, mk_world g (warnings w)).

Definition shuffle (x : list Z) : gen (list Z) :=
  fun w =>
    let (l, g) := random_shuffle x (rng w) in
    (inr l, mk_world g (warnings w)).

Declare Scope gen_scope.
Delimit Scope gen_scope with gen.
Notation "x <- m ;; k" := (gbind m (fun x => k))
  (at level 61, m at next level, right associativity) : gen_scope.
Notation "m ;;; k" := (gbind m (fun _ => k))
  (at level 61, right associativity) : gen_scope.

(** ['name' in o] *)
Definition has_name (o : items) : bool :=
  match dict_get String.eqb o "name" with
  | Some _ => true
  | None => false
  end.

(** [o['name'] == 'CO2'] *)
Definition name_is_co2 (o : items) : result bool :=
  (v <- of_option KeyError (dict_get String.eqb o "name") ;;
   ok (value_eqb v (VStr "CO2")))%result.

(** [[x for x in l if descr(x)['name'] == 'CO2']] *)
Fixpoint filter_co2 {A} (descr : A -> items) (l : list A)
    : result (list A) :=
  match l with
  | [] => ok []
  | x :: l' =>
      (b <- name_is_co2 (descr x) ;;
       rest <- filter_co2 descr l' ;;
       ok (if b then x :: rest else rest))%result
  end.

(** [v in (True, False)] *)
Definition in_true_false (v : value) : bool :=
  value_eqb v (VBool true) || value_eqb v (VBool false).

(** Lines 102-114: the value of [randomize_presentation_order]. *)
Definition resolve_randomize_presentation_order (d : data)
    (odors : list items) : gen value :=
  match randomize_presentation_order d with
  | Some randomize_presentation_order =>
      (lift (assert (in_true_false randomize_presentation_order)) ;;;
       ret randomize_presentation_order)%gen
  | None =>
      if (1 <? length odors)%nat then
        (warn defaulting_to_randomize ;;;
         ret (VBool true))%gen
      else
        (lift (assert (length odors =? 1)%nat) ;;;
         ret (VBool false))%gen
  end.

(** Lines 116-124: the value of [n_repeats]. *)
Definition resolve_n_repeats (d : data)
    (randomize_presentation_order : value) : gen Z :=
  match n_repeats d with
  | Some n_repeats =>
      ((if truthy randomize_presentation_order
        then warn only_randomizes_across_odors
        else ret tt) ;;;
       ret n_repeats)%gen
  | None => ret 1
  end.

Definition air_for_co2_mixture_compensation : items :=
  [("name", VStr "air for co2-mixture compensation");
   ("log10_conc", VInt 0)].

(** The rewriting of one trial's pin list for CO2. *)
Definition rewire (curr_co2_pin co2_pin : Z) (pl : list Z) : list Z :=
  if existsb (Z.eqb curr_co2_pin) pl then pl ++ [co2_pin] else pl.

(** Lines 138-162: the CO2 rewiring of the map and of the trials. *)
Definition co2_rewiring (d : data) (odors : list items)
    (pins2odors : list (Z * items)) (pinlist_at_each_trial : list (list Z))
    : result (list (Z * items) * list (list Z)) :=
  (co2_odors <- filter_co2 (fun o => o) odors ;;
   if (0 <? length co2_odors)%nat then
     assert (match co2_pin d with Some _ => true | None => false end) ;;;
     if (1 <? length co2_odors)%nat then raise NotImplementedError
     else
       co2_odor <- of_option IndexError (nth_error co2_odors 0) ;;
       curr_co2_entries <- filter_co2 snd pins2odors ;;
       let curr_co2_pins := map fst curr_co2_entries in
       assert (length curr_co2_pins =? 1)%nat ;;;
       curr_co2_pin <- of_option IndexError (nth_error curr_co2_pins 0) ;;
       let pins2odors :=
         dict_set Z.eqb pins2odors curr_co2_pin
           air_for_co2_mixture_compensation in
       co2_pin <- of_option KeyError (co2_pin d) ;;
       let pins2odors := dict_set Z.eqb pins2odors co2_pin co2_odor in
       assert (negb (existsb (fun pl => existsb (Z.eqb co2_pin) pl)
                       pinlist_at_each_trial)) ;;;
       let pinlist_at_each_trial :=
         map (rewire curr_co2_pin co2_pin) pinlist_at_each_trial in
       ok (pins2odors, pinlist_at_each_trial)
   else ok (pins2odors, pinlist_at_each_trial))%result.

(** [[[p] for p in trial_pins for _ in range(n_repeats)]] *)
Definition expand_repeats (trial_pins : list Z) (n_repeats : Z)
    : list (list Z) :=
  flat_map (fun p => repeat [p] (Z.to_nat n_repeats)) trial_pins.

Definition make_config_dict (hw : available_pins) (d : data) : gen config :=
  let available_valve_pins := available_valve_pins hw in
  let pins2balances := pins2balances hw in
  let odors := odors d in
  (lift (assert (forallb has_name odors)) ;;;
   let n_odors := length odors in
   lift (assert (n_odors <=? length available_valve_pins)%nat) ;;;
   odor_pins <- sample available_valve_pins n_odors ;;
   let pins2odors := dict_of_list Z.eqb (combine odor_pins odors) in
   randomize_presentation_order <-
     resolve_randomize_presentation_order d odors ;;
   n_repeats <- resolve_n_repeats d randomize_presentation_order ;;
   trial_pins <- (if truthy randomize_presentation_order
                  then shuffle odor_pins
                  else ret odor_pins) ;;
   let trial_pinlists := expand_repeats trial_pins n_repeats in
   let pinlist_at_each_trial :=
     add_balance_pins trial_pinlists pins2balances in
   rewired <- lift (co2_rewiring d odors pins2odors pinlist_at_each_trial) ;;
   ret (mk_config (fst rewired) (snd rewired)))%gen.

End Generator.

(** ** Vocabulary of the statements about the panel scheduler *)

(** The repeat count in force: the key's value, or the default 1. *)
Definition n_repeats_of (d : data) : Z :=
  match n_repeats d with
  | Some n => n
  | None => 1
  end.

(** An odor named CO2. *)
Definition is_co2 (o : items) : bool :=
  match dict_get String.eqb o "name" with
  | Some v => value_eqb v (VStr "CO2")
  | None => false
  end.

(** The pins drawn for the odors, in the order of the odors. *)
Definition sampled_pins {G : Type} {R : RandomSource G}
    (hw : available_pins) (d : data) (w : world) : list Z :=
  fst (random_sample (available_valve_pins hw) (length (odors d)) (rng w)).

(** The flag in force: the value of the key, or the default, which is
    [True] when there is more than one odor. *)
Definition flag_of (d : data) : value :=
  match randomize_presentation_order d with
  | Some v => v
  | None => VBool (1 <? length (odors d))%nat
  end.

(** The state of [random] after the pins of the odors were drawn. *)
Definition rng_after_sample {G : Type} {R : RandomSource G}
    (hw : available_pins) (d : data) (w : world) : G :=
  snd (random_sample (available_valve_pins hw) (length (odors d)) (rng w)).

(** The order of the odor pins in the trials, and the state of [random]
    at the end of a run: a shuffle, when the flag is true, follows the
    draw of the pins. *)
Definition presentation_order {G : Type} {R : RandomSource G}
    (hw : available_pins) (d : data) (w : world) : list Z * G :=
  if truthy (flag_of d)
  then random_shuffle (sampled_pins hw d w) (rng_after_sample hw d w)
  else (sampled_pins hw d w, rng_after_sample hw d w).

(** The trial list of a run is grouped by odor: the odor pins are put in
    presentation order (the order drawn, shuffled once when the flag is
    true) before the repeats are expanded, and the trials are, for each
    odor pin in that order, [n_repeats] consecutive copies of the one
    trial [trial_of p] built from the single pin [p] (with the CO2 pin
    appended where the rewiring applies). *)
Definition grouped_by_odor {G : Type} {R : RandomSource G}
    (balance_merge : list (Z * Z) -> list Z -> list Z)
    (hw : available_pins) (d : data) (w : world) (cfg : config) : Prop :=
  exists trial_of,
    (forall p,
        trial_of p = balance_merge (pins2balances hw) [p] \/
        exists pin,
          co2_pin d = Some pin /\
          trial_of p = balance_merge (pins2balances hw) [p] ++ [pin]) /\
    pinlist_at_each_trial cfg
    = flat_map (fun p => repeat (trial_of p) (Z.to_nat (n_repeats_of d)))
        (fst (presentation_order hw d w)).

(** The trial list before the CO2 rewiring: the repeats of the odor pins
    in presentation order, each merged with its balance pins. *)
Definition trials_before_rewiring {G : Type} {R : RandomSource G}
    (balance_merge : list (Z * Z) -> list Z -> list Z)
    (hw : available_pins) (d : data) (w : world) : list (list Z) :=
  add_balance_pins balance_merge
    (expand_repeats (fst (presentation_order hw d w)) (n_repeats_of d))
    (pins2balances hw).




(** ** Vocabulary of the further properties *)

(** The warnings of a run that resolves both optional keys. *)
Definition warnings_of (d : data) : list warning :=
  match randomize_presentation_order d with
  | Some _ => []
  | None => if (1 <? length (odors d))%nat then [defaulting_to_randomize]
            else []
  end
  ++ match n_repeats d with
     | Some _ => if truthy (flag_of d) then [only_randomizes_across_odors]
                 else []
     | None => []
     end.

(** The flag passes the check, or is absent from a panel that has an
    odor. *)
Definition flag_ok (d : data) : Prop :=
  match randomize_presentation_order d with
  | Some v => in_true_false v = true
  | None => (1 <= length (odors d))%nat
  end.

(** ** Worked inputs *)

(** The balance pins of the pins of a trial, appended to it. *)
Definition append_balances (pins2balances : list (Z * Z)) (pl : list Z)
    : list Z :=
  pl ++ nodup Z.eq_dec
          (flat_map (fun p => match dict_get Z.eqb pins2balances p with
                              | Some b => [b]
                              | None => []
                              end) pl).

Definition single_manifold_pins : available_pins :=
  mk_available_pins [2; 3; 4] [(2, 5); (3, 5); (4, 5)] true.

Definition odor_of (n : string) (c : Z) : items :=
  [("name", VStr n); ("log10_conc", VInt c)].

Definition start (tape : list nat) : world (G := list nat) :=
  mk_world tape [].

(** Odors A, B and CO2 on pool [2, 3, 4], CO2 pin 10, two repeats, in
    the order given. *)
Definition abc_data : data :=
  mk_data [odor_of "A" (-3); odor_of "B" (-4); odor_of "CO2" 0]
    (Some (VBool false)) (Some 2) (Some 10).

(** The run of [abc_data] on the tape [1, 1, 0], which draws pins 3, 4
    and 2. *)
Definition abc_config : config :=
  mk_config
    [(3, odor_of "A" (-3)); (4, odor_of "B" (-4));
     (2, air_for_co2_mixture_compensation); (10, odor_of "CO2" 0)]
    [[3; 5]; [3; 5]; [4; 5]; [4; 5]; [2; 5; 10]; [2; 5; 10]].

(** Odors A, B and C, two repeats, in random order. *)
Definition shuffled_data : data :=
  mk_data [odor_of "A" (-3); odor_of "B" (-4); odor_of "C" (-5)]
    (Some (VBool true)) (Some 2) None.

(** The run of [shuffled_data] on the tape [0, 0, 0, 2, 0, 0], which
    draws pins 2, 3 and 4 and shuffles them into 4, 2, 3. *)
Definition shuffled_config : config :=
  mk_config
    [(2, odor_of "A" (-3)); (3, odor_of "B" (-4)); (4, odor_of "C" (-5))]
    [[4; 5]; [4; 5]; [2; 5]; [2; 5]; [3; 5]; [3; 5]].



(** One odor, nothing else specified. *)
Definition single_data : data :=
  mk_data [odor_of "A" (-3)] None None None.

Definition single_config : config :=
  mk_config [(3, odor_of "A" (-3))] [[3; 5]].

(** The flag given as the number 1. *)
Definition numeric_flag_data : data :=
  mk_data [odor_of "A" (-3); odor_of "B" (-4)] (Some (VInt 1)) None None.

(** No odors. *)
Definition empty_data (flag : option value) : data :=
  mk_data [] flag None None.

(** An odor without a name. *)
Definition unnamed_data : data :=
  mk_data [[("log10_conc", VInt (-3))]] None None None.

(** The flag given as a text. *)
Definition text_flag_data : data :=
  mk_data [odor_of "A" (-3); odor_of "B" (-4)] (Some (VStr "yes")) None None.

(** Two CO2 odors. *)
Definition two_co2_data : data :=
  mk_data [odor_of "CO2" 0; odor_of "CO2" (-1)] (Some (VBool false)) None
    (Some 10).

(** A CO2 odor without a CO2 pin. *)
Definition no_co2_pin_data : data :=
  mk_data [odor_of "A" (-3); odor_of "CO2" 0] (Some (VBool false)) None None.

(** The CO2 pin is pin 2 of the pool. *)
Definition co2_pin_in_pool_data : data :=
  mk_data [odor_of "A" (-3); odor_of "B" (-4); odor_of "CO2" 0]
    (Some (VBool false)) (Some 2) (Some 2).

End BasicPlusCo2.



(** * Facts about the error monad *)

Lemma bind_inr {A B} (m : result A) (f : A -> result B) (b : B) :
  bind m f = inr b -> exists a, m = inr a /\ f a = inr b.
Proof.
  destruct m as [e | a]; simpl; intros H.
  - discriminate.
  - exists a. split; [reflexivity | exact H].
Qed.

Lemma bind_inl {A B} (m : result A) (f : A -> result B) (e : exception) :
  m = inl e -> bind m f = inl e.
Proof. intros ->. reflexivity. Qed.

Lemma assert_inr (b : bool) (u : unit) : assert b = inr u -> b = true.
Proof. destruct b; [reflexivity | discriminate]. Qed.

Lemma of_option_inr {A} (e : exception) (o : option A) (a : A) :
  of_option e o = inr a -> o = Some a.
Proof. destruct o; simpl; intros H; [inversion H; reflexivity | discriminate]. Qed.

Lemma ok_inr {A} (a b : A) : ok a = inr b -> a = b.
Proof. intros H. inversion H. reflexivity. Qed.

Lemma not_inr_inl {A} (r : result A) :
  (forall a, r <> inr a) -> exists e, r = inl e.
Proof.
  destruct r as [e | a]; intros H.
  - exists e. reflexivity.
  - exfalso. apply (H a). reflexivity.
Qed.

(** Inversion of a successful run, one step of the monad at a time. *)
Ltac inv_result :=
  repeat match goal with
  | H : bind _ _ = inr _ |- _ =>
      let a := fresh "a" in
      let Ha := fresh "Ha" in
      apply bind_inr in H; destruct H as (a & Ha & H)
  | H : assert _ = inr _ |- _ => apply assert_inr in H
  | H : of_option _ _ = inr _ |- _ => apply of_option_inr in H
  | H : ok _ = inr _ |- _ => apply ok_inr in H
  end.

Tactic Notation "inv_bind" hyp(H) "as" ident(x) ident(Hx) :=
  apply bind_inr in H; destruct H as (x & Hx & H).

(** * Facts about dictionaries *)

Section DictFacts.
Context {K V : Type} (eqb : K -> K -> bool).
(** The keys in use satisfy [P], and on them [eqb] decides equality. *)
Variable P : K -> Prop.
Hypothesis eqb_refl : forall a, eqb a a = true.
Hypothesis eqb_eq : forall a b, P a -> P b -> eqb a b = true -> a = b.

Lemma dict_get_In (d : list (K * V)) k v :
  dict_get eqb d k = Some v -> exists k', In (k', v) d /\ eqb k k' = true.
Proof.
  induction d as [| [k0 v0] d IH]; simpl; intros H.
  - discriminate.
  - destruct (eqb k k0) eqn:E.
    + inversion H; subst. exists k0. split; [left; reflexivity | exact E].
    + destruct (IH H) as (k' & Hin & Hk). exists k'. split; [right |]; assumption.
Qed.

Lemma dict_set_keys (d : list (K * V)) k v :
  Forall P (dict_keys d) -> P k ->
  dict_keys (dict_set eqb d k v)
  = if existsb (eqb k) (dict_keys d) then dict_keys d else dict_keys d ++ [k].
Proof.
  unfold dict_keys. induction d as [| [k0 v0] d IH]; simpl; intros HP Hk.
  - reflexivity.
  - inversion HP; subst. destruct (eqb k k0) eqn:E; simpl.
    + reflexivity.
    + rewrite (IH H2 Hk). destruct (existsb (eqb k) (map fst d)); reflexivity.
Qed.

Lemma dict_set_P (d : list (K * V)) k v :
  Forall P (dict_keys d) -> P k -> Forall P (dict_keys (dict_set eqb d k v)).
Proof.
  intros HP Hk. rewrite dict_set_keys by assumption.
  destruct (existsb (eqb k) (dict_keys d)); [assumption |].
  apply Forall_app. split; [assumption | constructor; [assumption | constructor]].
Qed.

Lemma existsb_eqb_In k (l : list K) :
  Forall P l -> P k -> existsb (eqb k) l = true <-> In k l.
Proof.
  intros HP Hk. rewrite existsb_exists. split.
  - intros (x & Hin & E). rewrite Forall_forall in HP.
    rewrite (eqb_eq k x Hk (HP x Hin) E). exact Hin.
  - intros Hin. exists k. split; [exact Hin | apply eqb_refl].
Qed.

Lemma dict_set_NoDup (d : list (K * V)) k v :
  Forall P (dict_keys d) -> P k ->
  NoDup (dict_keys d) -> NoDup (dict_keys (dict_set eqb d k v)).
Proof.
  intros HP Hk Hnd. rewrite dict_set_keys by assumption.
  destruct (existsb (eqb k) (dict_keys d)) eqn:E; [assumption |].
  apply NoDup_app; [assumption | constructor; [intros [] | constructor] |].
  intros x Hin [<- | []].
  apply (existsb_eqb_In k _ HP Hk) in Hin. congruence.
Qed.

Lemma dict_set_In (d : list (K * V)) k v k' v' :
  Forall P (dict_keys d) -> P k ->
  In (k', v') (dict_set eqb d k v) -> (k' = k /\ v' = v) \/ In (k', v') d.
Proof.
  unfold dict_keys. induction d as [| [k0 v0] d IH]; simpl; intros HP Hk Hin.
  - destruct Hin as [Hin | []]. inversion Hin. left. split; reflexivity.
  - inversion HP; subst. destruct (eqb k k0) eqn:E.
    + destruct Hin as [Hin | Hin].
      * inversion Hin; subst. left. split; [| reflexivity].
        symmetry. apply eqb_eq; assumption.
      * right. right. exact Hin.
    + destruct Hin as [Hin | Hin].
      * right. left. exact Hin.
      * destruct (IH H2 Hk Hin) as [Heq | Hin']; [left | right; right]; assumption.
Qed.

Lemma dict_get_set (d : list (K * V)) k v k' :
  Forall P (dict_keys d) -> P k -> P k' ->
  dict_get eqb (dict_set eqb d k v) k'
  = if eqb k' k then Some v else dict_get eqb d k'.
Proof.
  unfold dict_keys. induction d as [| [k0 v0] d IH]; simpl; intros HP Hk Hk'.
  - reflexivity.
  - inversion HP; subst. destruct (eqb k k0) eqn:E; simpl.
    + apply eqb_eq in E; [subst k0 | assumption | assumption].
      destruct (eqb k' k); reflexivity.
    + destruct (eqb k' k0) eqn:E0.
      * destruct (eqb k' k) eqn:E1; [| reflexivity].
        apply eqb_eq in E0; [| assumption | assumption].
        apply eqb_eq in E1; [| assumption | assumption].
        subst. rewrite eqb_refl in E. discriminate.
      * apply IH; assumption.
Qed.

Lemma dict_get_of_In (d : list (K * V)) k v :
  Forall P (dict_keys d) -> NoDup (dict_keys d) ->
  In (k, v) d -> dict_get eqb d k = Some v.
Proof.
  unfold dict_keys. induction d as [| [k0 v0] d IH]; simpl; intros HP Hnd Hin.
  - destruct Hin.
  - inversion HP; subst. inversion Hnd; subst. destruct Hin as [Hin | Hin].
    + inversion Hin; subst. rewrite eqb_refl. reflexivity.
    + destruct (eqb k k0) eqn:E.
      * exfalso. apply H3.
        rewrite Forall_forall in H2.
        assert (Hk : In k (map fst d)) by (apply (in_map fst) in Hin; exact Hin).
        rewrite <- (eqb_eq k k0 (H2 k Hk) H1 E). exact Hk.
      * apply IH; assumption.
Qed.

Lemma dict_set_fresh (d : list (K * V)) k v :
  Forall P (dict_keys d) -> P k -> ~ In k (dict_keys d) ->
  dict_set eqb d k v = d ++ [(k, v)].
Proof.
  unfold dict_keys. induction d as [| [k0 v0] d IH]; simpl; intros HP Hk Hnin.
  - reflexivity.
  - inversion HP; subst. destruct (eqb k k0) eqn:E.
    + exfalso. apply Hnin. left. symmetry. apply eqb_eq; assumption.
    + rewrite IH; [reflexivity | assumption | assumption |].
      intros Hin. apply Hnin. right. exact Hin.
Qed.

Lemma fold_dict_set_NoDup (l acc : list (K * V)) :
  Forall P (map fst (acc ++ l)) -> NoDup (map fst (acc ++ l)) ->
  fold_left (fun d kv => dict_set eqb d (fst kv) (snd kv)) l acc = acc ++ l.
Proof.
  revert acc. induction l as [| [k v] l IH]; simpl; intros acc HP Hnd.
  - rewrite app_nil_r. reflexivity.
  - assert (Hacc : Forall P (dict_keys acc) /\ P k /\ ~ In k (dict_keys acc)).
    { unfold dict_keys. rewrite map_app in HP, Hnd. simpl in HP, Hnd.
      apply Forall_app in HP. destruct HP as (HPa & HPl).
      inversion HPl; subst. repeat split; try assumption.
      apply NoDup_remove_2 in Hnd. intros Hin. apply Hnd.
      apply in_or_app. left. exact Hin. }
    destruct Hacc as (HPa & Hk & Hnin).
    rewrite (dict_set_fresh acc k v HPa Hk Hnin).
    rewrite IH; rewrite <- app_assoc; simpl; [reflexivity | assumption | assumption].
Qed.

(** A list with unique keys is its own dict. *)
Lemma dict_of_list_NoDup (l : list (K * V)) :
  Forall P (map fst l) -> NoDup (map fst l) -> dict_of_list eqb l = l.
Proof.
  intros HP Hnd. unfold dict_of_list.
  rewrite fold_dict_set_NoDup; [reflexivity | exact HP | exact Hnd].
Qed.

(** The invariant of [dict_of_list]: unique keys, all from the list. *)
Lemma fold_dict_set_inv (l acc : list (K * V)) :
  Forall P (map fst l) -> Forall P (dict_keys acc) -> NoDup (dict_keys acc) ->
  let d := fold_left (fun d kv => dict_set eqb d (fst kv) (snd kv)) l acc in
  Forall P (dict_keys d) /\ NoDup (dict_keys d) /\
  (forall k v, In (k, v) d -> In (k, v) acc \/ In (k, v) l).
Proof.
  revert acc. induction l as [| [k v] l IH]; simpl; intros acc HPl HPa Hnd.
  - repeat split; auto.
  - inversion HPl; subst.
    destruct (IH (dict_set eqb acc k v) H2
                (dict_set_P _ _ _ HPa H1) (dict_set_NoDup _ _ _ HPa H1 Hnd))
      as (HP' & Hnd' & Hin').
    repeat split; [assumption | assumption |].
    intros k' v' Hin. destruct (Hin' k' v' Hin) as [Hs | Hl].
    + destruct (dict_set_In _ _ _ _ _ HPa H1 Hs) as [[-> ->] | Ha].
      * right. left. reflexivity.
      * left. exact Ha.
    + right. right. exact Hl.
Qed.

Lemma dict_of_list_inv (l : list (K * V)) :
  Forall P (map fst l) ->
  Forall P (dict_keys (dict_of_list eqb l)) /\
  NoDup (dict_keys (dict_of_list eqb l)) /\
  (forall k v, In (k, v) (dict_of_list eqb l) -> In (k, v) l).
Proof.
  intros HP.
  destruct (fold_dict_set_inv l [] HP (Forall_nil _) (NoDup_nil _))
    as (H1 & H2 & H3).
  repeat split; [exact H1 | exact H2 |].
  intros k v Hin. destruct (H3 k v Hin) as [[] | H]. exact H.
Qed.

End DictFacts.

(** ** Dictionaries whose keys are compared by any test *)

Section DictAnyKeys.
Context {K V : Type} (eqb : K -> K -> bool).

Lemma dict_set_keys_any (d : list (K * V)) k v :
  dict_keys (dict_set eqb d k v)
  = if existsb (eqb k) (dict_keys d) then dict_keys d else dict_keys d ++ [k].
Proof.
  unfold dict_keys. induction d as [| [k0 v0] d IH]; simpl.
  - reflexivity.
  - destruct (eqb k k0) eqn:E; simpl.
    + reflexivity.
    + rewrite IH. destruct (existsb (eqb k) (map fst d)); reflexivity.
Qed.

Lemma dict_get_covered (d : list (K * V)) k :
  existsb (eqb k) (dict_keys d) = true -> exists v, dict_get eqb d k = Some v.
Proof.
  unfold dict_keys. induction d as [| [k0 v0] d IH]; simpl; intros H.
  - discriminate.
  - destruct (eqb k k0); [exists v0; reflexivity | apply IH; exact H].
Qed.

Lemma dict_set_covers (d : list (K * V)) k v k' :
  existsb (eqb k') (dict_keys d) = true ->
  existsb (eqb k') (dict_keys (dict_set eqb d k v)) = true.
Proof.
  intros H. rewrite dict_set_keys_any.
  destruct (existsb (eqb k) (dict_keys d)); [exact H |].
  rewrite existsb_app, H. reflexivity.
Qed.

Hypothesis eqb_refl : forall a, eqb a a = true.

Lemma dict_set_covers_key (d : list (K * V)) k v :
  existsb (eqb k) (dict_keys (dict_set eqb d k v)) = true.
Proof.
  rewrite dict_set_keys_any.
  destruct (existsb (eqb k) (dict_keys d)) eqn:E; [exact E |].
  rewrite existsb_app. simpl. rewrite eqb_refl, orb_true_r. reflexivity.
Qed.

(** An entry of the dict after [d[k] = v] is an old entry, or carries
    [v] under a key that [k] is equal to. *)
Lemma dict_set_entry (d : list (K * V)) k v k' v' :
  In (k', v') (dict_set eqb d k v) ->
  In (k', v') d \/ (v' = v /\ eqb k k' = true).
Proof.
  induction d as [| [k0 v0] d IH]; simpl; intros Hin.
  - destruct Hin as [Hin | []]. inversion Hin; subst.
    right. split; [reflexivity | apply eqb_refl].
  - destruct (eqb k k0) eqn:E.
    + destruct Hin as [Hin | Hin].
      * inversion Hin; subst. right. split; [reflexivity | exact E].
      * left. right. exact Hin.
    + destruct Hin as [Hin | Hin].
      * left. left. exact Hin.
      * destruct (IH Hin) as [Hd | Hnew]; [left; right; exact Hd | right; exact Hnew].
Qed.

Lemma fold_dict_set_entry (l acc : list (K * V)) k' v :
  In (k', v) (fold_left (fun d kv => dict_set eqb d (fst kv) (snd kv)) l acc) ->
  In (k', v) acc \/ exists k, In (k, v) l /\ eqb k k' = true.
Proof.
  revert acc. induction l as [| [k0 v0] l IH]; simpl; intros acc Hin.
  - left. exact Hin.
  - destruct (IH _ Hin) as [Hacc | (k & Hk & E)].
    + destruct (dict_set_entry _ _ _ _ _ Hacc) as [Hd | (-> & E)].
      * left. exact Hd.
      * right. exists k0. split; [left; reflexivity | exact E].
    + right. exists k. split; [right; exact Hk | exact E].
Qed.

(** An entry of [{k: v for k, v in l}] carries a value of [l] under a key
    that the key of this value in [l] is equal to. *)
Lemma dict_of_list_entry (l : list (K * V)) k' v :
  In (k', v) (dict_of_list eqb l) ->
  exists k, In (k, v) l /\ eqb k k' = true.
Proof.
  intros Hin. apply fold_dict_set_entry in Hin.
  destruct Hin as [[] | H]. exact H.
Qed.

Lemma fold_dict_set_covers (l acc : list (K * V)) k :
  existsb (eqb k) (dict_keys acc) = true \/ In k (map fst l) ->
  existsb (eqb k)
    (dict_keys (fold_left (fun d kv => dict_set eqb d (fst kv) (snd kv)) l acc))
  = true.
Proof.
  revert acc. induction l as [| [k0 v0] l IH]; simpl; intros acc H.
  - destruct H as [H | []]. exact H.
  - apply IH. destruct H as [H | [<- | H]].
    + left. apply dict_set_covers. exact H.
    + left. apply dict_set_covers_key.
    + right. exact H.
Qed.

(** A key of the list is found in the dict. *)
Lemma dict_of_list_found (l : list (K * V)) k :
  In k (map fst l) -> exists v, dict_get eqb (dict_of_list eqb l) k = Some v.
Proof.
  intros Hin. apply dict_get_covered. unfold dict_of_list.
  apply fold_dict_set_covers. right. exact Hin.
Qed.

End DictAnyKeys.

(** ** Dictionaries keyed by pins *)

Lemma Z_eqb_eq_on (a b : Z) : True -> True -> (a =? b) = true -> a = b.
Proof. intros _ _. apply Z.eqb_eq. Qed.

Lemma Forall_True {A} (l : list A) : Forall (fun _ => True) l.
Proof. induction l; constructor; auto. Qed.

Lemma pin_dict_set_keys {V} (d : list (Z * V)) k v :
  dict_keys (dict_set Z.eqb d k v)
  = if existsb (Z.eqb k) (dict_keys d) then dict_keys d else dict_keys d ++ [k].
Proof. apply (dict_set_keys Z.eqb (fun _ => True)); [apply Forall_True | exact I]. Qed.

Lemma pin_dict_get_set {V} (d : list (Z * V)) k v k' :
  dict_get Z.eqb (dict_set Z.eqb d k v) k'
  = if k' =? k then Some v else dict_get Z.eqb d k'.
Proof.
  apply (dict_get_set Z.eqb (fun _ => True) Z.eqb_refl Z_eqb_eq_on);
    [apply Forall_True | exact I | exact I].
Qed.

Lemma pin_dict_of_list_NoDup {V} (l : list (Z * V)) :
  NoDup (map fst l) -> dict_of_list Z.eqb l = l.
Proof.
  intros Hnd.
  apply (dict_of_list_NoDup Z.eqb (fun _ => True) Z_eqb_eq_on);
    [apply Forall_True | exact Hnd].
Qed.

Lemma In_of_dict_get {V} (d : list (Z * V)) k v :
  dict_get Z.eqb d k = Some v -> In (k, v) d.
Proof.
  intros H. apply dict_get_In in H. destruct H as (k' & Hin & E).
  apply Z.eqb_eq in E. subst. exact Hin.
Qed.

Lemma pin_dict_get_of_In {V} (d : list (Z * V)) k v :
  NoDup (dict_keys d) -> In (k, v) d -> dict_get Z.eqb d k = Some v.
Proof.
  intros Hnd Hin.
  apply (dict_get_of_In Z.eqb (fun _ => True) Z.eqb_refl Z_eqb_eq_on);
    [apply Forall_True | exact Hnd | exact Hin].
Qed.

Lemma pin_dict_of_list_In {V} (l : list (Z * V)) k v :
  In (k, v) (dict_of_list Z.eqb l) -> In (k, v) l.
Proof.
  destruct (dict_of_list_inv Z.eqb (fun _ => True) Z.eqb_refl Z_eqb_eq_on
              l (Forall_True _)) as (_ & _ & Hin).
  apply Hin.
Qed.

(** * Properties of the pair scheduler *)

Module SimplePairsFacts.
Import SimplePairs.

#[local] Arguments String.eqb : simpl never.

(** ** Equality of scalars *)

Lemma float_eqb_refl x : float_eqb x x = true.
Proof.
  destruct x; simpl; try reflexivity.
  apply Qeq_bool_iff. apply Qeq_refl.
Qed.

Lemma float_eqb_sym x y : float_eqb x y = true -> float_eqb y x = true.
Proof.
  destruct x, y; simpl; intros H; try discriminate; try reflexivity.
  apply Qeq_bool_iff. apply Qeq_sym. apply Qeq_bool_iff. exact H.
Qed.

Lemma float_eqb_trans x y z :
  float_eqb x y = true -> float_eqb y z = true -> float_eqb x z = true.
Proof.
  destruct x, y, z; simpl; intros H1 H2; try discriminate; try reflexivity.
  apply Qeq_bool_iff in H1, H2. apply Qeq_bool_iff.
  eapply Qeq_trans; eassumption.
Qed.

(** Two values are equal when they stand for equal numbers, are both
    [None], or are the same string. *)
Lemma value_eqb_cases a b :
  value_eqb a b = true <->
  (exists x y, as_number a = Some x /\ as_number b = Some y /\
               float_eqb x y = true)
  \/ (a = VNone /\ b = VNone)
  \/ (exists s, a = VStr s /\ b = VStr s).
Proof.
  unfold value_eqb. split.
  - destruct (as_number a) as [x |] eqn:Ea, (as_number b) as [y |] eqn:Eb;
      intros H; try discriminate.
    + left. exists x, y. repeat split. exact H.
    + right. destruct a, b; simpl in *; try discriminate.
      * left. split; reflexivity.
      * right. apply String.eqb_eq in H. subst. eexists. split; reflexivity.
  - intros [(x & y & -> & -> & H) | [(-> & ->) | (s & -> & ->)]].
    + exact H.
    + reflexivity.
    + simpl. apply String.eqb_refl.
Qed.

Lemma value_eqb_refl v : value_eqb v v = true.
Proof.
  apply value_eqb_cases. destruct v; simpl.
  - right. left. split; reflexivity.
  - left. eexists _, _. repeat split. apply float_eqb_refl.
  - left. eexists _, _. repeat split. apply float_eqb_refl.
  - left. eexists _, _. repeat split. apply float_eqb_refl.
  - right. right. eexists. split; reflexivity.
Qed.

Lemma value_eqb_sym a b : value_eqb a b = true -> value_eqb b a = true.
Proof.
  intros H. apply value_eqb_cases in H. apply value_eqb_cases.
  destruct H as [(x & y & Ha & Hb & H) | [(-> & ->) | (s & -> & ->)]].
  - left. exists y, x. repeat split; try assumption.
    apply float_eqb_sym. exact H.
  - right. left. split; reflexivity.
  - right. right. eexists. split; reflexivity.
Qed.

Lemma value_eqb_trans a b c :
  value_eqb a b = true -> value_eqb b c = true -> value_eqb a c = true.
Proof.
  intros H1 H2. apply value_eqb_cases in H1, H2. apply value_eqb_cases.
  destruct H1 as [(x & y & Ha & Hb & H1) | [(-> & ->) | (s & -> & ->)]];
    destruct H2 as [(y' & z & Hb' & Hc & H2) | [(Hb' & ->) | (s' & Hb' & ->)]];
    try discriminate; subst; simpl in *; try discriminate.
  - left. exists x, z. repeat split; try assumption.
    rewrite Hb in Hb'. inversion Hb'; subst.
    eapply float_eqb_trans; eassumption.
  - right. left. split; reflexivity.
  - right. right. inversion Hb'; subst. eexists. split; reflexivity.
Qed.

Lemma items_eqb_refl a : items_eqb a a = true.
Proof.
  induction a as [| [k v] a IH]; simpl.
  - reflexivity.
  - rewrite String.eqb_refl, value_eqb_refl, IH. reflexivity.
Qed.

Lemma items_eqb_sym a b : items_eqb a b = true -> items_eqb b a = true.
Proof.
  revert b. induction a as [| [k v] a IH]; intros [| [k' v'] b]; simpl;
    intros H; try discriminate; try reflexivity.
  apply andb_true_iff in H. destruct H as (H & Hab).
  apply andb_true_iff in H. destruct H as (Hk & Hv).
  apply String.eqb_eq in Hk. subst k'.
  rewrite String.eqb_refl, (value_eqb_sym _ _ Hv), (IH _ Hab). reflexivity.
Qed.

Lemma items_eqb_trans a b c :
  items_eqb a b = true -> items_eqb b c = true -> items_eqb a c = true.
Proof.
  revert b c. induction a as [| [k v] a IH]; intros [| [k' v'] b] [| [k'' v''] c];
    simpl; intros H1 H2; try discriminate; try reflexivity.
  apply andb_true_iff in H1. destruct H1 as (H1 & Hab).
  apply andb_true_iff in H1. destruct H1 as (Hk & Hv).
  apply andb_true_iff in H2. destruct H2 as (H2 & Hbc).
  apply andb_true_iff in H2. destruct H2 as (Hk' & Hv').
  apply String.eqb_eq in Hk, Hk'. subst k' k''.
  rewrite String.eqb_refl, (value_eqb_trans _ _ _ Hv Hv'), (IH _ _ Hab Hbc).
  reflexivity.
Qed.

(** Two vials are equal keys when they have the same name and equal
    concentrations. *)
Lemma items_eqb_vial n c n' c' :
  items_eqb (vial n c) (vial n' c') = true <-> n = n' /\ value_eqb c c' = true.
Proof.
  unfold vial. simpl. rewrite andb_true_r.
  change (value_eqb (VStr n) (VStr n')) with (String.eqb n n'). split.
  - intros H. apply andb_true_iff in H. destruct H as (Hn & Hc).
    apply String.eqb_eq in Hn. split; assumption.
  - intros (-> & Hc). rewrite String.eqb_refl, Hc. reflexivity.
Qed.

Lemma vial_inj n c n' c' : vial n c = vial n' c' -> n = n' /\ c = c'.
Proof.
  unfold vial. intros H. inversion H. split; reflexivity.
Qed.

(** ** Sorting concentrations *)

Lemma float_ltb_asym x y : float_ltb x y = true -> float_ltb y x = false.
Proof.
  destruct x, y; simpl; intros H; try discriminate; try reflexivity.
  apply negb_true_iff in H. apply negb_false_iff.
  apply Qle_bool_iff. apply Qlt_le_weak. apply Qnot_le_lt.
  intros Hle. apply Qle_bool_iff in Hle. congruence.
Qed.

Lemma string_ltb_asym s t : String.ltb s t = true -> String.ltb t s = false.
Proof.
  unfold String.ltb. rewrite (String.compare_antisym t s).
  destruct (String.compare s t); simpl; intros H;
    [discriminate | reflexivity | discriminate].
Qed.

Lemma value_ltb_asym a b : value_ltb a b = ok true -> value_ltb b a = ok false.
Proof.
  unfold value_ltb.
  destruct (as_number a) as [x |], (as_number b) as [y |];
    try discriminate.
  - intros H. apply ok_inr in H. rewrite (float_ltb_asym _ _ H). reflexivity.
  - destruct a, b; try discriminate.
    intros H. apply ok_inr in H. rewrite (string_ltb_asym _ _ H). reflexivity.
Qed.

Lemma value_ltb_inl a b e : value_ltb a b = inl e -> e = TypeError.
Proof.
  unfold value_ltb.
  destruct (as_number a), (as_number b); try discriminate;
    try (intros H; inversion H; reflexivity).
  destruct a, b; try discriminate; intros H; inversion H; reflexivity.
Qed.

Lemma insert_by_key_inr c l s :
  insert_by_key c l = inr s ->
  Permutation s (c :: l) /\
  (Sorted conc_le l -> Sorted conc_le s) /\
  (forall x, conc_le x c -> HdRel conc_le x l -> HdRel conc_le x s).
Proof.
  revert s. induction l as [| d l IH]; simpl; intros s H.
  - apply ok_inr in H. subst s.
    split; [apply Permutation_refl |].
    split; [intros _; repeat constructor |].
    intros x Hx _. constructor. exact Hx.
  - inv_bind H as below Hbelow. destruct below.
    + inv_bind H as rest Hrest. apply ok_inr in H. subst s.
      destruct (IH _ Hrest) as (Hperm & Hsorted & Hhd).
      split.
      { apply perm_trans with (d :: c :: l).
        - apply perm_skip. exact Hperm.
        - apply perm_swap. }
      split.
      { intros Hs. inversion Hs; subst. constructor.
        - apply Hsorted. assumption.
        - apply Hhd; [| assumption].
          unfold conc_le. apply value_ltb_asym. exact Hbelow. }
      intros x Hx Hxl. inversion Hxl; subst. constructor. assumption.
    + apply ok_inr in H. subst s.
      split; [apply Permutation_refl |].
      split.
      { intros Hs. constructor; [exact Hs |]. constructor. exact Hbelow. }
      intros x Hx _. constructor. exact Hx.
Qed.

(** When [sorted] returns, it returns the ramp rearranged in ascending
    order of the keys. *)
Lemma sorted_inr l s :
  sorted l = inr s -> Permutation s l /\ Sorted conc_le s.
Proof.
  revert s. induction l as [| c l IH]; simpl; intros s H.
  - apply ok_inr in H. subst s. split; constructor.
  - inv_bind H as s' Hs'. destruct (IH _ Hs') as (Hperm & Hsorted).
    destruct (insert_by_key_inr _ _ _ H) as (Hp & Hs & _).
    split.
    + apply perm_trans with (c :: s'); [exact Hp |].
      apply perm_skip. exact Hperm.
    + apply Hs. exact Hsorted.
Qed.

Lemma sorted_length l s : sorted l = inr s -> length s = length l.
Proof.
  intros H. apply Permutation_length. apply (sorted_inr _ _ H).
Qed.


(** ** The two nested loops *)

Lemma inner_loop_inr f n acc l out :
  inner_loop f n acc l = inr out ->
  out = acc ++ flat_map (fun c2 => repeat (pins_or_nil (f c2)) (Z.to_nat n)) l
  /\ Forall (fun c2 => exists pins, f c2 = inr pins) l.
Proof.
  revert acc. induction l as [| c2 l IH]; simpl; intros acc H.
  - apply ok_inr in H. subst. rewrite app_nil_r. split; constructor.
  - inv_result. destruct (IH _ H) as (-> & Hall).
    rewrite Ha. simpl. rewrite app_assoc. split; [reflexivity |].
    constructor; [exists a; exact Ha | exact Hall].
Qed.

Lemma outer_loop_inr f n acc l1 l2 out :
  outer_loop f n acc l1 l2 = inr out ->
  out = acc ++ cross_product_trials (fun c1 c2 => pins_or_nil (f c1 c2))
                 (Z.to_nat n) l1 l2
  /\ Forall (fun c1 => Forall (fun c2 => exists pins, f c1 c2 = inr pins) l2) l1.
Proof.
  unfold cross_product_trials.
  revert acc. induction l1 as [| c1 l1 IH]; simpl; intros acc H.
  - apply ok_inr in H. subst. rewrite app_nil_r. split; constructor.
  - inv_result. destruct (inner_loop_inr _ _ _ _ _ Ha) as (-> & Hin).
    destruct (IH _ H) as (-> & Hall).
    rewrite app_assoc. split; [reflexivity |].
    constructor; assumption.
Qed.

Lemma cross_product_trials_length pins_of n s1 s2 :
  length (cross_product_trials pins_of n s1 s2)
  = (length s1 * length s2 * n)%nat.
Proof.
  unfold cross_product_trials.
  rewrite (flat_map_constant_length (c := (length s2 * n)%nat)).
  - apply Nat.mul_assoc.
  - intros c1 _. apply flat_map_constant_length.
    intros c2 _. apply repeat_length.
Qed.

Lemma for_each_pair_inr f pairs acc out :
  for_each_pair f pairs acc = inr out ->
  exists cfgs, out = acc ++ cfgs /\
    Forall2 (fun odor_pair cfg => f odor_pair = inr cfg) pairs cfgs.
Proof.
  revert acc. induction pairs as [| pr pairs IH]; simpl; intros acc H.
  - apply ok_inr in H. subst. exists []. rewrite app_nil_r.
    split; [reflexivity | constructor].
  - inv_result. destruct (IH _ H) as (cfgs & -> & Hall).
    exists (a :: cfgs). rewrite <- app_assoc. split; [reflexivity |].
    constructor; assumption.
Qed.

(** ** One pair *)

Lemma odor_name2log10_concs_get n1 n2 (r1 r2 : list value) :
  n1 <> n2 ->
  let dict := dict_of_list String.eqb [(n1, r1); (n2, r2)] in
  dict_get String.eqb dict n1 = Some r1 /\ dict_get String.eqb dict n2 = Some r2.
Proof.
  intros Hne. unfold dict_of_list. simpl.
  assert (E : String.eqb n2 n1 = false).
  { apply String.eqb_neq. intros ->. apply Hne. reflexivity. }
  rewrite E. simpl. rewrite E, !String.eqb_refl.
  split; reflexivity.
Qed.

Lemma assign_group_inr dict acc n pool concs out :
  dict_get String.eqb dict n = Some concs ->
  assign_group dict acc n pool = inr out ->
  out = (fst acc ++ group_vials n concs, snd acc ++ group_pins n concs pool)
  /\ (n <> "CO2" -> (length concs + 1 <= length pool)%nat).
Proof.
  unfold assign_group, group_vials, group_pins. intros Hget H.
  destruct (String.eqb n "CO2") eqn:E.
  - apply ok_inr in H. subst out. rewrite !app_nil_r.
    split; [destruct acc; reflexivity |].
    apply String.eqb_eq in E. intros Hn. contradiction.
  - rewrite Hget in H. simpl in H. inv_result. subst.
    rewrite length_map. split; [reflexivity |].
    intros _. apply Nat.leb_le. assumption.
Qed.

Lemma co2_block_inr d dict n1 n2 base p2o comp :
  co2_block d dict [n1; n2] base = inr (p2o, comp) ->
  (n1 <> "CO2" /\ n2 <> "CO2" /\ p2o = base /\ comp = None)
  \/ ((n1 = "CO2" \/ n2 = "CO2") /\
      exists c pin x,
        dict_get String.eqb dict "CO2" = Some [c] /\
        co2_pin d = Some pin /\
        last_item (available_group2_valve_pins d) = inr x /\
        comp = Some x /\
        p2o = dict_set Z.eqb (dict_set Z.eqb base pin (vial "CO2" c)) x
                air_for_co2_compensation).
Proof.
  unfold co2_block. simpl. intros H.
  destruct (String.eqb "CO2" n1) eqn:E1; [| destruct (String.eqb "CO2" n2) eqn:E2];
    simpl in H.
  3: { left. apply ok_inr in H. inversion H; subst.
       apply String.eqb_neq in E1, E2.
       repeat split; auto. }
  all: right; split;
    [ first [ left; symmetry; apply String.eqb_eq; assumption
            | right; symmetry; apply String.eqb_eq; assumption ] |].
  all: inv_result; inversion H; subst.
  all: destruct a as [| c [| c' rest]]; try discriminate.
  all: simpl in Ha1; inversion Ha1; subst.
  all: exists a1, a2, a3; repeat split; assumption.
Qed.

Lemma make_pair_config_with_inr gvt d sm o1 o2 cfg :
  make_pair_config_with gvt d sm (o1, o2) = inr cfg ->
  let n1 := name o1 in
  let n2 := name o2 in
  let r1 := log10_concentrations o1 in
  let r2 := log10_concentrations o2 in
  let g1 := available_group1_valve_pins d in
  let g2 := available_group2_valve_pins d in
  let dict := dict_of_list String.eqb [(n1, r1); (n2, r2)] in
  let base :=
    dict_of_list Z.eqb
      (combine (group_pins n1 r1 g1 ++ group_pins n2 r2 g2)
               (group_vials n1 r1 ++ group_vials n2 r2)) in
  n1 <> n2 /\
  (n1 <> "CO2" -> (length r1 + 1 <= length g1)%nat) /\
  (n2 <> "CO2" -> (length r2 + 1 <= length g2)%nat) /\
  exists comp s1 s2,
    co2_block d dict [n1; n2] base = inr (pins2odors cfg, comp) /\
    sorted r1 = inr s1 /\ sorted r2 = inr s2 /\
    let vials2pins :=
      dict_of_list items_eqb
        (map (fun po => (snd po, fst po)) (pins2odors cfg)) in
    let f := trial_pins d sm gvt vials2pins n1 n2 comp in
    pinlist_at_each_trial cfg
    = cross_product_trials (fun c1 c2 => pins_or_nil (f c1 c2))
        (Z.to_nat (n_repeats d)) s1 s2 /\
    Forall (fun c1 => Forall (fun c2 => exists pins, f c1 c2 = inr pins) s2) s1.
Proof.
  intros H n1 n2 r1 r2 g1 g2 dict base.
  unfold make_pair_config_with, get_odor_name, get_odor_concs in H.
  fold n1 n2 r1 r2 g1 g2 in H. fold dict in H.
  apply bind_inr in H. destruct H as (u & Hne & H).
  apply assert_inr in Hne. apply negb_true_iff, String.eqb_neq in Hne.
  destruct (odor_name2log10_concs_get n1 n2 r1 r2 Hne) as (Hg1 & Hg2).
  fold dict in Hg1, Hg2.
  apply bind_inr in H. destruct H as ([vials pins] & Hassign & H).
  simpl in Hassign.
  apply bind_inr in Hassign. destruct Hassign as (acc1 & Ha1 & Hassign).
  apply bind_inr in Hassign. destruct Hassign as (acc2 & Ha2 & Hassign).
  apply ok_inr in Hassign. subst acc2.
  destruct (assign_group_inr _ _ _ _ _ _ Hg1 Ha1) as (-> & Hlen1).
  destruct (assign_group_inr _ _ _ _ _ _ Hg2 Ha2) as (Hvp & Hlen2).
  simpl in Hvp. inversion Hvp; subst vials pins. clear Hvp.
  apply bind_inr in H. destruct H as (u' & _ & H).
  apply bind_inr in H. destruct H as ([p2o comp] & Hco2 & H).
  fold base in Hco2.
  rewrite Hg1, Hg2 in H. cbn [of_option bind ok] in H.
  apply bind_inr in H. destruct H as (s1 & Hs1 & H).
  apply bind_inr in H. destruct H as (s2 & Hs2 & H).
  apply bind_inr in H. destruct H as (pinlist & Hloop & H).
  apply ok_inr in H. subst cfg. simpl.
  destruct (outer_loop_inr _ _ _ _ _ _ Hloop) as (-> & Hall).
  repeat split; try assumption.
  exists comp, s1, s2. repeat split; assumption.
Qed.

(** ** The pin-to-odor map and its inverse *)

Lemma group_vials_is_vial n r : Forall is_vial (group_vials n r).
Proof.
  unfold group_vials. destruct (String.eqb n "CO2"); [constructor |].
  apply Forall_forall. intros o Hin. apply in_map_iff in Hin.
  destruct Hin as (c & <- & _). exists n, c. reflexivity.
Qed.

Lemma dict_set_wf p2o pin o :
  pins2odors_wf p2o -> is_vial o -> pins2odors_wf (dict_set Z.eqb p2o pin o).
Proof.
  intros (Hnd & Hv) Ho. split.
  - apply (dict_set_NoDup Z.eqb (fun _ => True) Z.eqb_refl Z_eqb_eq_on);
      [apply Forall_True | exact I | exact Hnd].
  - unfold dict_values. apply Forall_forall. intros o' Hin.
    apply in_map_iff in Hin. destruct Hin as ([k v] & <- & Hin). simpl.
    apply (dict_set_In Z.eqb (fun _ => True) Z_eqb_eq_on) in Hin;
      [| apply Forall_True | exact I].
    destruct Hin as [(_ & ->) | Hin]; [exact Ho |].
    rewrite Forall_forall in Hv. apply Hv.
    apply (in_map snd) in Hin. exact Hin.
Qed.

Lemma dict_of_list_wf pins vials :
  Forall is_vial vials ->
  pins2odors_wf (dict_of_list Z.eqb (combine pins vials)).
Proof.
  intros Hv.
  destruct (dict_of_list_inv Z.eqb (fun _ => True) Z.eqb_refl Z_eqb_eq_on
              (combine pins vials) (Forall_True _)) as (_ & Hnd & Hin).
  split; [exact Hnd |].
  unfold dict_values. apply Forall_forall. intros o Ho.
  apply in_map_iff in Ho. destruct Ho as ([k v] & <- & Hkv). simpl.
  apply Hin, in_combine_r in Hkv.
  rewrite Forall_forall in Hv. apply Hv. exact Hkv.
Qed.

Lemma co2_block_wf d dict n1 n2 base p2o comp :
  pins2odors_wf base ->
  co2_block d dict [n1; n2] base = inr (p2o, comp) ->
  pins2odors_wf p2o.
Proof.
  intros Hwf H. apply co2_block_inr in H.
  destruct H as [(_ & _ & -> & _) | (_ & c & pin & x & _ & _ & _ & _ & ->)].
  - exact Hwf.
  - apply dict_set_wf; [apply dict_set_wf |].
    + exact Hwf.
    + exists "CO2", c. reflexivity.
    + exists "air for co2 compensation", (VInt 0). reflexivity.
Qed.

(** The pin found for a key of the inverted map is a pin of the map,
    whose vial is equal to that key. *)
Lemma vials2pins_entry p2o key p :
  pins2odors_wf p2o ->
  dict_get items_eqb (vials2pins_of p2o) key = Some p ->
  exists o, dict_get Z.eqb p2o p = Some o /\ items_eqb key o = true.
Proof.
  intros (Hnd & Hv) Hget.
  apply dict_get_In in Hget. destruct Hget as (o' & Ho' & Heq).
  apply (dict_of_list_entry items_eqb items_eqb_refl) in Ho'.
  destruct Ho' as (o & Ho & Heq').
  apply in_map_iff in Ho. destruct Ho as ([k v] & Hkv & Hin).
  simpl in Hkv. inversion Hkv; subst.
  exists o. split.
  - apply pin_dict_get_of_In; assumption.
  - apply items_eqb_trans with o'; [exact Heq |].
    apply items_eqb_sym. exact Heq'.
Qed.

(** Looking a vial up in the inverted map gives a pin that the map gives
    to a vial of the same name and an equal concentration. *)
Lemma vials2pins_get p2o n c p :
  pins2odors_wf p2o ->
  dict_get items_eqb (vials2pins_of p2o) (vial n c) = Some p ->
  exists c', value_eqb c c' = true /\ dict_get Z.eqb p2o p = Some (vial n c').
Proof.
  intros Hwf Hget.
  destruct (vials2pins_entry _ _ _ Hwf Hget) as (o & Ho & Heq).
  assert (Hov : is_vial o).
  { destruct Hwf as (_ & Hv). rewrite Forall_forall in Hv. apply Hv.
    apply In_of_dict_get in Ho. apply (in_map snd) in Ho. exact Ho. }
  destruct Hov as (n' & c' & ->).
  apply items_eqb_vial in Heq. destruct Heq as (<- & Hc).
  exists c'. split; assumption.
Qed.

(** Every vial of the map is a key of the inverted map. *)
Lemma vials2pins_present p2o p o :
  In (p, o) p2o ->
  exists p', dict_get items_eqb (vials2pins_of p2o) o = Some p'.
Proof.
  intros Hin. unfold vials2pins_of.
  apply (dict_of_list_found items_eqb items_eqb_refl).
  rewrite map_map. simpl. apply (in_map snd) in Hin. exact Hin.
Qed.

Lemma make_pair_config_wf gvt d sm o1 o2 cfg :
  make_pair_config_with gvt d sm (o1, o2) = inr cfg ->
  pins2odors_wf (pins2odors cfg).
Proof.
  intros H.
  destruct (make_pair_config_with_inr _ _ _ _ _ _ H)
    as (_ & _ & _ & comp & s1 & s2 & Hco2 & _).
  eapply co2_block_wf; [| exact Hco2].
  apply dict_of_list_wf, Forall_app.
  split; apply group_vials_is_vial.
Qed.

(** The vials of the first-pins assignment are those of the two ramps. *)
Lemma first_pins_values n1 n2 r1 r2 pins p o :
  In (p, o) (dict_of_list Z.eqb
               (combine pins (group_vials n1 r1 ++ group_vials n2 r2))) ->
  (exists c, In c r1 /\ o = vial n1 c) \/ (exists c, In c r2 /\ o = vial n2 c).
Proof.
  intros Hin. apply pin_dict_of_list_In, in_combine_r in Hin.
  apply in_app_or in Hin. unfold group_vials in Hin.
  destruct Hin as [Hin | Hin]; [left | right].
  - destruct (String.eqb n1 "CO2"); [destruct Hin |].
    apply in_map_iff in Hin. destruct Hin as (c & <- & Hc).
    exists c. split; [exact Hc | reflexivity].
  - destruct (String.eqb n2 "CO2"); [destruct Hin |].
    apply in_map_iff in Hin. destruct Hin as (c & <- & Hc).
    exists c. split; [exact Hc | reflexivity].
Qed.

Lemma in_cross_product_trials pins_of n s1 s2 pins :
  In pins (cross_product_trials pins_of n s1 s2) ->
  exists c1 c2, In c1 s1 /\ In c2 s2 /\ pins = pins_of c1 c2.
Proof.
  unfold cross_product_trials. intros H.
  apply in_flat_map in H. destruct H as (c1 & H1 & H).
  apply in_flat_map in H. destruct H as (c2 & H2 & H).
  apply repeat_spec in H. exists c1, c2. repeat split; assumption.
Qed.

(** On two manifolds [get_vial_tuple] checks the type of the
    concentration and builds the key of the vial. *)
Lemma get_vial_tuple_dual n c :
  get_vial_tuple false n c
  = (assert (is_concentration c) ;;; ok (vial n c))%result.
Proof. reflexivity. Qed.

Lemma get_vial_tuple_dual_inr n c o :
  get_vial_tuple false n c = inr o -> is_concentration c = true /\ o = vial n c.
Proof.
  rewrite get_vial_tuple_dual. intros H.
  inv_bind H as u Hc. apply assert_inr in Hc. apply ok_inr in H.
  split; [exact Hc | symmetry; exact H].
Qed.

Lemma sorted_pin_set_two p1 p2 :
  (length (sorted_pin_set p1 p2) =? 2)%nat = true ->
  p1 <> p2 /\ sorted_pin_set p1 p2 = [Z.min p1 p2; Z.max p1 p2].
Proof.
  unfold sorted_pin_set.
  destruct (Z.eqb_spec p1 p2); [discriminate |].
  intros _. split; [assumption |].
  destruct (Z.ltb_spec p1 p2).
  - rewrite Z.min_l, Z.max_r by lia. reflexivity.
  - rewrite Z.min_r, Z.max_l by lia. reflexivity.
Qed.

Lemma trial_pins_dual_inr d v2p n1 n2 comp c1 c2 pins :
  trial_pins d false (get_vial_tuple false) v2p n1 n2 comp c1 c2 = inr pins ->
  is_concentration c1 = true /\ is_concentration c2 = true /\
  exists p1 p2,
    dict_get items_eqb v2p (vial n1 c1) = Some p1 /\
    dict_get items_eqb v2p (vial n2 c2) = Some p2 /\
    p1 <> p2 /\
    pins = [Z.min p1 p2; Z.max p1 p2;
            group1_balance_pin d; group2_balance_pin d]
           ++ (if String.eqb "CO2" n1 || String.eqb "CO2" n2
               then match comp with Some x => [x] | None => [] end
               else []).
Proof.
  unfold trial_pins. intros H.
  inv_bind H as o1 Ho1. apply get_vial_tuple_dual_inr in Ho1.
  destruct Ho1 as (Hc1 & ->).
  inv_bind H as o2 Ho2. apply get_vial_tuple_dual_inr in Ho2.
  destruct Ho2 as (Hc2 & ->).
  inv_bind H as p1 Hp1. apply of_option_inr in Hp1.
  inv_bind H as p2 Hp2. apply of_option_inr in Hp2.
  inv_bind H as pins' Hpins. simpl negb in Hpins. cbv iota in Hpins.
  inv_bind Hpins as u Hlen. apply assert_inr in Hlen.
  apply ok_inr in Hpins. subst pins'.
  destruct (sorted_pin_set_two _ _ Hlen) as (Hne & Hs). rewrite Hs in H.
  split; [exact Hc1 |]. split; [exact Hc2 |].
  exists p1, p2. repeat split; try assumption.
  destruct (String.eqb "CO2" n1 || String.eqb "CO2" n2).
  - inv_bind H as x Hx. apply of_option_inr in Hx. apply ok_inr in H.
    subst. reflexivity.
  - apply ok_inr in H. subst. rewrite app_nil_r. reflexivity.
Qed.

(** ** The whole generator *)

Lemma Forall2_In_l {A B} (R : A -> B -> Prop) l l' x :
  Forall2 R l l' -> In x l -> exists y, In y l' /\ R x y.
Proof.
  induction 1 as [| a b l l' HR _ IH]; intros Hin.
  - destruct Hin.
  - destruct Hin as [<- | Hin].
    + exists b. split; [left; reflexivity | exact HR].
    + destruct (IH Hin) as (y & Hy & HRy). exists y. split; [right |]; assumption.
Qed.

Lemma pair_make_config_dict_inr hw d cfgs :
  make_config_dict hw d = inr cfgs ->
  single_manifold hw = false /\
  n_distinct (dict_values (pins2balances hw)) = 2%nat /\
  Forall2 (fun odor_pair cfg => make_pair_config d false odor_pair = inr cfg)
    (odor_pairs d) cfgs.
Proof.
  unfold make_config_dict. intros H. inv_result.
  apply negb_true_iff in Ha. apply Nat.eqb_eq in Ha0.
  rewrite Ha in H.
  destruct (for_each_pair_inr _ _ _ _ H) as (cfgs' & -> & Hall).
  repeat split; assumption.
Qed.





(** C6. The pair scheduler raises, and so returns no configuration, on
    single-manifold hardware, when the number of distinct balance pins is
    not two, when the two odors of a pair have the same name, and when
    the pool of a stream that is not CO2 has fewer than (ramp length + 1)
    pins. *)
Theorem pair_scheduler_fatal_errors hw d :
  single_manifold hw = true \/
  n_distinct (dict_values (pins2balances hw)) <> 2%nat \/
  (exists o1 o2, In (o1, o2) (odor_pairs d) /\
     (name o1 = name o2 \/
      (name o1 <> "CO2" /\
       (length (available_group1_valve_pins d)
        < length (log10_concentrations o1) + 1)%nat) \/
      (name o2 <> "CO2" /\
       (length (available_group2_valve_pins d)
        < length (log10_concentrations o2) + 1)%nat))) ->
  exists e, make_config_dict hw d = inl e.
Proof.
  intros Hbad. apply not_inr_inl. intros cfgs H.
  destruct (pair_make_config_dict_inr _ _ _ H) as (Hsm & Hbal & Hall).
  destruct Hbad as [Hbad | [Hbad | (o1 & o2 & Hin & Hbad)]].
  - congruence.
  - contradiction.
  - destruct (Forall2_In_l _ _ _ _ Hall Hin) as (cfg & _ & Hcfg).
    destruct (make_pair_config_with_inr _ _ _ _ _ _ Hcfg)
      as (Hne & Hlen1 & Hlen2 & _).
    destruct Hbad as [Heq | [(Hn & Hlt) | (Hn & Hlt)]].
    + contradiction.
    + specialize (Hlen1 Hn). lia.
    + specialize (Hlen2 Hn). lia.
Qed.

Lemma pair_scheduler_fatal_errors_witness :
  (exists e, make_config_dict one_manifold xy_data = inl e) /\
  (exists e, make_config_dict one_balance_pin xy_data = inl e) /\
  (exists e, make_config_dict two_manifolds same_name_data = inl e) /\
  (exists e, make_config_dict two_manifolds long_ramp_data = inl e).
Proof.
  repeat split.
  - apply (pair_scheduler_fatal_errors one_manifold xy_data).
    left. reflexivity.
  - apply (pair_scheduler_fatal_errors one_balance_pin xy_data).
    right. left. vm_compute. discriminate.
  - apply (pair_scheduler_fatal_errors two_manifolds same_name_data).
    right. right.
    exists (mk_odor "X" [VInt (-6)]), (mk_odor "X" [VInt (-4)]).
    split; [left; reflexivity | left; reflexivity].
  - apply (pair_scheduler_fatal_errors two_manifolds long_ramp_data).
    right. right.
    exists (mk_odor "X" [VInt (-6)]),
           (mk_odor "Y" [VNone; VInt (-5); VInt (-4)]).
    split; [left; reflexivity |].
    right. right. split; [discriminate | simpl; lia].
Defined.

(** C7. In dual-manifold mode and for a pair without CO2, every trial
    consists of the two distinct pins looked up for the concentrations of
    the two streams, followed by both balance pins: four pins per trial.
    (On streams [X: [-6, -4]], [Y: [-5, -3]] with two repeats this gives
    eight trials of four pins, see the witness.) *)
Theorem dual_manifold_trials_have_four_pins hw d cfgs :
  make_config_dict hw d = inr cfgs ->
  Forall2 (fun odor_pair cfg =>
             name (fst odor_pair) <> "CO2" ->
             name (snd odor_pair) <> "CO2" ->
             Forall (four_pin_trial d odor_pair cfg)
               (pinlist_at_each_trial cfg))
    (odor_pairs d) cfgs.
Proof.
  intros H.
  destruct (pair_make_config_dict_inr _ _ _ H) as (_ & _ & Hall).
  eapply Forall2_impl; [| exact Hall].
  intros [o1 o2] cfg Hcfg Hn1 Hn2. simpl in Hn1, Hn2.
  pose proof (make_pair_config_wf _ _ _ _ _ _ Hcfg) as Hwf.
  destruct (make_pair_config_with_inr _ _ _ _ _ _ Hcfg)
    as (Hne & _ & _ & comp & s1 & s2 & Hblock & _ & _ & Htrials & Hok).
  apply co2_block_inr in Hblock.
  destruct Hblock as [(_ & _ & Hbase & _) | ([E | E] & _)];
    [| contradiction | contradiction].
  apply Forall_forall. intros pins Hin.
  rewrite Htrials in Hin.
  apply in_cross_product_trials in Hin.
  destruct Hin as (c1 & c2 & Hc1 & Hc2 & ->).
  rewrite Forall_forall in Hok. specialize (Hok c1 Hc1).
  rewrite Forall_forall in Hok. destruct (Hok c2 Hc2) as (pins & Hpins).
  rewrite Hpins. simpl pins_or_nil.
  apply trial_pins_dual_inr in Hpins.
  destruct Hpins as (_ & _ & p1 & p2 & Hp1 & Hp2 & Hpne & ->).
  assert (E1 : String.eqb "CO2" (name o1) = false).
  { apply String.eqb_neq. intros E. apply Hn1. symmetry. exact E. }
  assert (E2 : String.eqb "CO2" (name o2) = false).
  { apply String.eqb_neq. intros E. apply Hn2. symmetry. exact E. }
  rewrite E1, E2. simpl.
  destruct (vials2pins_get _ _ _ _ Hwf Hp1) as (c1' & _ & Hg1).
  destruct (vials2pins_get _ _ _ _ Hwf Hp2) as (c2' & _ & Hg2).
  assert (Hr1 : In c1' (log10_concentrations o1)).
  { pose proof (In_of_dict_get _ _ _ Hg1) as Hin. rewrite Hbase in Hin.
    apply first_pins_values in Hin.
    destruct Hin as [(c & Hc & Hv) | (c & Hc & Hv)]; apply vial_inj in Hv;
      destruct Hv as (Hn & ->); [exact Hc | contradiction]. }
  assert (Hr2 : In c2' (log10_concentrations o2)).
  { pose proof (In_of_dict_get _ _ _ Hg2) as Hin. rewrite Hbase in Hin.
    apply first_pins_values in Hin.
    destruct Hin as [(c & Hc & Hv) | (c & Hc & Hv)]; apply vial_inj in Hv;
      destruct Hv as (Hn & ->); [| exact Hc].
    exfalso. apply Hne. symmetry. exact Hn. }
  exists c1', c2', p1, p2. simpl.
  split; [exact Hr1 |]. split; [exact Hr2 |].
  split; [exact Hg1 |]. split; [exact Hg2 |].
  repeat split. exact Hpne.
Qed.

Lemma dual_manifold_trials_have_four_pins_witness :
  make_config_dict two_manifolds xy_data = inr xy_configs /\
  Forall (fun cfg => length (pinlist_at_each_trial cfg) = 8%nat) xy_configs /\
  Forall2 (fun odor_pair cfg =>
             name (fst odor_pair) <> "CO2" ->
             name (snd odor_pair) <> "CO2" ->
             Forall (four_pin_trial xy_data odor_pair cfg)
               (pinlist_at_each_trial cfg))
    (odor_pairs xy_data) xy_configs.
Proof.
  split; [vm_compute; reflexivity |].
  split; [repeat constructor |].
  apply (dual_manifold_trials_have_four_pins two_manifolds xy_data xy_configs).
  vm_compute. reflexivity.
Defined.

(** C8. The pair scheduler is a function of its input alone (its
    embedding threads no random state): the vials of each stream that is
    not CO2 get the first (ramp length) pins of that stream's pool, in
    pool order, and two runs on the same input agree on every pin-to-odor
    map and trial list. *)
Theorem pair_scheduler_is_deterministic hw d cfgs :
  make_config_dict hw d = inr cfgs ->
  Forall2 (first_pins_assignment d) (odor_pairs d) cfgs /\
  (forall r, make_config_dict hw d = r -> r = inr cfgs).
Proof.
  intros H. split.
  - destruct (pair_make_config_dict_inr _ _ _ H) as (_ & _ & Hall).
    eapply Forall2_impl; [| exact Hall].
    intros [o1 o2] cfg Hcfg.
    destruct (make_pair_config_with_inr _ _ _ _ _ _ Hcfg)
      as (_ & _ & _ & comp & s1 & s2 & Hco2 & _).
    apply co2_block_inr in Hco2. unfold first_pins_assignment. simpl.
    destruct Hco2 as [(Hn1 & Hn2 & Hp & _) | (Hn & c & pin & x & _ & Hpin & _ & _ & Hp)].
    + left. repeat split; assumption.
    + right. split; [exact Hn |]. exists c, pin, x. split; assumption.
  - intros r <-. exact H.
Qed.

Lemma pair_scheduler_is_deterministic_witness :
  make_config_dict two_manifolds xy_data = inr xy_configs /\
  Forall2 (first_pins_assignment xy_data) (odor_pairs xy_data) xy_configs /\
  (forall r, make_config_dict two_manifolds xy_data = r -> r = inr xy_configs).
Proof.
  split; [vm_compute; reflexivity |].
  apply (pair_scheduler_is_deterministic two_manifolds xy_data xy_configs).
  vm_compute. reflexivity.
Defined.

(** ** The closure [get_vial_tuple] *)

Lemma inner_loop_ext f g n acc l :
  (forall c, f c = g c) -> inner_loop f n acc l = inner_loop g n acc l.
Proof.
  intros Hfg. revert acc. induction l as [| c l IH]; simpl; intros acc.
  - reflexivity.
  - rewrite Hfg. destruct (g c); simpl; [reflexivity | apply IH].
Qed.

Lemma outer_loop_ext f g n acc l1 l2 :
  (forall c1 c2, f c1 c2 = g c1 c2) ->
  outer_loop f n acc l1 l2 = outer_loop g n acc l1 l2.
Proof.
  intros Hfg. revert acc. induction l1 as [| c l1 IH]; simpl; intros acc.
  - reflexivity.
  - rewrite (inner_loop_ext (f c) (g c)) by (apply Hfg).
    destruct (inner_loop (g c) n acc l2); simpl; [reflexivity | apply IH].
Qed.

Lemma bind_ext {A B} (m : result A) (f g : A -> result B) :
  (forall a, f a = g a) -> bind m f = bind m g.
Proof. intros Hfg. destruct m; simpl; [reflexivity | apply Hfg]. Qed.

Lemma make_pair_config_with_ext gvt gvt' d sm odor_pair :
  (forall n c, gvt n c = gvt' n c) ->
  make_pair_config_with gvt d sm odor_pair
  = make_pair_config_with gvt' d sm odor_pair.
Proof.
  intros Hg. destruct odor_pair as [o1 o2]. unfold make_pair_config_with.
  apply bind_ext. intros _.
  apply bind_ext. intros [vials pins].
  apply bind_ext. intros _.
  apply bind_ext. intros [p2o comp].
  apply bind_ext. intros s1.
  apply bind_ext. intros s2.
  f_equal. apply outer_loop_ext. intros c1 c2.
  unfold trial_pins. rewrite !Hg. reflexivity.
Qed.

Lemma for_each_pair_ext f g pairs acc :
  (forall odor_pair, f odor_pair = g odor_pair) ->
  for_each_pair f pairs acc = for_each_pair g pairs acc.
Proof.
  intros Hfg. revert acc. induction pairs as [| pr pairs IH]; simpl; intros acc.
  - reflexivity.
  - rewrite Hfg. apply bind_ext. intros c. apply IH.
Qed.

(** C10. Inside the pair scheduler the single-manifold branch of
    [get_vial_tuple], which yields the shared solvent identity, is dead:
    single-manifold hardware is rejected before any pair is processed,
    and the generator is the same program as the one whose closure
    has the other branch alone, the one that checks the type of the
    concentration and builds its key from the stream's name and its
    concentration (null included), a key that is never the solvent
    identity. *)
Theorem solvent_identity_branch_is_unreachable hw d :
  (single_manifold hw = true -> make_config_dict hw d = raise AssertionError) /\
  make_config_dict hw d
  = (assert (negb (single_manifold hw)) ;;;
     assert (n_distinct (dict_values (pins2balances hw)) =? 2)%nat ;;;
     for_each_pair
       (make_pair_config_with
          (fun n c => assert (is_int c || is_float c || is_none c) ;;;
                      ok (vial n c)) d false)
       (odor_pairs d) [])%result /\
  (forall n c, vial n c <> [("name", VStr "solvent")]).
Proof.
  split; [| split].
  - intros Hsm. unfold make_config_dict. rewrite Hsm. reflexivity.
  - unfold make_config_dict. destruct (single_manifold hw); [reflexivity |].
    apply bind_ext. intros _. apply bind_ext. intros _.
    apply for_each_pair_ext. intros odor_pair.
    apply make_pair_config_with_ext. apply get_vial_tuple_dual.
  - intros n c. unfold vial. discriminate.
Qed.

Lemma solvent_identity_branch_is_unreachable_witness :
  single_manifold one_manifold = true /\
  make_config_dict one_manifold xy_data = raise AssertionError.
Proof.
  split; [reflexivity |].
  exact (proj1 (solvent_identity_branch_is_unreachable one_manifold xy_data)
           eq_refl).
Defined.

(** ** CO2 as one stream of a pair *)

(** Whichever stream is CO2, the generator maps the CO2 pin to the CO2
    concentration, puts the compensation air on the last pin of the pool
    of group 2, and ends every trial of the pair with that pin. *)
Lemma co2_pair_layout hw d cfgs :
  make_config_dict hw d = inr cfgs ->
  Forall2 (fun odor_pair cfg =>
             name (fst odor_pair) = "CO2" \/ name (snd odor_pair) = "CO2" ->
             exists c pin x,
               co2_pin d = Some pin /\
               last_item (available_group2_valve_pins d) = inr x /\
               pins2odors cfg
               = dict_set Z.eqb
                   (dict_set Z.eqb (first_pins_map d odor_pair) pin
                      (vial "CO2" c))
                   x air_for_co2_compensation /\
               Forall (fun pins =>
                         exists p1 p2,
                           pins = [Z.min p1 p2; Z.max p1 p2;
                                   group1_balance_pin d; group2_balance_pin d;
                                   x])
                 (pinlist_at_each_trial cfg))
    (odor_pairs d) cfgs.
Proof.
  intros H.
  destruct (pair_make_config_dict_inr _ _ _ H) as (_ & _ & Hall).
  eapply Forall2_impl; [| exact Hall].
  intros [o1 o2] cfg Hcfg Hco2. simpl in Hco2.
  destruct (make_pair_config_with_inr _ _ _ _ _ _ Hcfg)
    as (_ & _ & _ & comp & s1 & s2 & Hblock & _ & _ & Htrials & Hok).
  apply co2_block_inr in Hblock.
  destruct Hblock as [(Hn1 & Hn2 & _) | (_ & c & pin & x & _ & Hpin & Hlast & -> & Hp)].
  { destruct Hco2; contradiction. }
  exists c, pin, x. repeat split; try assumption.
  apply Forall_forall. intros pins Hin.
  rewrite Htrials in Hin.
  apply in_cross_product_trials in Hin.
  destruct Hin as (c1 & c2 & Hc1 & Hc2 & ->).
  rewrite Forall_forall in Hok. specialize (Hok c1 Hc1).
  rewrite Forall_forall in Hok. destruct (Hok c2 Hc2) as (pins & Hpins).
  rewrite Hpins. simpl pins_or_nil.
  apply trial_pins_dual_inr in Hpins.
  destruct Hpins as (_ & _ & p1 & p2 & _ & _ & _ & ->).
  assert (E : String.eqb "CO2" (name o1) || String.eqb "CO2" (name o2) = true).
  { apply orb_true_iff.
    destruct Hco2 as [E | E]; rewrite E; [left | right]; apply String.eqb_refl. }
  rewrite E. exists p1, p2. reflexivity.
Qed.

(** C4, at an input where it fails. With CO2 as stream 1 (pool
    [2, 3, 4], CO2 pin 10) and stream 2 on pool [7, 8, 9], the generator
    synthesizes no vial for CO2, maps pin 10 to the CO2 concentration
    and puts the compensation pin in the trial, but the compensation
    vial sits on pin 9, the last pin of the pool of the other stream;
    pin 4, the last pin of the pool of the CO2 stream, is unused. *)
Theorem co2_compensation_pin_with_co2_first :
  exists cfg,
    make_config_dict two_manifolds co2_first_data = inr [cfg] /\
    pins2odors cfg
    = [(7, vial "Y" (VInt (-5))); (10, vial "CO2" (VInt 0));
       (9, air_for_co2_compensation)] /\
    pinlist_at_each_trial cfg = [[7; 10; 5; 6; 9]] /\
    last (available_group1_valve_pins co2_first_data) 0 = 4 /\
    dict_get Z.eqb (pins2odors cfg) 4 = None /\
    last (available_group2_valve_pins co2_first_data) 0 = 9.
Proof.
  eexists. split; [vm_compute; reflexivity |].
  repeat split.
Qed.

End SimplePairsFacts.

(** * The tape-driven random source is lawful *)

Lemma remove_nth_length i l :
  (i < length l)%nat -> length (remove_nth i l) = pred (length l).
Proof.
  revert i. induction l as [| x l IH]; simpl; intros i Hi.
  - lia.
  - destruct i as [| i]; [reflexivity |].
    simpl. rewrite IH by lia. lia.
Qed.

Lemma remove_nth_perm i l :
  (i < length l)%nat -> Permutation (nth i l 0 :: remove_nth i l) l.
Proof.
  revert i. induction l as [| x l IH]; simpl; intros i Hi.
  - lia.
  - destruct i as [| i]; [apply Permutation_refl |].
    simpl. apply perm_trans with (x :: nth i l 0 :: remove_nth i l).
    + apply perm_swap.
    + apply perm_skip. apply IH. lia.
Qed.

Lemma tape_sample_length pop k tape :
  (k <= length pop)%nat -> length (fst (tape_sample pop k tape)) = k.
Proof.
  revert pop tape. induction k as [| k IH]; intros pop tape Hk; simpl.
  - reflexivity.
  - destruct pop as [| x pop]; [simpl in Hk; lia |].
    set (j := (hd O tape mod length (x :: pop))%nat).
    assert (Hj : (j < length (x :: pop))%nat)
      by (apply Nat.mod_upper_bound; discriminate).
    specialize (IH (remove_nth j (x :: pop)) (tl tape)).
    destruct (tape_sample (remove_nth j (x :: pop)) k (tl tape)) as [chosen tape'].
    simpl fst in *. simpl length at 1. f_equal. apply IH.
    rewrite remove_nth_length by exact Hj. simpl in *. lia.
Qed.

Lemma tape_sample_selects pop k tape :
  exists rest, Permutation (fst (tape_sample pop k tape) ++ rest) pop.
Proof.
  revert pop tape. induction k as [| k IH]; intros pop tape; simpl.
  - exists pop. apply Permutation_refl.
  - destruct pop as [| x pop]; [exists []; apply perm_nil |].
    set (j := (hd O tape mod length (x :: pop))%nat).
    assert (Hj : (j < length (x :: pop))%nat)
      by (apply Nat.mod_upper_bound; discriminate).
    destruct (IH (remove_nth j (x :: pop)) (tl tape)) as (rest & Hrest).
    destruct (tape_sample (remove_nth j (x :: pop)) k (tl tape)) as [chosen tape'].
    simpl fst in *. exists rest.
    apply perm_trans with (nth j (x :: pop) 0 :: remove_nth j (x :: pop)).
    + simpl app. apply perm_skip. exact Hrest.
    + apply remove_nth_perm. exact Hj.
Qed.

Lemma tape_random_lawful : RandomLaws tape_random.
Proof.
  constructor; simpl.
  - intros pop k g Hk. apply tape_sample_length. exact Hk.
  - intros pop k g _. apply tape_sample_selects.
  - intros l g.
    destruct (tape_sample_selects l (length l) g) as (rest & Hperm).
    pose proof (Permutation_length Hperm) as Hlen.
    rewrite length_app, tape_sample_length in Hlen by lia.
    destruct rest as [| y rest]; [| simpl in Hlen; lia].
    rewrite app_nil_r in Hperm. exact Hperm.
Qed.

(** * Properties of the panel scheduler *)

Module BasicPlusCo2Facts.
Import BasicPlusCo2.

#[local] Arguments String.eqb : simpl never.

Section Facts.
Context {G : Type} {R : RandomSource G}.
Variable balance_merge : list (Z * Z) -> list Z -> list Z.

#[local] Abbreviation world := (@BasicPlusCo2.world G).
#[local] Abbreviation gen := (@BasicPlusCo2.gen G).

(** ** The state and exception monad *)

Lemma gbind_inr {A B} (m : gen A) (f : A -> gen B) (w w' : world) (b : B) :
  gbind m f w = (inr b, w') ->
  exists a w1, m w = (inr a, w1) /\ f a w1 = (inr b, w').
Proof.
  unfold gbind. destruct (m w) as [[e | a] w1]; intros H.
  - discriminate.
  - exists a, w1. split; [reflexivity | exact H].
Qed.

Lemma lift_inr {A} (r : result A) (w w' : world) (a : A) :
  lift r w = (inr a, w') -> r = inr a /\ w' = w.
Proof. unfold lift. intros H. inversion H. split; reflexivity. Qed.

Lemma ret_inr {A} (a b : A) (w w' : world) :
  ret a w = (inr b, w') -> a = b /\ w' = w.
Proof. unfold ret. intros H. inversion H. split; reflexivity. Qed.

Lemma gbind_inl {A B} (m : gen A) (f : A -> gen B) (w w' : world) e :
  m w = (inl e, w') -> gbind m f w = (inl e, w').
Proof. unfold gbind. intros ->. reflexivity. Qed.

Lemma gbind_step {A B} (m : gen A) (f : A -> gen B) (w w1 : world) a :
  m w = (inr a, w1) -> gbind m f w = f a w1.
Proof. unfold gbind. intros ->. reflexivity. Qed.

(** ** Resolving the two optional keys *)

Lemma resolve_n_repeats_inr d rand (w w' : world) n :
  resolve_n_repeats d rand w = (inr n, w') ->
  n = n_repeats_of d /\
  (n_repeats d = None -> w' = w) /\
  (truthy rand = false -> w' = w) /\
  rng w' = rng w /\
  exists ws, warnings w' = warnings w ++ ws.
Proof.
  unfold resolve_n_repeats, n_repeats_of.
  destruct (n_repeats d) as [n0 |].
  - destruct (truthy rand); unfold gbind, warn, ret; simpl; intros H;
      inversion H; subst; repeat split; try reflexivity; try discriminate.
    + exists [only_randomizes_across_odors]. reflexivity.
    + exists []. rewrite app_nil_r. reflexivity.
  - unfold ret. intros H. inversion H; subst.
    repeat split; try reflexivity.
    exists []. rewrite app_nil_r. reflexivity.
Qed.

Lemma resolve_randomize_inr d odors (w w' : world) rand :
  resolve_randomize_presentation_order d odors w = (inr rand, w') ->
  rng w' = rng w /\
  match randomize_presentation_order d with
  | Some v => in_true_false v = true /\ rand = v /\ w' = w
  | None =>
      ((1 < length odors)%nat /\ rand = VBool true /\
       w' = mk_world (rng w) (warnings w ++ [defaulting_to_randomize]))
      \/ (length odors = 1%nat /\ rand = VBool false /\ w' = w)
  end.
Proof.
  unfold resolve_randomize_presentation_order.
  destruct (randomize_presentation_order d) as [v |].
  - unfold gbind, lift, ret, assert.
    destruct (in_true_false v); intros H; inversion H; subst.
    repeat split; reflexivity.
  - destruct (Nat.ltb_spec 1 (length odors)) as [Hlt | Hge].
    + unfold gbind, warn, ret. intros H. inversion H; subst.
      split; [reflexivity |]. left. repeat split. assumption.
    + unfold gbind, lift, ret, assert.
      destruct (Nat.eqb_spec (length odors) 1) as [Hone | Hone]; intros H;
        inversion H; subst.
      split; [reflexivity |]. right. repeat split. assumption.
Qed.

(** ** Selecting the CO2 entries *)

Lemma name_is_co2_inr o b : name_is_co2 o = inr b -> b = is_co2 o.
Proof.
  unfold name_is_co2, is_co2.
  destruct (dict_get String.eqb o "name"); simpl; intros H.
  - inversion H. reflexivity.
  - discriminate.
Qed.

Lemma filter_co2_inr {A} (descr : A -> items) l r :
  filter_co2 descr l = inr r -> r = filter (fun x => is_co2 (descr x)) l.
Proof.
  revert r. induction l as [| x l IH]; simpl; intros r H.
  - apply ok_inr in H. symmetry. exact H.
  - inv_bind H as b Hb. inv_bind H as rest Hrest. apply ok_inr in H.
    apply name_is_co2_inr in Hb. rewrite (IH _ Hrest) in H.
    rewrite <- Hb. symmetry. exact H.
Qed.

(** ** CO2 rewiring *)

Lemma co2_rewiring_inr d odors p2o pl p2o' pl' :
  co2_rewiring d odors p2o pl = inr (p2o', pl') ->
  (filter is_co2 odors = [] /\ p2o' = p2o /\ pl' = pl)
  \/ exists co2_odor curr pin,
       filter is_co2 odors = [co2_odor] /\
       map fst (filter (fun po => is_co2 (snd po)) p2o) = [curr] /\
       co2_pin d = Some pin /\
       p2o' = dict_set Z.eqb
                (dict_set Z.eqb p2o curr air_for_co2_mixture_compensation)
                pin co2_odor /\
       Forall (fun trial => ~ In pin trial) pl /\
       pl' = map (rewire curr pin) pl.
Proof.
  unfold co2_rewiring. intros H.
  inv_bind H as co2_odors Hf. apply filter_co2_inr in Hf.
  change (filter (fun o => is_co2 o) odors) with (filter is_co2 odors) in Hf.
  destruct co2_odors as [| co2_odor rest].
  { left. simpl in H. apply ok_inr in H. inversion H; subst.
    repeat split. symmetry. exact Hf. }
  right. simpl Nat.ltb in H. cbv iota in H.
  inv_bind H as u Hpin. apply assert_inr in Hpin.
  destruct rest as [| o2 rest]; [| simpl in H; discriminate].
  simpl Nat.ltb in H. cbv iota in H.
  inv_bind H as o Ho. simpl in Ho. apply ok_inr in Ho. subst o.
  inv_bind H as entries He. apply filter_co2_inr in He.
  inv_bind H as u1 Hone. apply assert_inr in Hone.
  inv_bind H as curr Hcurr. apply of_option_inr in Hcurr.
  inv_bind H as pin Hp. apply of_option_inr in Hp.
  inv_bind H as u2 Hnot. apply assert_inr in Hnot.
  apply ok_inr in H. inversion H; subst p2o' pl'. clear H.
  exists co2_odor, curr, pin.
  split; [symmetry; exact Hf |].
  split.
  { subst entries.
    destruct (map fst (filter (fun po => is_co2 (snd po)) p2o))
      as [| c [| c' l]]; try discriminate.
    simpl in Hcurr. inversion Hcurr. reflexivity. }
  split; [exact Hp |].
  split; [reflexivity |].
  split; [| reflexivity].
  apply negb_true_iff in Hnot. apply Forall_forall. intros trial Hin Hmem.
  assert (E : existsb (fun pl0 => existsb (Z.eqb pin) pl0) pl = true).
  { apply existsb_exists. exists trial. split; [exact Hin |].
    apply existsb_exists. exists pin. split; [exact Hmem | apply Z.eqb_refl]. }
  congruence.
Qed.

(** ** One run *)

Lemma sample_inr pop k (w w' : world) l :
  sample pop k w = (inr l, w') ->
  l = fst (random_sample pop k (rng w)) /\
  w' = mk_world (snd (random_sample pop k (rng w))) (warnings w).
Proof.
  unfold sample. destruct (random_sample pop k (rng w)) as [l0 g].
  intros H. inversion H. split; reflexivity.
Qed.

Lemma trial_pins_inr rand odor_pins (w w' : world) trial_pins :
  (if truthy rand then shuffle odor_pins else ret odor_pins) w
  = (inr trial_pins, w') ->
  (truthy rand = false /\ trial_pins = odor_pins /\ w' = w)
  \/ (truthy rand = true /\
      trial_pins = fst (random_shuffle odor_pins (rng w)) /\
      warnings w' = warnings w).
Proof.
  destruct (truthy rand).
  - unfold shuffle. destruct (random_shuffle odor_pins (rng w)) as [l g].
    intros H. inversion H. right. repeat split.
  - intros H. apply ret_inr in H. destruct H as (<- & ->).
    left. repeat split.
Qed.

Lemma panel_make_config_dict_inr hw d (w w' : world) cfg :
  make_config_dict balance_merge hw d w = (inr cfg, w') ->
  let odor_pins := sampled_pins hw d w in
  forallb has_name (odors d) = true /\
  (length (odors d) <= length (available_valve_pins hw))%nat /\
  exists rand trial_pins w0 w1 w2,
    rng w0 = snd (random_sample (available_valve_pins hw)
                    (length (odors d)) (rng w)) /\
    warnings w0 = warnings w /\
    resolve_randomize_presentation_order d (odors d) w0 = (inr rand, w1) /\
    resolve_n_repeats d rand w1 = (inr (n_repeats_of d), w2) /\
    (if truthy rand then shuffle odor_pins else ret odor_pins) w2
    = (inr trial_pins, w') /\
    co2_rewiring d (odors d)
      (dict_of_list Z.eqb (combine odor_pins (odors d)))
      (add_balance_pins balance_merge
         (expand_repeats trial_pins (n_repeats_of d)) (pins2balances hw))
    = inr (pins2odors cfg, pinlist_at_each_trial cfg).
Proof.
  intros H odor_pins. unfold make_config_dict in H.
  apply gbind_inr in H. destruct H as (u & wa & Hnames & H).
  apply lift_inr in Hnames. destruct Hnames as (Hnames & ->).
  apply assert_inr in Hnames.
  apply gbind_inr in H. destruct H as (u' & wa & Hlen & H).
  apply lift_inr in Hlen. destruct Hlen as (Hlen & ->).
  apply assert_inr, Nat.leb_le in Hlen.
  apply gbind_inr in H. destruct H as (pins & w0 & Hs & H).
  apply sample_inr in Hs. destruct Hs as (Hpins & Hw0).
  fold (sampled_pins hw d w) in Hpins. fold odor_pins in Hpins. subst pins.
  apply gbind_inr in H. destruct H as (rand & w1 & Hrand & H).
  apply gbind_inr in H. destruct H as (n & w2 & Hn & H).
  pose proof (resolve_n_repeats_inr _ _ _ _ _ Hn) as (-> & _).
  apply gbind_inr in H. destruct H as (trial_pins & w3 & Htp & H).
  apply gbind_inr in H. destruct H as ([p2o pl] & w4 & Hco2 & H).
  apply lift_inr in Hco2. destruct Hco2 as (Hco2 & ->).
  apply ret_inr in H. destruct H as (<- & ->). simpl.
  split; [exact Hnames |]. split; [exact Hlen |].
  exists rand, trial_pins, w0, w1, w2.
  subst w0. simpl. repeat split; assumption.
Qed.

Lemma map_expand (g : list Z -> list Z) trial_pins n :
  map g (expand_repeats trial_pins n)
  = flat_map (fun p => repeat (g [p]) (Z.to_nat n)) trial_pins.
Proof.
  unfold expand_repeats. induction trial_pins as [| p l IH]; simpl.
  - reflexivity.
  - rewrite map_app, IH, map_repeat. reflexivity.
Qed.

(** ** The run, step by step *)

Lemma resolve_randomize_eq d (w : world) :
  flag_ok d ->
  resolve_randomize_presentation_order d (odors d) w
  = (inr (flag_of d),
     mk_world (rng w)
       (warnings w
        ++ match randomize_presentation_order d with
           | Some _ => []
           | None => if (1 <? length (odors d))%nat
                     then [defaulting_to_randomize] else []
           end)).
Proof.
  unfold flag_ok, flag_of, resolve_randomize_presentation_order.
  destruct w as [g ws]. simpl.
  destruct (randomize_presentation_order d) as [v |].
  - intros Hv. unfold gbind, lift, ret. rewrite Hv. simpl.
    rewrite app_nil_r. reflexivity.
  - intros Hlen. destruct (Nat.ltb_spec 1 (length (odors d))) as [Hlt | Hge].
    + reflexivity.
    + assert (E : (length (odors d) =? 1)%nat = true)
        by (apply Nat.eqb_eq; lia).
      unfold gbind, lift, ret. rewrite E. simpl.
      rewrite app_nil_r. reflexivity.
Qed.

Lemma resolve_randomize_inl d (w w' : world) e :
  resolve_randomize_presentation_order d (odors d) w = (inl e, w') ->
  e = AssertionError /\ w' = w /\ ~ flag_ok d.
Proof.
  unfold flag_ok, resolve_randomize_presentation_order.
  destruct (randomize_presentation_order d) as [v |].
  - unfold gbind, lift, ret.
    destruct (in_true_false v); simpl; intros H; inversion H.
    repeat split. discriminate.
  - destruct (Nat.ltb_spec 1 (length (odors d))) as [Hlt | Hge].
    + unfold gbind, warn, ret. simpl. discriminate.
    + unfold gbind, lift, ret.
      destruct (Nat.eqb_spec (length (odors d)) 1) as [E | E]; simpl;
        intros H; inversion H.
      repeat split. lia.
Qed.

Lemma resolve_n_repeats_eq d rand (w : world) :
  resolve_n_repeats d rand w
  = (inr (n_repeats_of d),
     mk_world (rng w)
       (warnings w
        ++ match n_repeats d with
           | Some _ => if truthy rand then [only_randomizes_across_odors]
                       else []
           | None => []
           end)).
Proof.
  unfold resolve_n_repeats, n_repeats_of. destruct w as [g ws]. simpl.
  destruct (n_repeats d) as [n |].
  - destruct (truthy rand); unfold gbind, warn, ret; simpl;
      [| rewrite app_nil_r]; reflexivity.
  - unfold ret. rewrite app_nil_r. reflexivity.
Qed.

Lemma order_eq rand pins (w : world) :
  (if truthy rand then shuffle pins else ret pins) w
  = (inr (fst (if truthy rand then random_shuffle pins (rng w)
               else (pins, rng w))),
     mk_world (snd (if truthy rand then random_shuffle pins (rng w)
                    else (pins, rng w)))
       (warnings w)).
Proof.
  destruct (truthy rand).
  - unfold shuffle. destruct (random_shuffle pins (rng w)); reflexivity.
  - unfold ret. destruct w; reflexivity.
Qed.

(** A run that passes the checks on the names, the pool and the flag ends
    in the CO2 rewiring; its state then holds the generator after the draw
    and the shuffle, and the warnings of the two optional keys. *)
Lemma panel_run_eq hw d (w : world) :
  forallb has_name (odors d) = true ->
  (length (odors d) <= length (available_valve_pins hw))%nat ->
  flag_ok d ->
  make_config_dict balance_merge hw d w
  = (match co2_rewiring d (odors d)
             (dict_of_list Z.eqb (combine (sampled_pins hw d w) (odors d)))
             (add_balance_pins balance_merge
                (expand_repeats (fst (presentation_order hw d w))
                   (n_repeats_of d))
                (pins2balances hw)) with
     | inl e => inl e
     | inr r => inr (mk_config (fst r) (snd r))
     end,
     mk_world (snd (presentation_order hw d w))
       (warnings w ++ warnings_of d)).
Proof.
  intros Hnames Hlen Hflag. unfold make_config_dict.
  unfold gbind at 1. unfold lift at 1. rewrite Hnames. simpl assert.
  unfold gbind at 1. unfold lift at 1.
  apply Nat.leb_le in Hlen. rewrite Hlen. simpl assert.
  unfold gbind at 1. unfold sample at 1.
  unfold presentation_order, sampled_pins, rng_after_sample, warnings_of.
  destruct (random_sample (available_valve_pins hw) (length (odors d)) (rng w))
    as [pins g1].
  unfold gbind at 1. rewrite (resolve_randomize_eq d _ Hflag).
  unfold gbind at 1. rewrite resolve_n_repeats_eq.
  unfold gbind at 1. rewrite order_eq.
  cbn [rng warnings fst snd].
  unfold gbind, lift, ret. rewrite <- app_assoc.
  destruct (co2_rewiring d (odors d) _ _); reflexivity.
Qed.

(** ** The CO2 rewiring, case by case *)

Lemma name_is_co2_ok o : has_name o = true -> name_is_co2 o = inr (is_co2 o).
Proof.
  unfold has_name, name_is_co2, is_co2.
  destruct (dict_get String.eqb o "name"); [reflexivity | discriminate].
Qed.

Lemma filter_co2_ok {A} (descr : A -> items) l :
  Forall (fun x => has_name (descr x) = true) l ->
  filter_co2 descr l = inr (filter (fun x => is_co2 (descr x)) l).
Proof.
  induction 1 as [| x l Hx _ IH]; simpl.
  - reflexivity.
  - rewrite (name_is_co2_ok _ Hx). simpl. rewrite IH. simpl.
    destruct (is_co2 (descr x)); reflexivity.
Qed.

Lemma forallb_has_name l :
  forallb has_name l = true -> Forall (fun o => has_name o = true) l.
Proof. intros H. apply Forall_forall. apply forallb_forall. exact H. Qed.

Lemma pins2odors_named pins odors :
  forallb has_name odors = true ->
  Forall (fun po : Z * items => has_name (snd po) = true)
    (dict_of_list Z.eqb (combine pins odors)).
Proof.
  intros Hnames. apply Forall_forall. intros [k o] Hin. simpl.
  destruct (dict_of_list_inv Z.eqb (fun _ => True) Z.eqb_refl Z_eqb_eq_on
              (combine pins odors) (Forall_True _)) as (_ & _ & Hsub).
  apply Hsub, in_combine_r in Hin.
  rewrite forallb_forall in Hnames. apply Hnames. exact Hin.
Qed.

Lemma co2_rewiring_eq d odors p2o pl :
  forallb has_name odors = true ->
  Forall (fun po : Z * items => has_name (snd po) = true) p2o ->
  co2_rewiring d odors p2o pl
  = match filter is_co2 odors with
    | [] => inr (p2o, pl)
    | co2_odor :: more =>
        match co2_pin d with
        | None => inl AssertionError
        | Some pin =>
            match more with
            | _ :: _ => inl NotImplementedError
            | [] =>
                match map fst (filter (fun po => is_co2 (snd po)) p2o) with
                | [curr] =>
                    if existsb (fun trial => existsb (Z.eqb pin) trial) pl
                    then inl AssertionError
                    else inr (dict_set Z.eqb
                                (dict_set Z.eqb p2o curr
                                   air_for_co2_mixture_compensation)
                                pin co2_odor,
                              map (rewire curr pin) pl)
                | _ => inl AssertionError
                end
            end
        end
    end.
Proof.
  intros Hnames Hvals. unfold co2_rewiring.
  rewrite (filter_co2_ok (fun o => o) odors (forallb_has_name _ Hnames)).
  simpl bind.
  change (filter (fun x => is_co2 x) odors) with (filter is_co2 odors).
  destruct (filter is_co2 odors) as [| co2_odor more]; [reflexivity |].
  simpl Nat.ltb. cbv iota.
  destruct (co2_pin d) as [pin |]; [| reflexivity].
  simpl bind.
  destruct more as [| o more]; [| reflexivity].
  simpl Nat.ltb. cbv iota. simpl bind.
  rewrite (filter_co2_ok snd p2o Hvals). simpl bind.
  destruct (map fst (filter (fun po => is_co2 (snd po)) p2o))
    as [| curr [| c' l]]; try reflexivity.
  simpl.
  destruct (existsb (fun trial => existsb (Z.eqb pin) trial) pl); reflexivity.
Qed.

Hypothesis laws : RandomLaws R.

Lemma sampled_pins_length hw d (w : world) :
  (length (odors d) <= length (available_valve_pins hw))%nat ->
  length (sampled_pins hw d w) = length (odors d).
Proof. intros H. apply (sample_length R laws). exact H. Qed.

Lemma trial_pins_perm rand odor_pins (w w' : world) trial_pins :
  (if truthy rand then shuffle odor_pins else ret odor_pins) w
  = (inr trial_pins, w') ->
  Permutation trial_pins odor_pins.
Proof.
  intros H. apply trial_pins_inr in H.
  destruct H as [(_ & -> & _) | (_ & -> & _)].
  - apply Permutation_refl.
  - apply (shuffle_permutes R laws).
Qed.

(** The trial list of a run: for each odor pin, in the order fixed
    before the repeats are expanded, [n_repeats] copies of one trial. *)
Lemma panel_trials_inr hw d (w w' : world) cfg :
  make_config_dict balance_merge hw d w = (inr cfg, w') ->
  exists trial_pins trial_of g,
    (trial_pins = sampled_pins hw d w \/
     trial_pins = fst (random_shuffle (sampled_pins hw d w) g)) /\
    Permutation trial_pins (sampled_pins hw d w) /\
    length trial_pins = length (odors d) /\
    (forall p,
        trial_of p = balance_merge (pins2balances hw) [p] \/
        exists pin,
          trial_of p = balance_merge (pins2balances hw) [p] ++ [pin]) /\
    pinlist_at_each_trial cfg
    = flat_map (fun p => repeat (trial_of p) (Z.to_nat (n_repeats_of d)))
        trial_pins.
Proof.
  intros H.
  destruct (panel_make_config_dict_inr _ _ _ _ _ H)
    as (_ & Hlen & rand & trial_pins & w0 & w1 & w2
        & _ & _ & _ & _ & Htp & Hco2).
  pose proof (trial_pins_perm _ _ _ _ _ Htp) as Hperm.
  assert (Hcount : length trial_pins = length (odors d)).
  { rewrite (Permutation_length Hperm). apply sampled_pins_length. exact Hlen. }
  assert (Horder : trial_pins = sampled_pins hw d w \/
                   trial_pins = fst (random_shuffle (sampled_pins hw d w) (rng w2))).
  { apply trial_pins_inr in Htp.
    destruct Htp as [(_ & -> & _) | (_ & -> & _)]; [left | right]; reflexivity. }
  apply co2_rewiring_inr in Hco2. unfold add_balance_pins in Hco2.
  destruct Hco2 as [(_ & _ & Hpl)
                   | (co2_odor & curr & pin & _ & _ & _ & _ & _ & Hpl)].
  - exists trial_pins, (fun p => balance_merge (pins2balances hw) [p]), (rng w2).
    rewrite Hpl, map_expand.
    repeat split; try assumption.
    intros p. left. reflexivity.
  - exists trial_pins,
           (fun p => rewire curr pin (balance_merge (pins2balances hw) [p])),
           (rng w2).
    rewrite Hpl, map_map,
      (map_expand (fun pl => rewire curr pin
                               (balance_merge (pins2balances hw) pl))).
    repeat split; try assumption.
    intros p. unfold rewire.
    destruct (existsb (Z.eqb curr) (balance_merge (pins2balances hw) [p]));
      [right; exists pin | left]; reflexivity.
Qed.

Lemma panel_trials_length hw d (w w' : world) cfg :
  make_config_dict balance_merge hw d w = (inr cfg, w') ->
  length (pinlist_at_each_trial cfg)
  = (length (odors d) * Z.to_nat (n_repeats_of d))%nat.
Proof.
  intros H.
  destruct (panel_trials_inr _ _ _ _ _ H)
    as (trial_pins & trial_of & g & _ & _ & Hcount & _ & ->).
  rewrite (flat_map_constant_length (c := Z.to_nat (n_repeats_of d)))
    by (intros; apply repeat_length).
  rewrite Hcount. reflexivity.
Qed.

(** A successful run passed the three checks and ended in the CO2
    rewiring of the map drawn and of the trials in presentation order. *)
Lemma panel_run_inr hw d (w w' : world) cfg :
  make_config_dict balance_merge hw d w = (inr cfg, w') ->
  forallb has_name (odors d) = true /\
  (length (odors d) <= length (available_valve_pins hw))%nat /\
  flag_ok d /\
  w' = mk_world (snd (presentation_order hw d w))
         (warnings w ++ warnings_of d) /\
  co2_rewiring d (odors d)
    (dict_of_list Z.eqb (combine (sampled_pins hw d w) (odors d)))
    (trials_before_rewiring balance_merge hw d w)
  = inr (pins2odors cfg, pinlist_at_each_trial cfg).
Proof.
  intros H.
  destruct (panel_make_config_dict_inr _ _ _ _ _ H)
    as (Hnames & Hlen & rand & tp & w0 & w1 & w2 & _ & _ & Hr & _).
  assert (Hflag : flag_ok d).
  { apply resolve_randomize_inr in Hr. destruct Hr as (_ & Hr).
    unfold flag_ok. destruct (randomize_presentation_order d).
    - destruct Hr as (E & _). exact E.
    - destruct Hr as [(E & _) | (E & _)]; lia. }
  rewrite (panel_run_eq hw d w Hnames Hlen Hflag) in H.
  fold (trials_before_rewiring balance_merge hw d w) in H.
  split; [exact Hnames |]. split; [exact Hlen |]. split; [exact Hflag |].
  destruct (co2_rewiring d (odors d) _ _) as [e | [p2o pl]]; [discriminate |].
  inversion H; subst. split; reflexivity.
Qed.

Lemma presentation_order_perm hw d (w : world) :
  Permutation (fst (presentation_order hw d w)) (sampled_pins hw d w).
Proof.
  unfold presentation_order. destruct (truthy (flag_of d)).
  - apply (shuffle_permutes R laws).
  - apply Permutation_refl.
Qed.

(** C2. A panel run that succeeds on [N] odors emits [N * n_repeats]
    trials. The [N] odor pins are put in presentation order before the
    repeats are expanded: the order drawn, to which one shuffle is
    applied when the flag is true, the last use of [random] in the run.
    The trial list is, for each odor pin in that order, [n_repeats]
    consecutive copies of the one trial built from that single pin: the
    repeats of an odor are never interleaved with those of another. *)
Theorem panel_trials_are_grouped_by_odor hw d (w w' : world) cfg :
  make_config_dict balance_merge hw d w = (inr cfg, w') ->
  0 <= n_repeats_of d ->
  grouped_by_odor balance_merge hw d w cfg /\
  rng w' = snd (presentation_order hw d w) /\
  Permutation (fst (presentation_order hw d w)) (sampled_pins hw d w) /\
  length (fst (presentation_order hw d w)) = length (odors d) /\
  Z.of_nat (length (pinlist_at_each_trial cfg))
  = Z.of_nat (length (odors d)) * n_repeats_of d.
Proof.
  intros H Hn.
  destruct (panel_run_inr _ _ _ _ _ H) as (_ & Hlen & _ & Hw & Hco2).
  split; [| split; [| split; [| split]]].
  - unfold grouped_by_odor.
    apply co2_rewiring_inr in Hco2.
    unfold trials_before_rewiring, add_balance_pins in Hco2.
    destruct Hco2 as [(_ & _ & Hpl)
                     | (co2_odor & curr & pin & _ & _ & Hpin & _ & _ & Hpl)].
    + exists (fun p => balance_merge (pins2balances hw) [p]).
      split; [intros p; left; reflexivity |].
      rewrite Hpl. apply map_expand.
    + exists (fun p => rewire curr pin (balance_merge (pins2balances hw) [p])).
      split.
      * intros p. unfold rewire.
        destruct (existsb (Z.eqb curr) (balance_merge (pins2balances hw) [p]));
          [right; exists pin; split; [exact Hpin | reflexivity]
          | left; reflexivity].
      * rewrite Hpl, map_map.
        apply (map_expand (fun pl => rewire curr pin
                                       (balance_merge (pins2balances hw) pl))).
  - rewrite Hw. reflexivity.
  - apply presentation_order_perm.
  - rewrite (Permutation_length (presentation_order_perm hw d w)).
    apply sampled_pins_length. exact Hlen.
  - rewrite (panel_trials_length _ _ _ _ _ H).
    rewrite Nat2Z.inj_mul, Z2Nat.id by exact Hn. reflexivity.
Qed.

(** ** The pin-to-odor map of a run *)

Lemma map_fst_combine {A B} (l : list A) (l' : list B) :
  length l = length l' -> map fst (combine l l') = l.
Proof.
  revert l'. induction l as [| x l IH]; intros [| y l'] Hlen; simpl in *;
    try reflexivity; try discriminate.
  f_equal. apply IH. lia.
Qed.

Lemma sampled_pins_NoDup hw d (w : world) :
  (length (odors d) <= length (available_valve_pins hw))%nat ->
  NoDup (available_valve_pins hw) ->
  NoDup (sampled_pins hw d w) /\
  incl (sampled_pins hw d w) (available_valve_pins hw).
Proof.
  intros Hlen Hnd.
  destruct (sample_selects R laws (available_valve_pins hw)
              (length (odors d)) (rng w) Hlen) as (rest & Hperm).
  fold (sampled_pins hw d w) in Hperm. split.
  - apply Permutation_sym in Hperm.
    apply (Permutation_NoDup Hperm) in Hnd.
    apply NoDup_app_remove_r in Hnd. exact Hnd.
  - intros x Hx. apply (Permutation_in x Hperm).
    apply in_or_app. left. exact Hx.
Qed.




(** ** The presentation-order flag *)

Lemma in_true_false_iff v :
  in_true_false v = true
  <-> v = VBool true \/ v = VBool false \/ v = VInt 1 \/ v = VInt 0.
Proof.
  unfold in_true_false. split.
  - destruct v as [| [|] | z | s0]; simpl; intros H; try discriminate; auto.
    apply orb_true_iff in H. destruct H as [H | H]; apply Z.eqb_eq in H;
      subst; auto.
  - intros [-> | [-> | [-> | ->]]]; reflexivity.
Qed.

(** C5, amended. If [randomize_presentation_order] is present it must
    be equal, in Python's sense, to [True] or to [False] (a boolean, or
    the number 1 or 0), anything else being fatal, and it is used as
    given. If it is absent and there is more than one odor, it defaults
    to [True] and a warning is emitted; if it is absent and there is
    exactly one odor, it defaults to [False], no warning is emitted,
    and with the default [n_repeats] the run produces exactly one
    trial. *)
Theorem randomize_presentation_order_resolution hw d (w : world) :
  (forall v, randomize_presentation_order d = Some v ->
     resolve_randomize_presentation_order d (odors d) w
     = (if in_true_false v then inr v else inl AssertionError, w)) /\
  (forall v, in_true_false v = true
             <-> v = VBool true \/ v = VBool false \/ v = VInt 1 \/ v = VInt 0) /\
  (forall v, randomize_presentation_order d = Some v ->
     in_true_false v = false ->
     exists e, fst (make_config_dict balance_merge hw d w) = inl e) /\
  (randomize_presentation_order d = None ->
   (1 < length (odors d))%nat ->
   resolve_randomize_presentation_order d (odors d) w
   = (inr (VBool true),
      mk_world (rng w) (warnings w ++ [defaulting_to_randomize])) /\
   forall cfg w',
     make_config_dict balance_merge hw d w = (inr cfg, w') ->
     exists ws, warnings w' = warnings w ++ defaulting_to_randomize :: ws) /\
  (randomize_presentation_order d = None ->
   length (odors d) = 1%nat ->
   resolve_randomize_presentation_order d (odors d) w = (inr (VBool false), w) /\
   forall cfg w',
     make_config_dict balance_merge hw d w = (inr cfg, w') ->
     warnings w' = warnings w /\
     (n_repeats d = None -> length (pinlist_at_each_trial cfg) = 1%nat)).
Proof.
  split; [| split; [| split; [| split]]].
  - intros v Hv. unfold resolve_randomize_presentation_order. rewrite Hv.
    unfold gbind, lift, ret, assert. destruct (in_true_false v); reflexivity.
  - apply in_true_false_iff.
  - intros v Hv Hbad.
    destruct (make_config_dict balance_merge hw d w) as [[e | cfg] w'] eqn:E.
    + exists e. reflexivity.
    + exfalso.
      destruct (panel_make_config_dict_inr _ _ _ _ _ E)
        as (_ & _ & rand & tp & w0 & w1 & w2 & _ & _ & Hr & _).
      apply resolve_randomize_inr in Hr. rewrite Hv in Hr.
      destruct Hr as (_ & Hok & _). congruence.
  - intros Habs Hmany. split.
    + unfold resolve_randomize_presentation_order. rewrite Habs.
      apply Nat.ltb_lt in Hmany. rewrite Hmany. reflexivity.
    + intros cfg w' E.
      destruct (panel_make_config_dict_inr _ _ _ _ _ E)
        as (_ & _ & rand & tp & w0 & w1 & w2 & _ & Hw0 & Hr & Hn & Htp & _).
      apply resolve_randomize_inr in Hr. rewrite Habs in Hr.
      destruct Hr as (_ & [(_ & _ & Hw1) | (Hone & _)]); [| lia].
      apply resolve_n_repeats_inr in Hn.
      destruct Hn as (_ & _ & _ & _ & ws & Hws).
      apply trial_pins_inr in Htp.
      assert (Hw' : warnings w' = warnings w2)
        by (destruct Htp as [(_ & _ & ->) | (_ & _ & ->)]; reflexivity).
      exists ws. rewrite Hw', Hws, Hw1. simpl. rewrite Hw0, <- app_assoc.
      reflexivity.
  - intros Habs Hone. split.
    + unfold resolve_randomize_presentation_order. rewrite Habs, Hone.
      reflexivity.
    + intros cfg w' E. split.
      * destruct (panel_make_config_dict_inr _ _ _ _ _ E)
          as (_ & _ & rand & tp & w0 & w1 & w2 & _ & Hw0 & Hr & Hn & Htp & _).
        apply resolve_randomize_inr in Hr. rewrite Habs in Hr.
        destruct Hr as (_ & [(Hmany & _) | (_ & -> & ->)]); [lia |].
        apply resolve_n_repeats_inr in Hn.
        destruct Hn as (_ & _ & Hsame & _). rewrite (Hsame eq_refl) in Htp.
        apply trial_pins_inr in Htp.
        destruct Htp as [(_ & _ & ->) | (Ht & _)]; [exact Hw0 | discriminate].
      * intros Hn. rewrite (panel_trials_length _ _ _ _ _ E).
        unfold n_repeats_of. rewrite Hn, Hone. reflexivity.
Qed.

(** C9, amended. On an empty odors list: without
    [randomize_presentation_order] the run fails, on the assertion that
    there is exactly one odor; with the flag supplied as a value the
    check accepts the run succeeds and returns an empty pin-to-odor map
    and an empty trial list; with the flag supplied as any other value
    the run fails, on the check of the flag. *)
Theorem empty_panel hw d (w : world) :
  odors d = [] ->
  (randomize_presentation_order d = None ->
   fst (make_config_dict balance_merge hw d w) = inl AssertionError) /\
  (forall v, randomize_presentation_order d = Some v ->
     in_true_false v = true ->
     exists w', make_config_dict balance_merge hw d w
                = (inr (mk_config [] []), w')) /\
  (forall v, randomize_presentation_order d = Some v ->
     in_true_false v = false ->
     fst (make_config_dict balance_merge hw d w) = inl AssertionError).
Proof.
  intros Hempty.
  assert (Hs : fst (random_sample (available_valve_pins hw) 0 (rng w)) = []).
  { apply length_zero_iff_nil. apply (sample_length R laws). simpl. lia. }
  split; [| split].
  - intros Habs. unfold make_config_dict.
    rewrite Hempty. simpl forallb. simpl length.
    unfold gbind at 1. simpl. unfold gbind at 1. simpl.
    unfold gbind at 1. unfold sample.
    destruct (random_sample (available_valve_pins hw) 0 (rng w)) as [l g].
    unfold gbind at 1. unfold resolve_randomize_presentation_order.
    rewrite Habs. reflexivity.
  - intros v Hv Hok. unfold make_config_dict.
    rewrite Hempty. simpl forallb. simpl length.
    unfold gbind at 1. simpl. unfold gbind at 1. simpl.
    unfold gbind at 1. unfold sample.
    destruct (random_sample (available_valve_pins hw) 0 (rng w)) as [l g].
    simpl in Hs. subst l.
    unfold gbind at 1. unfold resolve_randomize_presentation_order.
    rewrite Hv. unfold gbind at 1. unfold lift at 1. rewrite Hok. simpl.
    unfold ret at 1.
    assert (Hn : exists ws, resolve_n_repeats d v (mk_world g (warnings w))
                            = (inr (n_repeats_of d), mk_world g ws)).
    { unfold resolve_n_repeats, n_repeats_of.
      destruct (n_repeats d); [| eexists; reflexivity].
      destruct (truthy v); eexists; reflexivity. }
    destruct Hn as (ws & Hn). rewrite (gbind_step _ _ _ _ _ Hn).
    assert (Ht : exists g', (if truthy v then shuffle [] else ret [])
                              (mk_world g ws) = (inr [], mk_world g' ws)).
    { destruct (truthy v).
      - unfold shuffle. simpl.
        pose proof (shuffle_permutes R laws [] g) as Hp.
        destruct (random_shuffle [] g) as [l g'].
        simpl in Hp. apply Permutation_sym, Permutation_nil in Hp. subst l.
        exists g'. reflexivity.
      - exists g. reflexivity. }
    destruct Ht as (g' & Ht). rewrite (gbind_step _ _ _ _ _ Ht).
    eexists. reflexivity.
  - intros v Hv Hbad. unfold make_config_dict.
    rewrite Hempty. simpl forallb. simpl length.
    unfold gbind at 1. simpl. unfold gbind at 1. simpl.
    unfold gbind at 1. unfold sample.
    destruct (random_sample (available_valve_pins hw) 0 (rng w)) as [l g].
    unfold gbind at 1. unfold resolve_randomize_presentation_order.
    rewrite Hv. unfold gbind at 1. unfold lift at 1. rewrite Hbad.
    reflexivity.
Qed.

End Facts.

(** ** Runs on the tape-driven source *)

Lemma panel_trials_are_grouped_by_odor_witness :
  make_config_dict append_balances single_manifold_pins shuffled_data
    (start [0; 0; 0; 2; 0; 0]%nat)
  = (inr shuffled_config, mk_world [] [only_randomizes_across_odors]) /\
  0 <= n_repeats_of shuffled_data /\
  sampled_pins single_manifold_pins shuffled_data
    (start [0; 0; 0; 2; 0; 0]%nat) = [2; 3; 4] /\
  fst (presentation_order single_manifold_pins shuffled_data
         (start [0; 0; 0; 2; 0; 0]%nat)) = [4; 2; 3] /\
  grouped_by_odor append_balances single_manifold_pins shuffled_data
    (start [0; 0; 0; 2; 0; 0]%nat) shuffled_config /\
  Z.of_nat (length (pinlist_at_each_trial shuffled_config))
  = Z.of_nat (length (odors shuffled_data)) * n_repeats_of shuffled_data.
Proof.
  split; [vm_compute; reflexivity |].
  split; [vm_compute; discriminate |].
  split; [vm_compute; reflexivity |].
  split; [vm_compute; reflexivity |].
  destruct (panel_trials_are_grouped_by_odor append_balances tape_random_lawful
              single_manifold_pins shuffled_data
              (start [0; 0; 0; 2; 0; 0]%nat)
              (mk_world [] [only_randomizes_across_odors]) shuffled_config)
    as (Hgrouped & _ & _ & _ & Hcount).
  - vm_compute. reflexivity.
  - vm_compute. discriminate.
  - split; [exact Hgrouped | exact Hcount].
Defined.



(** C5, as stated, fails: a flag that is not a boolean, the number 1, is
    accepted, and the run succeeds. *)
Lemma number_accepted_as_randomize_presentation_order :
  ~ (forall d (w : world (G := list nat)) v,
        randomize_presentation_order d = Some v ->
        (forall b, v <> VBool b) ->
        exists e, fst (make_config_dict append_balances single_manifold_pins
                         d w) = inl e).
Proof.
  intros Hfatal.
  destruct (Hfatal numeric_flag_data (start [0; 0]%nat) (VInt 1) eq_refl)
    as (e & He).
  - intros b. discriminate.
  - vm_compute in He. discriminate.
Qed.

Lemma randomize_presentation_order_resolution_witness :
  randomize_presentation_order single_data = None /\
  length (odors single_data) = 1%nat /\
  make_config_dict append_balances single_manifold_pins single_data
    (start [1]%nat) = (inr single_config, start []) /\
  warnings (start []) = warnings (start [1]%nat) /\
  length (pinlist_at_each_trial single_config) = 1%nat.
Proof.
  destruct (randomize_presentation_order_resolution append_balances
              tape_random_lawful single_manifold_pins single_data
              (start [1]%nat)) as (_ & _ & _ & _ & Hsingle).
  destruct (Hsingle eq_refl eq_refl) as (_ & Hrun).
  assert (E : make_config_dict append_balances single_manifold_pins
                single_data (start [1]%nat) = (inr single_config, start []))
    by (vm_compute; reflexivity).
  destruct (Hrun single_config (start []) E) as (Hw & Hone).
  split; [reflexivity |]. split; [reflexivity |]. split; [exact E |].
  split; [exact Hw | exact (Hone eq_refl)].
Defined.

Lemma empty_panel_witness :
  odors (empty_data None) = [] /\
  fst (make_config_dict append_balances single_manifold_pins
         (empty_data None) (start [])) = inl AssertionError /\
  (exists w', make_config_dict append_balances single_manifold_pins
                (empty_data (Some (VBool true))) (start [])
              = (inr (mk_config [] []), w')) /\
  fst (make_config_dict append_balances single_manifold_pins
         (empty_data (Some (VStr "yes"))) (start [])) = inl AssertionError.
Proof.
  split; [reflexivity |].
  split; [| split].
  - apply (empty_panel append_balances tape_random_lawful
             single_manifold_pins (empty_data None) (start []) eq_refl).
    reflexivity.
  - apply (empty_panel append_balances tape_random_lawful
             single_manifold_pins (empty_data (Some (VBool true))) (start [])
             eq_refl) with (v := VBool true); reflexivity.
  - apply (empty_panel append_balances tape_random_lawful
             single_manifold_pins (empty_data (Some (VStr "yes"))) (start [])
             eq_refl) with (v := VStr "yes"); reflexivity.
Defined.

(** C9, as stated, fails: on an empty odors list a flag that is supplied
    but is not one of the values the check accepts, here a text, does not
    make the run succeed. *)
Lemma empty_panel_with_rejected_flag :
  ~ (forall d (w : world (G := list nat)) v,
        odors d = [] ->
        randomize_presentation_order d = Some v ->
        exists w', make_config_dict append_balances single_manifold_pins d w
                   = (inr (mk_config [] []), w')).
Proof.
  intros Hclaim.
  destruct (Hclaim (empty_data (Some (VStr "yes"))) (start []) (VStr "yes")
              eq_refl eq_refl) as (w' & Hrun).
  vm_compute in Hrun. discriminate.
Qed.

End BasicPlusCo2Facts.

(** * Further properties of the pair scheduler *)

Module SimplePairsExtra.
Import SimplePairs SimplePairsFacts.

#[local] Arguments String.eqb : simpl never.

(** ** The reverse lookup *)

(** X1. In every configuration the pair scheduler returns, the reverse
    lookup inverts the pin-to-odor map up to Python's equality of keys:
    the pin found for a vial is a pin the map gives to a vial of the same
    name and an equal concentration, every vial of the map is found, and
    when no two pins carry equal vials the pin found is the vial's
    own. *)
Theorem vials2pins_inverts_pins2odors hw d cfgs :
  make_config_dict hw d = inr cfgs ->
  Forall (fun cfg =>
            (forall n c p,
                dict_get items_eqb (vials2pins_of (pins2odors cfg)) (vial n c)
                = Some p ->
                exists c',
                  value_eqb c c' = true /\
                  dict_get Z.eqb (pins2odors cfg) p = Some (vial n c')) /\
            (forall p o,
                dict_get Z.eqb (pins2odors cfg) p = Some o ->
                exists p' o',
                  dict_get items_eqb (vials2pins_of (pins2odors cfg)) o
                  = Some p' /\
                  dict_get Z.eqb (pins2odors cfg) p' = Some o' /\
                  items_eqb o o' = true /\
                  (distinct_vials (pins2odors cfg) -> p' = p)))
    cfgs.
Proof.
  intros H.
  destruct (pair_make_config_dict_inr _ _ _ H) as (_ & _ & Hall).
  apply Forall_forall. intros cfg Hcfg.
  assert (Hwf : pins2odors_wf (pins2odors cfg)).
  { clear H. induction Hall as [| [o1 o2] c l l' Hc _ IH]; [destruct Hcfg |].
    destruct Hcfg as [<- | Hcfg]; [| apply IH; exact Hcfg].
    eapply make_pair_config_wf. exact Hc. }
  split.
  - intros n c p Hget. apply vials2pins_get; assumption.
  - intros p o Hget. apply In_of_dict_get in Hget.
    destruct (vials2pins_present _ _ _ Hget) as (p' & Hp').
    destruct (vials2pins_entry _ _ _ Hwf Hp') as (o' & Ho' & Heq).
    exists p', o'. repeat split; try assumption.
    intros Hdistinct. apply In_of_dict_get in Ho'.
    symmetry. eapply Hdistinct; eassumption.
Qed.

Lemma vials2pins_inverts_pins2odors_witness :
  make_config_dict two_manifolds xy_data = inr xy_configs /\
  exists c',
    value_eqb (VInt (-5)) c' = true /\
    dict_get Z.eqb
      [(2, vial "X" (VInt (-6))); (3, vial "X" (VInt (-4)));
       (7, vial "Y" (VInt (-5))); (8, vial "Y" (VInt (-3)))] 7
    = Some (vial "Y" c').
Proof.
  split; [vm_compute; reflexivity |].
  pose proof (vials2pins_inverts_pins2odors two_manifolds xy_data xy_configs)
    as H.
  assert (E : make_config_dict two_manifolds xy_data = inr xy_configs)
    by (vm_compute; reflexivity).
  specialize (H E). inversion H as [| cfg l (Hinv & _) _]; subst.
  apply (Hinv "Y" (VInt (-5)) 7). vm_compute. reflexivity.
Defined.

(** ** The body of the loops cannot fail on a wired pair *)

Lemma lookups_differ p2o n1 n2 c1 c2 q1 q2 :
  pins2odors_wf p2o -> n1 <> n2 ->
  dict_get items_eqb (vials2pins_of p2o) (vial n1 c1) = Some q1 ->
  dict_get items_eqb (vials2pins_of p2o) (vial n2 c2) = Some q2 ->
  q1 <> q2.
Proof.
  intros Hwf Hne Hq1 Hq2 ->.
  destruct (vials2pins_get _ _ _ _ Hwf Hq1) as (c1' & _ & E1).
  destruct (vials2pins_get _ _ _ _ Hwf Hq2) as (c2' & _ & E2).
  assert (E : vial n1 c1' = vial n2 c2') by congruence.
  apply vial_inj in E. destruct E as (E & _). contradiction.
Qed.

Lemma trial_pins_ok d p2o n1 n2 comp c1 c2 p1 p2 :
  pins2odors_wf p2o -> n1 <> n2 ->
  is_concentration c1 = true -> is_concentration c2 = true ->
  In (p1, vial n1 c1) p2o -> In (p2, vial n2 c2) p2o ->
  (String.eqb "CO2" n1 || String.eqb "CO2" n2 = true -> comp <> None) ->
  exists pins,
    trial_pins d false (get_vial_tuple false) (vials2pins_of p2o) n1 n2 comp
      c1 c2 = inr pins.
Proof.
  intros Hwf Hne Hc1 Hc2 Hin1 Hin2 Hcomp.
  destruct (vials2pins_present _ _ _ Hin1) as (q1 & Hq1).
  destruct (vials2pins_present _ _ _ Hin2) as (q2 & Hq2).
  pose proof (lookups_differ _ _ _ _ _ _ _ Hwf Hne Hq1 Hq2) as Hq.
  unfold trial_pins. rewrite !get_vial_tuple_dual, Hc1, Hc2. simpl bind.
  rewrite Hq1, Hq2. simpl bind. simpl negb. cbv iota.
  assert (Hlen : (length (sorted_pin_set q1 q2) =? 2)%nat = true).
  { unfold sorted_pin_set. destruct (Z.eqb_spec q1 q2); [contradiction |].
    destruct (q1 <? q2); reflexivity. }
  rewrite Hlen. simpl bind.
  destruct (String.eqb "CO2" n1 || String.eqb "CO2" n2).
  - destruct comp as [x |]; [| exfalso; apply Hcomp; reflexivity].
    simpl. eexists. reflexivity.
  - eexists. reflexivity.
Qed.

(** [sorted] returns on a ramp of numbers and nulls. *)
Lemma concentration_key c :
  is_concentration c = true ->
  exists x, as_number (conc_sort_key c) = Some x.
Proof.
  destruct c; try discriminate; intros _; simpl; eexists; reflexivity.
Qed.

Lemma insert_by_key_ok c l :
  is_concentration c = true ->
  Forall (fun c => is_concentration c = true) l ->
  exists s, insert_by_key c l = inr s.
Proof.
  intros Hc Hl. induction Hl as [| d l Hd _ IH]; simpl.
  - eexists. reflexivity.
  - destruct (concentration_key _ Hc) as (x & Hx).
    destruct (concentration_key _ Hd) as (y & Hy).
    unfold value_ltb. rewrite Hx, Hy. simpl bind.
    destruct (float_ltb y x); [| eexists; reflexivity].
    destruct IH as (s & ->). eexists. reflexivity.
Qed.

Lemma sorted_ok l :
  Forall (fun c => is_concentration c = true) l ->
  exists s, sorted l = inr s.
Proof.
  induction 1 as [| c l Hc Hl IH]; simpl.
  - eexists. reflexivity.
  - destruct IH as (s & Hs). rewrite Hs. simpl bind.
    apply insert_by_key_ok; [exact Hc |].
    apply sorted_inr in Hs. destruct Hs as (Hperm & _).
    apply Permutation_sym in Hperm.
    exact (Permutation_Forall Hperm Hl).
Qed.

(** ** A wired pair is scheduled *)

Lemma inner_loop_ok f n acc l :
  Forall (fun c2 => exists pins, f c2 = inr pins) l ->
  exists out, inner_loop f n acc l = inr out.
Proof.
  intros Hall. revert acc. induction Hall as [| c l (pins & Hc) _ IH]; intros acc.
  - exists acc. reflexivity.
  - simpl. rewrite Hc. simpl. apply IH.
Qed.

Lemma outer_loop_ok f n acc l1 l2 :
  Forall (fun c1 => Forall (fun c2 => exists pins, f c1 c2 = inr pins) l2) l1 ->
  exists out, outer_loop f n acc l1 l2 = inr out.
Proof.
  intros Hall. revert acc. induction Hall as [| c l Hc _ IH]; intros acc.
  - exists acc. reflexivity.
  - simpl. destruct (inner_loop_ok (f c) n acc l2 Hc) as (out & ->).
    simpl. apply IH.
Qed.

Lemma for_each_pair_ok f pairs acc :
  Forall (fun odor_pair => exists cfg, f odor_pair = inr cfg) pairs ->
  exists out, for_each_pair f pairs acc = inr out.
Proof.
  intros Hall. revert acc. induction Hall as [| pr l (cfg & Hc) _ IH]; intros acc.
  - exists acc. reflexivity.
  - simpl. rewrite Hc. simpl. apply IH.
Qed.

Lemma NoDup_app_disjoint {A} (l1 l2 : list A) x :
  NoDup (l1 ++ l2) -> In x l1 -> In x l2 -> False.
Proof.
  induction l1 as [| a l1 IH]; simpl; intros Hnd H1 H2.
  - destruct H1.
  - inversion Hnd; subst. destruct H1 as [-> | H1].
    + apply H3. apply in_or_app. right. exact H2.
    + apply IH; assumption.
Qed.

Lemma In_firstn {A} n (l : list A) x : In x (firstn n l) -> In x l.
Proof.
  intros H. rewrite <- (firstn_skipn n l). apply in_or_app. left. exact H.
Qed.

Lemma NoDup_firstn {A} n (l : list A) : NoDup l -> NoDup (firstn n l).
Proof.
  intros H. rewrite <- (firstn_skipn n l) in H.
  apply NoDup_app_remove_r in H. exact H.
Qed.

Lemma NoDup_firstn_app {A} a b (l1 l2 : list A) :
  NoDup (l1 ++ l2) -> NoDup (firstn a l1 ++ firstn b l2).
Proof.
  intros H. apply NoDup_app.
  - apply NoDup_firstn. apply NoDup_app_remove_r in H. exact H.
  - apply NoDup_firstn. apply NoDup_app_remove_l in H. exact H.
  - intros x H1 H2. apply (NoDup_app_disjoint l1 l2 x H).
    + apply In_firstn in H1. exact H1.
    + apply In_firstn in H2. exact H2.
Qed.

Lemma last_cons (l : list Z) a b : last (b :: l) a = last l b.
Proof.
  revert a b. induction l as [| c l IH]; intros a b.
  - reflexivity.
  - change (last (b :: c :: l) a) with (last (c :: l) a).
    rewrite (IH a c), (IH b c). reflexivity.
Qed.

Lemma last_item_In l x : last_item l = inr x -> In x l.
Proof.
  destruct l as [| a l]; simpl; intros H; [discriminate |].
  apply ok_inr in H. subst x. revert a.
  induction l as [| b l IH]; intros a.
  - left. reflexivity.
  - rewrite last_cons. right. apply IH.
Qed.

Lemma last_item_ok l : l <> [] -> exists x, last_item l = inr x.
Proof.
  destruct l as [| a l]; intros H; [contradiction |].
  eexists. reflexivity.
Qed.

Lemma last_item_not_in_firstn l n x :
  NoDup l -> (n < length l)%nat -> last_item l = inr x -> ~ In x (firstn n l).
Proof.
  revert n. induction l as [| a l IH]; intros n Hnd Hn Hlast.
  - discriminate.
  - destruct n as [| n]; [intros [] |].
    inversion Hnd; subst. simpl in Hn.
    destruct l as [| b l]; [simpl in Hn; lia |].
    assert (Hl : last_item (b :: l) = inr x).
    { simpl in Hlast. simpl. rewrite <- Hlast. f_equal.
      symmetry. apply (last_cons l a b). }
    simpl firstn. intros [<- | Hin].
    + apply H1. apply last_item_In. exact Hl.
    + apply (IH n H2); [simpl in Hn |- *; lia | exact Hl | exact Hin].
Qed.

Lemma in_combine_of_r {A B} (l : list A) (l' : list B) y :
  length l = length l' -> In y l' -> exists x, In (x, y) (combine l l').
Proof.
  revert l'. induction l as [| a l IH]; intros [| b l'] Hlen Hin;
    simpl in *; try discriminate; try contradiction.
  destruct Hin as [<- | Hin].
  - exists a. left. reflexivity.
  - destruct (IH l' (eq_add_S _ _ Hlen) Hin) as (x & Hx).
    exists x. right. exact Hx.
Qed.

Lemma group_lengths n r g :
  (n <> "CO2" -> (length r + 1 <= length g)%nat) ->
  length (group_pins n r g) = length (group_vials n r).
Proof.
  unfold group_pins, group_vials. intros H.
  destruct (String.eqb n "CO2") eqn:E; [reflexivity |].
  apply String.eqb_neq in E. specialize (H E).
  rewrite length_map, firstn_length_le by lia. reflexivity.
Qed.

Lemma assign_group_ok dict acc n pool concs :
  dict_get String.eqb dict n = Some concs ->
  (n <> "CO2" -> (length concs + 1 <= length pool)%nat) ->
  assign_group dict acc n pool
  = inr (fst acc ++ group_vials n concs, snd acc ++ group_pins n concs pool).
Proof.
  unfold assign_group, group_vials, group_pins. intros Hget Hlen.
  destruct (String.eqb n "CO2") eqn:E.
  - rewrite !app_nil_r. destruct acc; reflexivity.
  - apply String.eqb_neq in E. specialize (Hlen E).
    rewrite Hget. simpl bind.
    assert (Hle : (length concs + 1 <=? length pool)%nat = true)
      by (apply Nat.leb_le; exact Hlen).
    rewrite Hle. simpl. rewrite length_map. reflexivity.
Qed.

Lemma bind_ok_eq {A B} (m : result A) (a : A) (f : A -> result B) :
  m = inr a -> bind m f = f a.
Proof. intros ->. reflexivity. Qed.

Lemma assert_true b : b = true -> assert b = inr tt.
Proof. intros ->. reflexivity. Qed.

Lemma co2_block_ok d dict n1 n2 base c pin x :
  dict_get String.eqb dict "CO2" = Some [c] ->
  co2_pin d = Some pin ->
  last_item (available_group2_valve_pins d) = inr x ->
  n1 = "CO2" \/ n2 = "CO2" ->
  co2_block d dict [n1; n2] base
  = inr (dict_set Z.eqb (dict_set Z.eqb base pin (vial "CO2" c)) x
           air_for_co2_compensation, Some x).
Proof.
  intros Hget Hpin Hlast Hco2. unfold co2_block.
  assert (E : existsb (String.eqb "CO2") [n1; n2] = true).
  { apply existsb_exists. destruct Hco2 as [-> | ->].
    - exists "CO2"%string. split; [left; reflexivity | apply String.eqb_refl].
    - exists "CO2"%string.
      split; [right; left; reflexivity | apply String.eqb_refl]. }
  rewrite E, Hget, Hpin, Hlast. reflexivity.
Qed.

Lemma co2_block_none d dict n1 n2 base :
  n1 <> "CO2" -> n2 <> "CO2" ->
  co2_block d dict [n1; n2] base = inr (base, None).
Proof.
  intros H1 H2. unfold co2_block.
  assert (E : existsb (String.eqb "CO2") [n1; n2] = false).
  { cbn [existsb].
    assert (E1 : String.eqb "CO2" n1 = false)
      by (apply String.eqb_neq; intros E; apply H1; symmetry; exact E).
    assert (E2 : String.eqb "CO2" n2 = false)
      by (apply String.eqb_neq; intros E; apply H2; symmetry; exact E).
    rewrite E1, E2. reflexivity. }
  rewrite E. reflexivity.
Qed.

Lemma group_pins_incl n r g : incl (group_pins n r g) g.
Proof.
  unfold group_pins. destruct (String.eqb n "CO2").
  - intros x [].
  - intros x Hx. apply In_firstn in Hx. exact Hx.
Qed.

Lemma group_pins_firstn n r g :
  exists k, group_pins n r g = firstn k g /\
            (n <> "CO2" -> k = length r).
Proof.
  unfold group_pins. destruct (String.eqb n "CO2") eqn:E.
  - exists O. split; [reflexivity |].
    apply String.eqb_eq in E. intros H. contradiction.
  - exists (length r). split; [reflexivity | intros _; reflexivity].
Qed.

Lemma co2_entries_appended {V} (base : list (Z * V)) pin x v a :
  ~ In pin (dict_keys base) -> ~ In x (dict_keys base) -> x <> pin ->
  dict_set Z.eqb (dict_set Z.eqb base pin v) x a = base ++ [(pin, v); (x, a)].
Proof.
  intros Hpin Hx Hne.
  rewrite (dict_set_fresh Z.eqb (fun _ => True) Z_eqb_eq_on base pin v
             (Forall_True _) I Hpin).
  rewrite (dict_set_fresh Z.eqb (fun _ => True) Z_eqb_eq_on _ x a
             (Forall_True _) I).
  - rewrite <- app_assoc. reflexivity.
  - unfold dict_keys. rewrite map_app. simpl. intros Hin.
    apply in_app_or in Hin. destruct Hin as [Hin | [Hin | []]].
    + apply Hx. exact Hin.
    + apply Hne. symmetry. exact Hin.
Qed.

Lemma make_pair_config_ok d o1 o2 :
  NoDup (available_group1_valve_pins d ++ available_group2_valve_pins d) ->
  pair_ok d (o1, o2) ->
  exists cfg, make_pair_config d false (o1, o2) = inr cfg /\
              pins2odors cfg = wired_map d (o1, o2).
Proof.
  intros Hnd (Hne & Hnum1 & Hnum2 & Hlen1 & Hlen2 & Hr1 & Hr2 & Hco2).
  set (n1 := name o1) in *. set (n2 := name o2) in *.
  set (r1 := log10_concentrations o1) in *.
  set (r2 := log10_concentrations o2) in *.
  set (g1 := available_group1_valve_pins d) in *.
  set (g2 := available_group2_valve_pins d) in *.
  destruct (odor_name2log10_concs_get n1 n2 r1 r2 Hne) as (Hg1 & Hg2).
  set (dict := dict_of_list String.eqb [(n1, r1); (n2, r2)]) in *.
  unfold make_pair_config, make_pair_config_with, get_odor_name, get_odor_concs.
  fold n1 n2 r1 r2 g1 g2. fold dict.
  assert (E : negb (String.eqb n1 n2) = true)
    by (apply negb_true_iff, String.eqb_neq; exact Hne).
  rewrite (bind_ok_eq _ tt _ (assert_true _ E)).
  set (vials := group_vials n1 r1 ++ group_vials n2 r2).
  set (pins := group_pins n1 r1 g1 ++ group_pins n2 r2 g2).
  assert (Hassign : assign_groups dict ([], []) (combine [n1; n2] [g1; g2])
                    = inr (vials, pins)).
  { cbn [combine assign_groups].
    rewrite (assign_group_ok _ _ _ _ _ Hg1 Hlen1). cbn [bind fst snd app].
    rewrite (assign_group_ok _ _ _ _ _ Hg2 Hlen2). reflexivity. }
  rewrite (bind_ok_eq _ _ _ Hassign).
  assert (Hlens : length pins = length vials).
  { unfold pins, vials. rewrite !length_app, !group_lengths by assumption.
    reflexivity. }
  assert (Hleq : (length vials =? length pins)%nat = true)
    by (apply Nat.eqb_eq; symmetry; exact Hlens).
  rewrite (bind_ok_eq _ tt _ (assert_true _ Hleq)).
  assert (Hpins_nd : NoDup pins).
  { unfold pins.
    destruct (group_pins_firstn n1 r1 g1) as (k1 & -> & _).
    destruct (group_pins_firstn n2 r2 g2) as (k2 & -> & _).
    apply NoDup_firstn_app. exact Hnd. }
  assert (Hkeys : map fst (combine pins vials) = pins)
    by (apply BasicPlusCo2Facts.map_fst_combine; exact Hlens).
  assert (Hbase : dict_of_list Z.eqb (combine pins vials) = combine pins vials)
    by (apply pin_dict_of_list_NoDup; rewrite Hkeys; exact Hpins_nd).
  assert (Hvials : Forall is_vial vials)
    by (apply Forall_app; split; apply group_vials_is_vial).
  assert (Hbase_in : forall n r,
             n <> "CO2" -> incl (group_vials n r) vials ->
             forall c, In c r -> exists p, In (p, vial n c) (combine pins vials)).
  { intros n r Hn Hincl c Hc. apply in_combine_of_r; [exact Hlens |].
    apply Hincl. unfold group_vials.
    apply String.eqb_neq in Hn. rewrite Hn. apply in_map. exact Hc. }
  assert (Hi1 : incl (group_vials n1 r1) vials)
    by (intros o Ho; apply in_or_app; left; exact Ho).
  assert (Hi2 : incl (group_vials n2 r2) vials)
    by (intros o Ho; apply in_or_app; right; exact Ho).
  assert (Hrun : exists p2o comp,
             co2_block d dict [n1; n2]
               (dict_of_list Z.eqb (combine pins vials)) = inr (p2o, comp) /\
             pins2odors_wf p2o /\
             (String.eqb "CO2" n1 || String.eqb "CO2" n2 = true -> comp <> None) /\
             (forall c, In c r1 -> exists p, In (p, vial n1 c) p2o) /\
             (forall c, In c r2 -> exists p, In (p, vial n2 c) p2o) /\
             p2o = combine pins vials ++ co2_entries d (o1, o2)).
  { destruct (String.eqb_spec n1 "CO2") as [Hn1 | Hn1];
      [| destruct (String.eqb_spec n2 "CO2") as [Hn2 | Hn2]].
    3: { exists (combine pins vials), None.
         rewrite (co2_block_none _ _ _ _ _ Hn1 Hn2), Hbase.
         split; [reflexivity |].
         split; [rewrite <- Hbase; apply dict_of_list_wf; exact Hvials |].
         split.
         { intros Hc. apply orb_true_iff in Hc.
           destruct Hc as [Hc | Hc]; apply String.eqb_eq in Hc;
             symmetry in Hc; contradiction. }
         split; [apply Hbase_in; assumption |].
         split; [apply Hbase_in; assumption |].
         unfold co2_entries. fold n1 n2.
         apply String.eqb_neq in Hn1, Hn2. rewrite Hn1, Hn2.
         rewrite app_nil_r. reflexivity. }
    all: assert (Hany : n1 = "CO2" \/ n2 = "CO2") by (auto).
    all: destruct (Hco2 Hany) as (Hg2ne & pin & Hpin & Hpin_out).
    all: destruct (last_item_ok g2 Hg2ne) as (x & Hlast).
    all: assert (Hx : In x g2) by (apply last_item_In; exact Hlast).
    all: assert (Hpin_fresh : ~ In pin pins)
           by (intros Hin; apply Hpin_out; unfold pins in Hin;
               apply in_app_or in Hin; apply in_or_app;
               destruct Hin as [Hin | Hin]; [left | right];
               apply group_pins_incl in Hin; exact Hin).
    all: assert (Hx_pin : x <> pin)
           by (intros ->; apply Hpin_out; apply in_or_app; right; exact Hx).
    all: assert (Hx1 : ~ In x (group_pins n1 r1 g1))
           by (intros Hin; apply group_pins_incl in Hin;
               exact (NoDup_app_disjoint g1 g2 x Hnd Hin Hx)).
    all: assert (Hg2_nd : NoDup g2)
           by (apply NoDup_app_remove_l in Hnd; exact Hnd).
    all: assert (Htail : forall c,
             dict_get String.eqb dict "CO2" = Some [c] ->
             ~ In x (group_pins n2 r2 g2) ->
             exists p2o comp,
               co2_block d dict [n1; n2]
                 (dict_of_list Z.eqb (combine pins vials)) = inr (p2o, comp) /\
               pins2odors_wf p2o /\
               (String.eqb "CO2" n1 || String.eqb "CO2" n2 = true ->
                comp <> None) /\
               incl (combine pins vials) p2o /\
               In (pin, vial "CO2" c) p2o /\
               p2o = combine pins vials
                     ++ [(pin, vial "CO2" c); (x, air_for_co2_compensation)]).
    1,3: intros c Hget Hx2;
         rewrite (co2_block_ok _ _ _ _ _ _ _ _ Hget Hpin Hlast Hany);
         eexists _, _; split; [reflexivity |];
         split;
         [ apply dict_set_wf;
           [ apply dict_set_wf;
             [ apply dict_of_list_wf; exact Hvials
             | exists "CO2"%string, c; reflexivity ]
           | exists "air for co2 compensation"%string, (VInt 0); reflexivity ]
         | ];
         split; [intros _; discriminate |];
         rewrite Hbase, co2_entries_appended;
         [ split;
           [ intros e He; apply in_or_app; left; exact He
           | split; [apply in_or_app; right; left; reflexivity | reflexivity] ]
         | unfold dict_keys; rewrite Hkeys; exact Hpin_fresh
         | unfold dict_keys; rewrite Hkeys; unfold pins; intros Hin;
           apply in_app_or in Hin; destruct Hin; contradiction
         | exact Hx_pin ].
    - (* stream 1 is CO2 *)
      destruct (Hr1 Hn1) as (c & Hc).
      assert (Hn2 : n2 <> "CO2") by (intros E'; apply Hne; congruence).
      assert (Hx2 : ~ In x (group_pins n2 r2 g2)).
      { unfold group_pins. apply String.eqb_neq in Hn2. rewrite Hn2.
        apply String.eqb_neq in Hn2. specialize (Hlen2 Hn2).
        apply last_item_not_in_firstn; [exact Hg2_nd | lia | exact Hlast]. }
      assert (Hget : dict_get String.eqb dict "CO2" = Some [c])
        by (rewrite <- Hn1, Hg1; f_equal; exact Hc).
      destruct (Htail c Hget Hx2)
        as (p2o & comp & Hb & Hwf & Hcomp & Hincl & Hco2in & Hmap).
      exists p2o, comp.
      split; [exact Hb |]. split; [exact Hwf |]. split; [exact Hcomp |].
      split; [| split].
      + intros c1 Hc1. fold r1 in Hc. rewrite Hc in Hc1.
        destruct Hc1 as [<- | []]. exists pin. rewrite Hn1. exact Hco2in.
      + intros c2 Hc2.
        destruct (Hbase_in n2 r2 Hn2 Hi2 c2 Hc2) as (p & Hp).
        exists p. apply Hincl. exact Hp.
      + rewrite Hmap. f_equal. unfold co2_entries. fold n1 n2 r1 g2.
        rewrite Hn1, String.eqb_refl.
        change (log10_concentrations o1) with r1.
        rewrite Hc, Hpin, Hlast. reflexivity.
    - (* stream 2 is CO2 *)
      destruct (Hr2 Hn2) as (c & Hc).
      assert (Hx2 : ~ In x (group_pins n2 r2 g2)).
      { unfold group_pins. rewrite Hn2, String.eqb_refl. intros []. }
      assert (Hget : dict_get String.eqb dict "CO2" = Some [c])
        by (rewrite <- Hn2, Hg2; f_equal; exact Hc).
      destruct (Htail c Hget Hx2)
        as (p2o & comp & Hb & Hwf & Hcomp & Hincl & Hco2in & Hmap).
      exists p2o, comp.
      split; [exact Hb |]. split; [exact Hwf |]. split; [exact Hcomp |].
      split; [| split].
      + intros c1 Hc1.
        destruct (Hbase_in n1 r1 Hn1 Hi1 c1 Hc1) as (p & Hp).
        exists p. apply Hincl. exact Hp.
      + intros c2 Hc2. fold r2 in Hc. rewrite Hc in Hc2.
        destruct Hc2 as [<- | []]. exists pin. rewrite Hn2. exact Hco2in.
      + rewrite Hmap. f_equal. unfold co2_entries. fold n1 n2 r2 g2.
        apply String.eqb_neq in Hn1. rewrite Hn1.
        rewrite Hn2, String.eqb_refl.
        change (log10_concentrations o2) with r2.
        rewrite Hc, Hpin, Hlast. reflexivity. }
  destruct Hrun as (p2o & comp & Hblock & Hwf & Hcomp & Hw1 & Hw2 & Hmap).
  rewrite (bind_ok_eq _ _ _ Hblock).
  rewrite Hg1, Hg2. cbn [of_option bind ok].
  destruct (sorted_ok r1 Hnum1) as (s1 & Hs1).
  destruct (sorted_ok r2 Hnum2) as (s2 & Hs2).
  rewrite Hs1, Hs2. cbn [bind].
  destruct (sorted_inr _ _ Hs1) as (Hperm1 & _).
  destruct (sorted_inr _ _ Hs2) as (Hperm2 & _).
  assert (Hloop : Forall
            (fun c1 => Forall
               (fun c2 => exists pins0,
                    trial_pins d false (get_vial_tuple false)
                      (vials2pins_of p2o) n1 n2 comp c1 c2 = inr pins0)
               s2) s1).
  { apply Forall_forall. intros c1 Hc1. apply Forall_forall. intros c2 Hc2.
    apply (Permutation_in _ Hperm1) in Hc1.
    apply (Permutation_in _ Hperm2) in Hc2.
    destruct (Hw1 c1 Hc1) as (p1 & Hp1). destruct (Hw2 c2 Hc2) as (p2 & Hp2).
    rewrite Forall_forall in Hnum1, Hnum2.
    eapply trial_pins_ok; try eassumption; auto. }
  destruct (outer_loop_ok _ (n_repeats d) [] _ _ Hloop) as (out & Hout).
  unfold vials2pins_of in Hout. rewrite Hout.
  eexists. split; [reflexivity |]. exact Hmap.
Qed.

Lemma for_each_pair_ok_with f (Q : odor * odor -> config -> Prop) pairs acc :
  Forall (fun odor_pair => exists cfg, f odor_pair = inr cfg /\ Q odor_pair cfg)
    pairs ->
  exists out, for_each_pair f pairs acc = inr (acc ++ out) /\ Forall2 Q pairs out.
Proof.
  intros Hall. revert acc.
  induction Hall as [| pr l (cfg & Hc & HQ) _ IH]; intros acc.
  - exists []. rewrite app_nil_r. split; [reflexivity | constructor].
  - simpl. rewrite Hc. simpl.
    destruct (IH (acc ++ [cfg])) as (out & -> & Hout).
    exists (cfg :: out). rewrite <- app_assoc. split; [reflexivity |].
    constructor; assumption.
Qed.

Lemma pair_scheduler_wires hw d :
  hardware_ok hw d -> Forall (pair_ok d) (odor_pairs d) ->
  exists cfgs,
    make_config_dict hw d = inr cfgs /\
    Forall2 (fun odor_pair cfg => pins2odors cfg = wired_map d odor_pair)
      (odor_pairs d) cfgs.
Proof.
  intros (Hsm & Hbal & Hnd) Hpairs. unfold make_config_dict.
  rewrite Hsm. simpl negb.
  rewrite (bind_ok_eq _ tt _ (assert_true _ eq_refl)).
  rewrite (bind_ok_eq _ tt _ (assert_true _ (proj2 (Nat.eqb_eq _ _) Hbal))).
  destruct (for_each_pair_ok_with (make_pair_config d false)
              (fun odor_pair cfg => pins2odors cfg = wired_map d odor_pair)
              (odor_pairs d) []) as (out & -> & Hout).
  - eapply Forall_impl; [| exact Hpairs].
    intros [o1 o2] Hok. apply make_pair_config_ok; assumption.
  - exists out. split; [reflexivity | exact Hout].
Qed.


(** X3. On such an input the pin-to-odor map of a pair is, entry by entry:
    the first pins of pool 1 with the vials of stream 1 in ramp order, the
    first pins of pool 2 with the vials of stream 2, then, for a CO2
    stream, the CO2 pin with the CO2 concentration and the last pin of
    pool 2 with the compensation air. *)
Theorem pair_pins2odors_is_wired_map hw d cfgs :
  hardware_ok hw d -> Forall (pair_ok d) (odor_pairs d) ->
  make_config_dict hw d = inr cfgs ->
  Forall2 (fun odor_pair cfg => pins2odors cfg = wired_map d odor_pair)
    (odor_pairs d) cfgs.
Proof.
  intros Hhw Hpairs Hrun.
  destruct (pair_scheduler_wires hw d Hhw Hpairs) as (cfgs' & Hrun' & Hall).
  rewrite Hrun in Hrun'. inversion Hrun'; subst. exact Hall.
Qed.

Lemma two_manifolds_ok d :
  available_group1_valve_pins d = [2; 3; 4] ->
  available_group2_valve_pins d = [7; 8; 9] ->
  hardware_ok two_manifolds d.
Proof.
  intros H1 H2. unfold hardware_ok. rewrite H1, H2.
  split; [reflexivity |]. split; [reflexivity |].
  simpl. repeat constructor; simpl; intuition lia.
Qed.

Lemma co2_first_pair_ok :
  Forall (pair_ok co2_first_data) (odor_pairs co2_first_data).
Proof.
  constructor; [| constructor]. unfold pair_ok. simpl.
  split; [discriminate |].
  split; [repeat constructor |].
  split; [repeat constructor |].
  split; [intros H; exfalso; apply H; reflexivity |].
  split; [intros _; lia |].
  split; [intros _; exists (VInt 0); reflexivity |].
  split; [discriminate |].
  intros _. split; [discriminate |].
  exists 10. split; [reflexivity | intuition lia].
Qed.


Lemma pair_pins2odors_is_wired_map_witness :
  Forall2 (fun odor_pair cfg => pins2odors cfg = wired_map co2_first_data odor_pair)
    (odor_pairs co2_first_data)
    [mk_config
       [(7, vial "Y" (VInt (-5))); (10, vial "CO2" (VInt 0));
        (9, air_for_co2_compensation)]
       [[7; 10; 5; 6; 9]]].
Proof.
  apply (pair_pins2odors_is_wired_map two_manifolds co2_first_data).
  - apply two_manifolds_ok; reflexivity.
  - exact co2_first_pair_ok.
  - vm_compute. reflexivity.
Defined.

(** ** Where an exception comes from *)

Lemma bind_inl_inv {A B} (m : result A) (f : A -> result B) e :
  bind m f = inl e -> m = inl e \/ exists a, m = inr a /\ f a = inl e.
Proof.
  destruct m as [e' | a]; simpl; intros H.
  - left. inversion H. reflexivity.
  - right. exists a. split; [reflexivity | exact H].
Qed.

Lemma assert_inl b e : assert b = inl e -> b = false /\ e = AssertionError.
Proof.
  destruct b; simpl; intros H; [discriminate |].
  inversion H. split; reflexivity.
Qed.

Lemma inner_loop_inl f n acc l e :
  inner_loop f n acc l = inl e -> exists c2, In c2 l /\ f c2 = inl e.
Proof.
  revert acc. induction l as [| c l IH]; simpl; intros acc H.
  - discriminate.
  - apply bind_inl_inv in H. destruct H as [H | (pins & _ & H)].
    + exists c. split; [left; reflexivity | exact H].
    + destruct (IH _ H) as (c2 & Hin & Hc). exists c2.
      split; [right; exact Hin | exact Hc].
Qed.

Lemma outer_loop_inl f n acc l1 l2 e :
  outer_loop f n acc l1 l2 = inl e ->
  exists c1 c2, In c1 l1 /\ In c2 l2 /\ f c1 c2 = inl e.
Proof.
  revert acc. induction l1 as [| c l1 IH]; simpl; intros acc H.
  - discriminate.
  - apply bind_inl_inv in H. destruct H as [H | (out & _ & H)].
    + apply inner_loop_inl in H. destruct H as (c2 & Hin & Hc).
      exists c, c2. repeat split; [left; reflexivity | exact Hin | exact Hc].
    + destruct (IH _ H) as (c1 & c2 & H1 & H2 & Hc). exists c1, c2.
      repeat split; [right; exact H1 | exact H2 | exact Hc].
Qed.

Lemma for_each_pair_inl f pairs acc e :
  for_each_pair f pairs acc = inl e ->
  exists odor_pair, In odor_pair pairs /\ f odor_pair = inl e.
Proof.
  revert acc. induction pairs as [| pr l IH]; simpl; intros acc H.
  - discriminate.
  - apply bind_inl_inv in H. destruct H as [H | (cfg & _ & H)].
    + exists pr. split; [left; reflexivity | exact H].
    + destruct (IH _ H) as (pr' & Hin & Hf). exists pr'.
      split; [right; exact Hin | exact Hf].
Qed.

Lemma insert_by_key_inl c l e : insert_by_key c l = inl e -> e = TypeError.
Proof.
  induction l as [| d l IH]; simpl; intros H.
  - discriminate.
  - apply bind_inl_inv in H. destruct H as [H | (below & _ & H)].
    + apply value_ltb_inl in H. exact H.
    + destruct below; [| discriminate].
      apply bind_inl_inv in H. destruct H as [H | (rest & _ & H)];
        [apply IH; exact H | discriminate].
Qed.

(** [sorted] raises nothing but the [TypeError] of a comparison. *)
Lemma sorted_inl l e : sorted l = inl e -> e = TypeError.
Proof.
  induction l as [| c l IH]; simpl; intros H.
  - discriminate.
  - apply bind_inl_inv in H. destruct H as [H | (s & _ & H)].
    + apply IH. exact H.
    + apply insert_by_key_inl in H. exact H.
Qed.

(** What makes the body of the loops raise. *)
Lemma trial_pins_inl d v2p n1 n2 comp c1 c2 e :
  trial_pins d false (get_vial_tuple false) v2p n1 n2 comp c1 c2 = inl e ->
  (e = AssertionError /\
   (is_concentration c1 = false \/ is_concentration c2 = false)) \/
  (e = AssertionError /\
   exists q, dict_get items_eqb v2p (vial n1 c1) = Some q /\
             dict_get items_eqb v2p (vial n2 c2) = Some q) \/
  e = KeyError \/
  (e = NameError /\ comp = None /\
   String.eqb "CO2" n1 || String.eqb "CO2" n2 = true).
Proof.
  unfold trial_pins. rewrite !get_vial_tuple_dual. intros H.
  destruct (is_concentration c1) eqn:Hc1;
    [| simpl in H; inversion H; left; split; [reflexivity | left; reflexivity]].
  destruct (is_concentration c2) eqn:Hc2;
    [| simpl in H; inversion H; left; split; [reflexivity | right; reflexivity]].
  simpl bind in H.
  destruct (dict_get items_eqb v2p (vial n1 c1)) as [q1 |];
    [| simpl in H; inversion H; right; right; left; reflexivity].
  destruct (dict_get items_eqb v2p (vial n2 c2)) as [q2 |];
    [| simpl in H; inversion H; right; right; left; reflexivity].
  simpl bind in H. simpl negb in H. cbv iota in H.
  destruct (length (sorted_pin_set q1 q2) =? 2)%nat eqn:Hlen.
  - simpl bind in H.
    destruct (String.eqb "CO2" n1 || String.eqb "CO2" n2); [| discriminate].
    destruct comp as [x |]; simpl in H; [discriminate |].
    inversion H. right. right. right. repeat split.
  - simpl in H. inversion H. right. left. split; [reflexivity |].
    exists q1. split; [reflexivity |].
    unfold sorted_pin_set in Hlen.
    destruct (Z.eqb_spec q1 q2) as [-> | _]; [reflexivity |].
    destruct (q1 <? q2); discriminate.
Qed.

Lemma assign_group_inl dict acc n pool concs e :
  dict_get String.eqb dict n = Some concs ->
  assign_group dict acc n pool = inl e ->
  e = AssertionError /\ n <> "CO2" /\
  (length pool < length concs + 1)%nat.
Proof.
  unfold assign_group. intros Hget H.
  destruct (String.eqb n "CO2") eqn:E; [discriminate |].
  apply String.eqb_neq in E. rewrite Hget in H. simpl bind in H.
  destruct (Nat.leb_spec (length concs + 1) (length pool)) as [Hle | Hlt];
    simpl in H; [discriminate |].
  inversion H. repeat split; assumption.
Qed.

Lemma co2_block_inl d dict n1 n2 base e :
  co2_block d dict [n1; n2] base = inl e ->
  (n1 = "CO2" \/ n2 = "CO2") /\
  (e = KeyError \/
   (e = AssertionError /\
    exists r, dict_get String.eqb dict "CO2" = Some r /\ length r <> 1%nat) \/
   (e = IndexError /\ available_group2_valve_pins d = [])).
Proof.
  unfold co2_block. intros H.
  destruct (existsb (String.eqb "CO2") [n1; n2]) eqn:E; [| discriminate].
  split.
  { apply existsb_exists in E. destruct E as (n & [<- | [<- | []]] & En);
      apply String.eqb_eq in En; [left | right]; symmetry; exact En. }
  destruct (dict_get String.eqb dict "CO2") as [r |];
    [| simpl in H; inversion H; left; reflexivity].
  simpl bind in H.
  destruct r as [| c [| c' r]].
  - simpl in H. inversion H. right. left. split; [reflexivity |].
    eexists. split; [reflexivity | discriminate].
  - simpl in H.
    destruct (co2_pin d); [| simpl in H; inversion H; left; reflexivity].
    simpl bind in H. unfold last_item in H.
    destruct (available_group2_valve_pins d); simpl in H; [| discriminate].
    inversion H. right. right. split; reflexivity.
  - simpl in H. inversion H. right. left. split; [reflexivity |].
    eexists. split; [reflexivity | discriminate].
Qed.

(** Every way in which the scheduler of one pair raises. *)
Lemma make_pair_config_inl d o1 o2 e :
  make_pair_config d false (o1, o2) = inl e ->
  let n1 := name o1 in
  let n2 := name o2 in
  let r1 := log10_concentrations o1 in
  let r2 := log10_concentrations o2 in
  let g1 := available_group1_valve_pins d in
  let g2 := available_group2_valve_pins d in
  (e = AssertionError /\
   (n1 = n2 \/
    (n1 <> "CO2" /\ (length g1 < length r1 + 1)%nat) \/
    (n2 <> "CO2" /\ (length g2 < length r2 + 1)%nat) \/
    (n1 = "CO2" /\ length r1 <> 1%nat) \/
    (n2 = "CO2" /\ length r2 <> 1%nat) \/
    (exists c, (In c r1 \/ In c r2) /\ is_concentration c = false))) \/
  e = KeyError \/
  e = TypeError \/
  (e = IndexError /\ g2 = [] /\ (n1 = "CO2" \/ n2 = "CO2")).
Proof.
  intros H n1 n2 r1 r2 g1 g2.
  unfold make_pair_config, make_pair_config_with, get_odor_name,
    get_odor_concs in H.
  fold n1 n2 r1 r2 g1 g2 in H.
  apply bind_inl_inv in H. destruct H as [H | (u1 & Hne & H)].
  { apply assert_inl in H. destruct H as (H & ->).
    apply negb_false_iff, String.eqb_eq in H.
    left. split; [reflexivity | left; exact H]. }
  apply assert_inr, negb_true_iff, String.eqb_neq in Hne.
  destruct (odor_name2log10_concs_get n1 n2 r1 r2 Hne) as (Hg1 & Hg2).
  set (dict := dict_of_list String.eqb [(n1, r1); (n2, r2)]) in *.
  apply bind_inl_inv in H. destruct H as [H | ([vials pins] & Hassign & H)].
  { cbn [combine assign_groups] in H.
    apply bind_inl_inv in H. destruct H as [H | (acc1 & Ha1 & H)].
    - apply (assign_group_inl _ _ _ _ _ _ Hg1) in H.
      destruct H as (-> & Hn & Hlt).
      left. split; [reflexivity |]. right. left. split; assumption.
    - apply bind_inl_inv in H. destruct H as [H | (acc2 & _ & H)];
        [| discriminate].
      apply (assign_group_inl _ _ _ _ _ _ Hg2) in H.
      destruct H as (-> & Hn & Hlt).
      left. split; [reflexivity |]. right. right. left. split; assumption. }
  cbn [combine assign_groups] in Hassign.
  inv_bind Hassign as acc1 Ha1. inv_bind Hassign as acc2 Ha2.
  apply ok_inr in Hassign. subst acc2.
  destruct (assign_group_inr _ _ _ _ _ _ Hg1 Ha1) as (-> & Hlen1).
  destruct (assign_group_inr _ _ _ _ _ _ Hg2 Ha2) as (Hvp & Hlen2).
  simpl in Hvp. inversion Hvp; subst vials pins. clear Hvp.
  apply bind_inl_inv in H. destruct H as [H | (u2 & _ & H)].
  { exfalso. apply assert_inl in H. destruct H as (H & _).
    apply Nat.eqb_neq in H. apply H.
    rewrite !length_app, !group_lengths by assumption. reflexivity. }
  apply bind_inl_inv in H. destruct H as [H | ([p2o comp] & Hblock & H)].
  { apply co2_block_inl in H.
    destruct H as (Hany & [-> | [(-> & r & Hr & Hrne) | (-> & Hempty)]]).
    - right. left. reflexivity.
    - left. split; [reflexivity |]. do 3 right.
      destruct Hany as [Hn | Hn].
      + left. split; [exact Hn |].
        rewrite <- Hn in Hr. rewrite Hg1 in Hr. inversion Hr; subst r.
        exact Hrne.
      + right. left. split; [exact Hn |].
        rewrite <- Hn in Hr. rewrite Hg2 in Hr. inversion Hr; subst r.
        exact Hrne.
    - do 3 right. repeat split; assumption. }
  assert (Hwf : pins2odors_wf p2o).
  { eapply co2_block_wf; [| exact Hblock].
    apply dict_of_list_wf, Forall_app. split; apply group_vials_is_vial. }
  rewrite Hg1, Hg2 in H. cbn [of_option bind ok] in H.
  apply bind_inl_inv in H. destruct H as [H | (s1 & Hs1 & H)].
  { apply sorted_inl in H. right. right. left. exact H. }
  apply bind_inl_inv in H. destruct H as [H | (s2 & Hs2 & H)].
  { apply sorted_inl in H. right. right. left. exact H. }
  apply bind_inl_inv in H. destruct H as [H | (out & _ & H)]; [| discriminate].
  apply outer_loop_inl in H. destruct H as (c1 & c2 & Hc1 & Hc2 & H).
  apply (Permutation_in _ (proj1 (sorted_inr _ _ Hs1))) in Hc1.
  apply (Permutation_in _ (proj1 (sorted_inr _ _ Hs2))) in Hc2.
  apply trial_pins_inl in H.
  destruct H as [(-> & Hbad) | [(-> & q & Hq1 & Hq2)
                               | [-> | (-> & Hnone & Hco2)]]].
  - left. split; [reflexivity |]. do 5 right.
    destruct Hbad as [Hbad | Hbad];
      [exists c1 | exists c2]; split; auto.
  - exfalso.
    exact (lookups_differ _ _ _ _ _ _ _ Hwf Hne Hq1 Hq2 eq_refl).
  - right. left. reflexivity.
  - exfalso. apply co2_block_inr in Hblock.
    destruct Hblock as [(Hn1 & Hn2 & _) | (_ & c & pin & x & _ & _ & _ & Hsome & _)].
    + apply orb_true_iff in Hco2.
      destruct Hco2 as [E | E]; apply String.eqb_eq in E; symmetry in E;
        contradiction.
    + congruence.
Qed.

Lemma make_config_dict_inl hw d e :
  make_config_dict hw d = inl e ->
  (e = AssertionError /\
   (single_manifold hw = true \/
    n_distinct (dict_values (pins2balances hw)) <> 2%nat)) \/
  exists o1 o2,
    In (o1, o2) (odor_pairs d) /\ make_pair_config d false (o1, o2) = inl e.
Proof.
  unfold make_config_dict. intros H.
  apply bind_inl_inv in H. destruct H as [H | (u & Hsm & H)].
  { left. apply assert_inl in H. destruct H as (H & ->).
    apply negb_false_iff in H. split; [reflexivity | left; exact H]. }
  apply assert_inr, negb_true_iff in Hsm. rewrite Hsm in H.
  apply bind_inl_inv in H. destruct H as [H | (u' & _ & H)].
  { left. apply assert_inl in H. destruct H as (H & ->).
    apply Nat.eqb_neq in H. split; [reflexivity | right; exact H]. }
  right.
  apply for_each_pair_inl in H. destruct H as ([o1 o2] & Hin & H).
  exists o1, o2. split; assumption.
Qed.

(** X4. An [AssertionError] of the pair scheduler has one of these causes
    only: single-manifold hardware, a number of distinct balance pins other
    than two, a pair whose odors share a name, a pool too small for the
    ramp of a stream that is not CO2, a CO2 stream whose ramp does not
    have exactly one concentration, or a concentration that is neither an
    [int], a [float] nor null. The two remaining assertions, on the
    lengths of [odor_vials] and [odor_pins] and on the two pins of a trial
    being distinct, never fail. *)
Theorem pair_assertion_error_causes hw d :
  make_config_dict hw d = inl AssertionError ->
  single_manifold hw = true \/
  n_distinct (dict_values (pins2balances hw)) <> 2%nat \/
  exists o1 o2,
    In (o1, o2) (odor_pairs d) /\
    (name o1 = name o2 \/
     (name o1 <> "CO2" /\
      (length (available_group1_valve_pins d)
       < length (log10_concentrations o1) + 1)%nat) \/
     (name o2 <> "CO2" /\
      (length (available_group2_valve_pins d)
       < length (log10_concentrations o2) + 1)%nat) \/
     (name o1 = "CO2" /\ length (log10_concentrations o1) <> 1%nat) \/
     (name o2 = "CO2" /\ length (log10_concentrations o2) <> 1%nat) \/
     (exists c,
         (In c (log10_concentrations o1) \/ In c (log10_concentrations o2)) /\
         is_concentration c = false)).
Proof.
  intros H. apply make_config_dict_inl in H.
  destruct H as [(_ & [H | H]) | (o1 & o2 & Hin & H)].
  - left. exact H.
  - right. left. exact H.
  - right. right. exists o1, o2. split; [exact Hin |].
    apply make_pair_config_inl in H.
    destruct H as [(_ & H) | [H | [H | (H & _)]]];
      [exact H | discriminate | discriminate | discriminate].
Qed.

Lemma pair_assertion_error_causes_witness :
  make_config_dict two_manifolds text_concentration_data = inl AssertionError /\
  (single_manifold two_manifolds = true \/
   n_distinct (dict_values (pins2balances two_manifolds)) <> 2%nat \/
   exists o1 o2,
     In (o1, o2) (odor_pairs text_concentration_data) /\
     (name o1 = name o2 \/
      (name o1 <> "CO2" /\
       (length (available_group1_valve_pins text_concentration_data)
        < length (log10_concentrations o1) + 1)%nat) \/
      (name o2 <> "CO2" /\
       (length (available_group2_valve_pins text_concentration_data)
        < length (log10_concentrations o2) + 1)%nat) \/
      (name o1 = "CO2" /\ length (log10_concentrations o1) <> 1%nat) \/
      (name o2 = "CO2" /\ length (log10_concentrations o2) <> 1%nat) \/
      (exists c,
          (In c (log10_concentrations o1) \/ In c (log10_concentrations o2))
          /\ is_concentration c = false))).
Proof.
  split; [vm_compute; reflexivity |].
  apply (pair_assertion_error_causes two_manifolds text_concentration_data).
  vm_compute. reflexivity.
Defined.

(** X5. The compensation pin is bound wherever a trial reads it: the
    pair scheduler never raises [NameError]. An [IndexError] means that a
    pair has a CO2 stream while the pool of group 2 is empty. *)
Theorem compensation_pin_is_bound hw d e :
  make_config_dict hw d = inl e ->
  e <> NameError /\
  (e = IndexError ->
   available_group2_valve_pins d = [] /\
   exists o1 o2, In (o1, o2) (odor_pairs d) /\
                 (name o1 = "CO2" \/ name o2 = "CO2")).
Proof.
  intros H. apply make_config_dict_inl in H.
  destruct H as [(-> & _) | (o1 & o2 & Hin & H)].
  { split; discriminate. }
  apply make_pair_config_inl in H.
  destruct H as [(-> & _) | [-> | [-> | (-> & Hempty & Hany)]]];
    try (split; discriminate).
  split; [discriminate |]. intros _. split; [exact Hempty |].
  exists o1, o2. split; assumption.
Qed.

Lemma compensation_pin_is_bound_witness :
  make_config_dict two_manifolds (mk_data 1
      [(mk_odor "X" [VInt (-6)], mk_odor "CO2" [VInt 0])]
      [2; 3; 4] [] 5 6 (Some 10)) = inl IndexError /\
  IndexError <> NameError /\
  available_group2_valve_pins (mk_data 1
      [(mk_odor "X" [VInt (-6)], mk_odor "CO2" [VInt 0])]
      [2; 3; 4] [] 5 6 (Some 10)) = [].
Proof.
  split; [vm_compute; reflexivity |].
  destruct (compensation_pin_is_bound two_manifolds
              (mk_data 1 [(mk_odor "X" [VInt (-6)], mk_odor "CO2" [VInt 0])]
                 [2; 3; 4] [] 5 6 (Some 10)) IndexError)
    as (Hname & Hindex).
  - vm_compute. reflexivity.
  - split; [exact Hname | exact (proj1 (Hindex eq_refl))].
Defined.

(** ** Several pairs *)

Lemma for_each_pair_acc f pairs acc :
  for_each_pair f pairs acc
  = match for_each_pair f pairs [] with
    | inl e => inl e
    | inr out => inr (acc ++ out)
    end.
Proof.
  revert acc. induction pairs as [| pr l IH]; intros acc; simpl.
  - rewrite app_nil_r. reflexivity.
  - destruct (f pr) as [e | cfg]; simpl; [reflexivity |].
    rewrite (IH (acc ++ [cfg])), (IH [cfg]).
    destruct (for_each_pair f l []); [reflexivity |].
    rewrite <- app_assoc. reflexivity.
Qed.

Lemma for_each_pair_app f l1 l2 :
  for_each_pair f (l1 ++ l2) []
  = match for_each_pair f l1 [] with
    | inl e => inl e
    | inr c1 =>
        match for_each_pair f l2 [] with
        | inl e => inl e
        | inr c2 => inr (c1 ++ c2)
        end
    end.
Proof.
  induction l1 as [| pr l1 IH]; simpl.
  - destruct (for_each_pair f l2 []); reflexivity.
  - destruct (f pr) as [e | cfg]; simpl; [reflexivity |].
    rewrite (for_each_pair_acc f (l1 ++ l2) [cfg]), IH.
    rewrite (for_each_pair_acc f l1 [cfg]).
    destruct (for_each_pair f l1 []); [reflexivity |].
    destruct (for_each_pair f l2 []); [reflexivity |].
    rewrite <- app_assoc. reflexivity.
Qed.

Lemma make_config_dict_with hw d pairs :
  make_config_dict hw (with_odor_pairs d pairs)
  = (assert (negb (single_manifold hw)) ;;;
     assert (n_distinct (dict_values (pins2balances hw)) =? 2)%nat ;;;
     for_each_pair (make_pair_config d (single_manifold hw)) pairs [])%result.
Proof. reflexivity. Qed.

(** X6. Pairs are scheduled one after the other and independently: the
    run on the pairs [l1 ++ l2] succeeds exactly when the runs on [l1] and
    on [l2] do, and its configurations are theirs, in order. *)
Theorem pair_scheduler_app hw d l1 l2 cfgs :
  make_config_dict hw (with_odor_pairs d (l1 ++ l2)) = inr cfgs
  <-> exists c1 c2,
        make_config_dict hw (with_odor_pairs d l1) = inr c1 /\
        make_config_dict hw (with_odor_pairs d l2) = inr c2 /\
        cfgs = c1 ++ c2.
Proof.
  rewrite !make_config_dict_with.
  destruct (assert (negb (single_manifold hw))) as [e | u]; simpl.
  { split; [discriminate | intros (c1 & c2 & H & _); discriminate]. }
  destruct (assert (n_distinct (dict_values (pins2balances hw)) =? 2)%nat)
    as [e | u']; simpl.
  { split; [discriminate | intros (c1 & c2 & H & _); discriminate]. }
  rewrite for_each_pair_app.
  destruct (for_each_pair _ l1 []) as [e | c1].
  { split; [discriminate | intros (c1 & c2 & H & _); discriminate]. }
  destruct (for_each_pair _ l2 []) as [e | c2].
  { split; [discriminate | intros (c1' & c2 & _ & H & _); discriminate]. }
  split.
  - intros H. inversion H. exists c1, c2. repeat split.
  - intros (c1' & c2' & H1 & H2 & ->). inversion H1. inversion H2.
    reflexivity.
Qed.

(** X7. The exception of a run is that of the first pair that fails: when
    the pairs [l1] are scheduled and the pair after them raises [e], the
    whole run raises [e], whatever follows. *)
Theorem pair_scheduler_first_failure hw d l1 odor_pair l2 c1 e :
  make_config_dict hw (with_odor_pairs d l1) = inr c1 ->
  make_config_dict hw (with_odor_pairs d [odor_pair]) = inl e ->
  make_config_dict hw (with_odor_pairs d (l1 ++ odor_pair :: l2)) = inl e.
Proof.
  rewrite !make_config_dict_with.
  destruct (assert (negb (single_manifold hw))) as [e0 | u]; simpl;
    [discriminate |].
  destruct (assert (n_distinct (dict_values (pins2balances hw)) =? 2)%nat)
    as [e0 | u']; simpl; [discriminate |].
  intros H1 Hp. rewrite for_each_pair_app.
  destruct (for_each_pair _ l1 []) as [e0 | c]; [discriminate |].
  simpl. destruct (make_pair_config d (single_manifold hw) odor_pair)
    as [e0 | cfg]; simpl in *; [exact Hp | discriminate].
Qed.

Lemma pair_scheduler_app_witness :
  exists c1 c2,
    make_config_dict two_manifolds
      (with_odor_pairs xy_data (odor_pairs xy_data)) = inr c1 /\
    make_config_dict two_manifolds
      (with_odor_pairs xy_data (odor_pairs xy_data)) = inr c2 /\
    xy_configs ++ xy_configs = c1 ++ c2.
Proof.
  apply (pair_scheduler_app two_manifolds xy_data
           (odor_pairs xy_data) (odor_pairs xy_data)
           (xy_configs ++ xy_configs)).
  vm_compute. reflexivity.
Defined.

Lemma pair_scheduler_first_failure_witness :
  make_config_dict two_manifolds
    (with_odor_pairs xy_data (odor_pairs xy_data)) = inr xy_configs /\
  make_config_dict two_manifolds
    (with_odor_pairs xy_data (odor_pairs same_name_data)) = inl AssertionError /\
  make_config_dict two_manifolds
    (with_odor_pairs xy_data
       (odor_pairs xy_data ++ odor_pairs same_name_data
        ++ odor_pairs co2_first_data)) = inl AssertionError.
Proof.
  split; [vm_compute; reflexivity |].
  split; [vm_compute; reflexivity |].
  apply (pair_scheduler_first_failure two_manifolds xy_data
           (odor_pairs xy_data) (mk_odor "X" [VInt (-6)], mk_odor "X" [VInt (-4)])
           (odor_pairs co2_first_data) xy_configs AssertionError).
  - vm_compute. reflexivity.
  - vm_compute. reflexivity.
Defined.

(** ** Edge cases of the schedule *)

(** X8. A scheduled pair has no trial exactly when one of its ramps is
    empty or [n_repeats] is zero or negative; the configuration is
    returned all the same. *)
Theorem pair_has_no_trial_iff hw d cfgs :
  make_config_dict hw d = inr cfgs ->
  Forall2 (fun odor_pair cfg =>
             pinlist_at_each_trial cfg = []
             <-> log10_concentrations (fst odor_pair) = [] \/
                 log10_concentrations (snd odor_pair) = [] \/
                 n_repeats d <= 0)
    (odor_pairs d) cfgs.
Proof.
  intros H.
  destruct (pair_make_config_dict_inr _ _ _ H) as (_ & _ & Hall).
  eapply Forall2_impl; [| exact Hall].
  intros [o1 o2] cfg Hcfg. simpl.
  destruct (make_pair_config_with_inr _ _ _ _ _ _ Hcfg)
    as (_ & _ & _ & comp & s1 & s2 & _ & Hs1 & Hs2 & Htrials & _).
  rewrite <- length_zero_iff_nil, Htrials, cross_product_trials_length,
    (sorted_length _ _ Hs1), (sorted_length _ _ Hs2).
  rewrite <- !length_zero_iff_nil.
  split.
  - intros Hz. apply Nat.eq_mul_0 in Hz. destruct Hz as [Hz | Hz].
    + apply Nat.eq_mul_0 in Hz. destruct Hz as [Hz | Hz]; auto.
    + right. right. lia.
  - intros [Hz | [Hz | Hz]].
    + rewrite Hz. reflexivity.
    + rewrite Hz, Nat.mul_0_r. reflexivity.
    + replace (Z.to_nat (n_repeats d)) with O by lia. apply Nat.mul_0_r.
Qed.

Lemma pair_has_no_trial_iff_witness :
  make_config_dict two_manifolds (data_of 0 (odor_pairs xy_data) None)
  = inr [mk_config
           [(2, vial "X" (VInt (-6))); (3, vial "X" (VInt (-4)));
            (7, vial "Y" (VInt (-5))); (8, vial "Y" (VInt (-3)))] []] /\
  Forall2 (fun odor_pair cfg =>
             pinlist_at_each_trial cfg = []
             <-> log10_concentrations (fst odor_pair) = [] \/
                 log10_concentrations (snd odor_pair) = [] \/
                 n_repeats (data_of 0 (odor_pairs xy_data) None) <= 0)
    (odor_pairs (data_of 0 (odor_pairs xy_data) None))
    [mk_config
       [(2, vial "X" (VInt (-6))); (3, vial "X" (VInt (-4)));
        (7, vial "Y" (VInt (-5))); (8, vial "Y" (VInt (-3)))] []].
Proof.
  split; [vm_compute; reflexivity |].
  apply (pair_has_no_trial_iff two_manifolds
           (data_of 0 (odor_pairs xy_data) None)).
  vm_compute. reflexivity.
Defined.

(** ** The order of a ramp *)

Lemma conc_le_int x y : conc_le (VInt x) (VInt y) <-> x <= y.
Proof.
  unfold conc_le. cbn. split.
  - intros H. inversion H as [Hb]. apply negb_false_iff in Hb.
    apply Qle_bool_iff in Hb. rewrite <- Zle_Qle in Hb. exact Hb.
  - intros H. f_equal. apply negb_false_iff, Qle_bool_iff.
    rewrite <- Zle_Qle. exact H.
Qed.

Lemma conc_le_int_null x : ~ conc_le (VInt x) VNone.
Proof. unfold conc_le. cbn. discriminate. Qed.

Lemma conc_le_null c : int_or_null c = true -> conc_le VNone c.
Proof. destruct c; try discriminate; intros _; reflexivity. Qed.

Lemma conc_le_trans a b c :
  int_or_null a = true -> int_or_null b = true -> int_or_null c = true ->
  conc_le a b -> conc_le b c -> conc_le a c.
Proof.
  destruct a as [| | x | |], b as [| | y | |], c as [| | z | |];
    try discriminate; intros _ _ _ H1 H2;
    try reflexivity;
    try (exfalso; exact (conc_le_int_null _ H1));
    try (exfalso; exact (conc_le_int_null _ H2)).
  apply conc_le_int in H1, H2. apply conc_le_int. lia.
Qed.

Lemma conc_le_antisym a b :
  int_or_null a = true -> int_or_null b = true ->
  conc_le a b -> conc_le b a -> a = b.
Proof.
  destruct a as [| | x | |], b as [| | y | |];
    try discriminate; intros _ _ H1 H2;
    try reflexivity;
    try (exfalso; exact (conc_le_int_null _ H1));
    try (exfalso; exact (conc_le_int_null _ H2)).
  apply conc_le_int in H1, H2. f_equal. lia.
Qed.

Lemma sorted_strongly l :
  Forall (fun c => int_or_null c = true) l ->
  Sorted conc_le l -> StronglySorted conc_le l.
Proof.
  induction l as [| a l IH]; intros Hall Hs; [constructor |].
  inversion Hall as [| ? ? Ha Hl]; subst.
  inversion Hs as [| ? ? Hs' Hhd]; subst.
  specialize (IH Hl Hs'). constructor; [exact IH |].
  destruct l as [| b l']; [constructor |].
  inversion Hhd as [| ? ? Hab]; subst.
  inversion IH as [| ? ? _ Hb]; subst.
  inversion Hl as [| ? ? Hbn Hl']; subst.
  constructor; [exact Hab |].
  rewrite Forall_forall in *. intros c Hc.
  apply (conc_le_trans a b c); auto.
Qed.

(** A ramp of integers and nulls has one ascending arrangement only. *)
Lemma ascending_unique l1 :
  forall l2,
    Forall (fun c => int_or_null c = true) l1 ->
    StronglySorted conc_le l1 -> StronglySorted conc_le l2 ->
    Permutation l1 l2 -> l1 = l2.
Proof.
  induction l1 as [| a l1 IH]; intros l2 Hall Hs1 Hs2 Hperm.
  - apply Permutation_nil in Hperm. symmetry. exact Hperm.
  - destruct l2 as [| b l2].
    { symmetry in Hperm. apply Permutation_nil in Hperm. discriminate. }
    inversion Hall as [| ? ? Ha Hl]; subst.
    inversion Hs1 as [| ? ? Hs1' Hle1]; subst.
    inversion Hs2 as [| ? ? Hs2' Hle2]; subst.
    rewrite Forall_forall in Hle1, Hle2.
    assert (Hb : int_or_null b = true).
    { assert (Hin : In b (a :: l1)).
      { apply (Permutation_in b (Permutation_sym Hperm)). left. reflexivity. }
      rewrite Forall_forall in Hall. apply Hall. exact Hin. }
    assert (Heq : a = b).
    { assert (Hina : In a (b :: l2)).
      { apply (Permutation_in a Hperm). left. reflexivity. }
      assert (Hinb : In b (a :: l1)).
      { apply (Permutation_in b (Permutation_sym Hperm)). left. reflexivity. }
      destruct Hina as [E | Hina]; [symmetry; exact E |].
      destruct Hinb as [E | Hinb]; [exact E |].
      apply conc_le_antisym; auto. }
    subst b. f_equal. apply Permutation_cons_inv in Hperm.
    apply IH; assumption.
Qed.

(** X9. The order in which a ramp of integers and nulls lists its
    concentrations does not change the order of presentation: two such
    ramps with the same concentrations sort to the same sequence. (With a
    [float] in the ramp this fails: null and [float('-inf')] have one key
    and keep their listing order.) *)
Theorem sorted_ignores_listing_order r r' :
  Forall (fun c => int_or_null c = true) r ->
  Permutation r r' -> sorted r = sorted r'.
Proof.
  intros Hall Hperm.
  assert (Hall' : Forall (fun c => int_or_null c = true) r').
  { rewrite Forall_forall in *. intros c Hc. apply Hall.
    apply (Permutation_in c (Permutation_sym Hperm)). exact Hc. }
  assert (Hconc : forall l, Forall (fun c => int_or_null c = true) l ->
                            Forall (fun c => is_concentration c = true) l).
  { intros l. apply Forall_impl. intros c Hc.
    destruct c; try discriminate; reflexivity. }
  destruct (sorted_ok r (Hconc r Hall)) as (s & Hs).
  destruct (sorted_ok r' (Hconc r' Hall')) as (s' & Hs').
  rewrite Hs, Hs'. f_equal.
  destruct (sorted_inr _ _ Hs) as (Hp & Hsorted).
  destruct (sorted_inr _ _ Hs') as (Hp' & Hsorted').
  assert (Hin : forall l t, Permutation t l ->
                  Forall (fun c => int_or_null c = true) l ->
                  Forall (fun c => int_or_null c = true) t).
  { intros l t Hpt Hl. rewrite Forall_forall in *. intros c Hc. apply Hl.
    apply (Permutation_in c Hpt). exact Hc. }
  apply ascending_unique.
  - exact (Hin r s Hp Hall).
  - apply sorted_strongly; [exact (Hin r s Hp Hall) | exact Hsorted].
  - apply sorted_strongly; [exact (Hin r' s' Hp' Hall') | exact Hsorted'].
  - apply perm_trans with r; [exact Hp |].
    apply perm_trans with r'; [exact Hperm | apply Permutation_sym; exact Hp'].
Qed.

Lemma sorted_ignores_listing_order_witness :
  sorted [VInt (-4); VNone; VInt (-6)] = sorted [VNone; VInt (-6); VInt (-4)]
  /\ sorted [VInt (-4); VNone; VInt (-6)] = ok [VNone; VInt (-6); VInt (-4)].
Proof.
  split; [| vm_compute; reflexivity].
  apply sorted_ignores_listing_order.
  - repeat constructor.
  - apply perm_trans with [VNone; VInt (-4); VInt (-6)].
    + apply perm_swap.
    + apply perm_skip. apply perm_swap.
Defined.

(** ** The pins of the map *)

(** X10. Every pin recorded in the pin-to-odor map of a pair is a pin of
    one of the two pools or the CO2 pin. *)
Theorem pair_pins2odors_keys hw d cfgs :
  make_config_dict hw d = inr cfgs ->
  Forall (fun cfg =>
            forall pin, In pin (dict_keys (pins2odors cfg)) ->
              In pin (available_group1_valve_pins d
                      ++ available_group2_valve_pins d)
              \/ co2_pin d = Some pin)
    cfgs.
Proof.
  intros H.
  destruct (pair_make_config_dict_inr _ _ _ H) as (_ & _ & Hall).
  apply Forall_forall. intros cfg Hcfg pin Hpin.
  assert (Hone : exists o1 o2, make_pair_config d false (o1, o2) = inr cfg).
  { clear H Hpin. induction Hall as [| [o1 o2] c l l' Hc _ IH]; [destruct Hcfg |].
    destruct Hcfg as [<- | Hcfg]; [exists o1, o2; exact Hc | apply IH; exact Hcfg]. }
  destruct Hone as (o1 & o2 & Hc).
  destruct (make_pair_config_with_inr _ _ _ _ _ _ Hc)
    as (_ & _ & _ & comp & s1 & s2 & Hblock & _).
  set (pins := group_pins (name o1) (log10_concentrations o1)
                 (available_group1_valve_pins d)
               ++ group_pins (name o2) (log10_concentrations o2)
                    (available_group2_valve_pins d)) in *.
  set (vials := group_vials (name o1) (log10_concentrations o1)
                ++ group_vials (name o2) (log10_concentrations o2)) in *.
  assert (Hbase : forall k, In k (dict_keys (dict_of_list Z.eqb (combine pins vials))) ->
                            In k (available_group1_valve_pins d
                                  ++ available_group2_valve_pins d)).
  { intros k Hk. unfold dict_keys in Hk. apply in_map_iff in Hk.
    destruct Hk as ([k' v] & <- & Hkv). simpl.
    destruct (dict_of_list_inv Z.eqb (fun _ => True) Z.eqb_refl Z_eqb_eq_on
                (combine pins vials) (Forall_True _)) as (_ & _ & Hin).
    apply Hin, in_combine_l in Hkv. unfold pins in Hkv.
    apply in_app_or in Hkv. apply in_or_app.
    destruct Hkv as [Hk | Hk]; [left | right];
      apply group_pins_incl in Hk; exact Hk. }
  apply co2_block_inr in Hblock.
  destruct Hblock as [(_ & _ & Hp & _)
                     | (_ & c & co2 & x & _ & Hco2 & Hlast & _ & Hp)].
  - rewrite Hp in Hpin. left. apply Hbase. exact Hpin.
  - rewrite Hp, !pin_dict_set_keys in Hpin.
    assert (Hcases : In pin (dict_keys (dict_of_list Z.eqb (combine pins vials)))
                     \/ pin = co2 \/ pin = x).
    { destruct (existsb (Z.eqb co2) _) in Hpin;
        destruct (existsb (Z.eqb x) _) in Hpin;
        repeat (apply in_app_or in Hpin; destruct Hpin as [Hpin | Hpin]);
        try (left; exact Hpin);
        try (destruct Hpin as [<- | []]; auto). }
    destruct Hcases as [Hk | [-> | ->]].
    + left. apply Hbase. exact Hk.
    + right. exact Hco2.
    + left. apply in_or_app. right. apply last_item_In. exact Hlast.
Qed.

Lemma pair_pins2odors_keys_witness :
  Forall (fun cfg =>
            forall pin, In pin (dict_keys (pins2odors cfg)) ->
              In pin (available_group1_valve_pins xy_data
                      ++ available_group2_valve_pins xy_data)
              \/ co2_pin xy_data = Some pin)
    xy_configs.
Proof.
  apply (pair_pins2odors_keys two_manifolds xy_data xy_configs).
  vm_compute. reflexivity.
Defined.

End SimplePairsExtra.

(** * Further properties of the panel scheduler *)

Module BasicPlusCo2Extra.
Import BasicPlusCo2 BasicPlusCo2Facts.

#[local] Arguments String.eqb : simpl never.

Section Extra.
Context {G : Type} {R : RandomSource G}.
Variable balance_merge : list (Z * Z) -> list Z -> list Z.

#[local] Abbreviation world := (@BasicPlusCo2.world G).

(** ** Checks and exceptions *)

Lemma panel_checks_fail hw d (w : world) :
  (forallb has_name (odors d) = false \/
   (length (available_valve_pins hw) < length (odors d))%nat ->
   make_config_dict balance_merge hw d w = (inl AssertionError, w)) /\
  (forallb has_name (odors d) = true ->
   (length (odors d) <= length (available_valve_pins hw))%nat ->
   ~ flag_ok d ->
   make_config_dict balance_merge hw d w
   = (inl AssertionError,
      mk_world (rng_after_sample hw d w) (warnings w))).
Proof.
  split.
  - intros Hbad. unfold make_config_dict.
    unfold gbind at 1. unfold lift at 1.
    destruct (forallb has_name (odors d)) eqn:Hnames; [| reflexivity].
    destruct Hbad as [Hbad | Hbad]; [discriminate |].
    simpl assert. unfold gbind at 1. unfold lift at 1.
    assert (E : (length (odors d) <=? length (available_valve_pins hw))%nat
                = false) by (apply Nat.leb_gt; exact Hbad).
    rewrite E. reflexivity.
  - intros Hnames Hlen Hflag. unfold make_config_dict.
    unfold gbind at 1. unfold lift at 1. rewrite Hnames. simpl assert.
    unfold gbind at 1. unfold lift at 1.
    apply Nat.leb_le in Hlen. rewrite Hlen. simpl assert.
    unfold gbind at 1. unfold sample at 1. unfold rng_after_sample.
    destruct (random_sample (available_valve_pins hw) (length (odors d)) (rng w))
      as [pins g1].
    unfold gbind at 1.
    destruct (resolve_randomize_presentation_order d (odors d)
                (mk_world g1 (warnings w))) as [[e | rand] w1] eqn:E.
    + apply resolve_randomize_inl in E. destruct E as (-> & -> & _).
      reflexivity.
    + exfalso. apply Hflag.
      apply resolve_randomize_inr in E. destruct E as (_ & E).
      unfold flag_ok. destruct (randomize_presentation_order d).
      * destruct E as (E & _). exact E.
      * destruct E as [(E & _) | (E & _)]; lia.
Qed.

(** X11. The checks on the names of the odors and on the size of the pool
    come before anything else: when an odor has no name, or the pool has
    fewer pins than there are odors, the run raises [AssertionError] and
    has drawn nothing from [random] and warned of nothing. A flag the
    check rejects is found after the pins were drawn. *)
Theorem panel_checks_before_draw hw d (w : world) :
  (forallb has_name (odors d) = false \/
   (length (available_valve_pins hw) < length (odors d))%nat ->
   make_config_dict balance_merge hw d w = (inl AssertionError, w)) /\
  (forallb has_name (odors d) = true ->
   (length (odors d) <= length (available_valve_pins hw))%nat ->
   ~ flag_ok d ->
   make_config_dict balance_merge hw d w
   = (inl AssertionError,
      mk_world (rng_after_sample hw d w) (warnings w))).
Proof. apply panel_checks_fail. Qed.

(** X12. The lookups of the CO2 block (lines 138-162) cannot miss. The
    name of an odor is looked up after the check that every odor has
    one, [co2_pin] after the assertion that it is there, and the first
    CO2 odor and the first pin that carries it after the checks on their
    number: the block raises neither [KeyError] nor [IndexError]. *)
Theorem panel_co2_lookups_cannot_fail d odors p2o pl e :
  forallb has_name odors = true ->
  Forall (fun po : Z * items => has_name (snd po) = true) p2o ->
  co2_rewiring d odors p2o pl = inl e ->
  e <> KeyError /\ e <> IndexError.
Proof.
  intros Hnames Hvals H.
  rewrite (co2_rewiring_eq d odors p2o pl Hnames Hvals) in H.
  destruct (filter is_co2 odors) as [| co2_odor more]; [discriminate |].
  destruct (co2_pin d) as [pin |]; [| inversion H; split; discriminate].
  destruct more; [| inversion H; split; discriminate].
  destruct (map fst (filter _ _)) as [| curr [| c' l]];
    try (inversion H; split; discriminate).
  destruct (existsb _ _); [inversion H; split; discriminate | discriminate].
Qed.

(** X13. With the checks passed, a CO2 odor without a [co2_pin] raises
    [AssertionError], and more than one CO2 odor (with a [co2_pin]) raises
    [NotImplementedError]. *)
Theorem panel_co2_errors hw d (w : world) :
  forallb has_name (odors d) = true ->
  (length (odors d) <= length (available_valve_pins hw))%nat ->
  flag_ok d ->
  (filter is_co2 (odors d) <> [] -> co2_pin d = None ->
   fst (make_config_dict balance_merge hw d w) = inl AssertionError) /\
  ((1 < length (filter is_co2 (odors d)))%nat -> co2_pin d <> None ->
   fst (make_config_dict balance_merge hw d w) = inl NotImplementedError).
Proof.
  intros Hnames Hlen Hflag.
  rewrite (panel_run_eq balance_merge hw d w Hnames Hlen Hflag). simpl fst.
  rewrite (co2_rewiring_eq d (odors d) _ _ Hnames
             (pins2odors_named _ _ Hnames)).
  split.
  - intros Hco2 Hpin. rewrite Hpin.
    destruct (filter is_co2 (odors d)); [contradiction | reflexivity].
  - intros Hmany Hpin.
    destruct (filter is_co2 (odors d)) as [| o [| o' l]]; simpl in Hmany;
      try lia.
    destruct (co2_pin d); [reflexivity | contradiction].
Qed.

(** X14. A panel without a CO2 odor that passes the three checks always
    succeeds, and its result is: the pins drawn zipped with the odors as
    the pin-to-odor map, the repeats of the pins in presentation order,
    passed through the balance-pin merge, as the trials. *)
Theorem panel_without_co2 hw d (w : world) :
  forallb has_name (odors d) = true ->
  (length (odors d) <= length (available_valve_pins hw))%nat ->
  flag_ok d ->
  filter is_co2 (odors d) = [] ->
  make_config_dict balance_merge hw d w
  = (inr (mk_config
            (dict_of_list Z.eqb (combine (sampled_pins hw d w) (odors d)))
            (add_balance_pins balance_merge
               (expand_repeats (fst (presentation_order hw d w))
                  (n_repeats_of d))
               (pins2balances hw))),
     mk_world (snd (presentation_order hw d w))
       (warnings w ++ warnings_of d)).
Proof.
  intros Hnames Hlen Hflag Hnone.
  rewrite (panel_run_eq balance_merge hw d w Hnames Hlen Hflag).
  rewrite (co2_rewiring_eq d (odors d) _ _ Hnames
             (pins2odors_named _ _ Hnames)).
  rewrite Hnone. reflexivity.
Qed.

(** X15. Whatever the odors, a successful run leaves [random] in the
    state reached by drawing the pins and then, when the flag is true,
    shuffling them once, and has emitted exactly the warnings of the two
    optional keys; its trials follow the presentation order, which is the
    order of the odors when the flag is false. *)
Theorem panel_final_state hw d (w w' : world) cfg :
  make_config_dict balance_merge hw d w = (inr cfg, w') ->
  rng w' = snd (presentation_order hw d w) /\
  warnings w' = warnings w ++ warnings_of d /\
  (truthy (flag_of d) = false ->
   fst (presentation_order hw d w) = sampled_pins hw d w) /\
  exists trial_of,
    (forall p,
        trial_of p = balance_merge (pins2balances hw) [p] \/
        exists pin,
          trial_of p = balance_merge (pins2balances hw) [p] ++ [pin]) /\
    pinlist_at_each_trial cfg
    = flat_map (fun p => repeat (trial_of p) (Z.to_nat (n_repeats_of d)))
        (fst (presentation_order hw d w)).
Proof.
  intros H.
  destruct (panel_make_config_dict_inr _ _ _ _ _ _ H)
    as (Hnames & Hlen & rand & tp & w0 & w1 & w2 & _ & _ & Hr & _).
  assert (Hflag : flag_ok d).
  { apply resolve_randomize_inr in Hr. destruct Hr as (_ & Hr).
    unfold flag_ok. destruct (randomize_presentation_order d).
    - destruct Hr as (E & _). exact E.
    - destruct Hr as [(E & _) | (E & _)]; lia. }
  rewrite (panel_run_eq balance_merge hw d w Hnames Hlen Hflag) in H.
  rewrite (co2_rewiring_eq d (odors d) _ _ Hnames
             (pins2odors_named _ _ Hnames)) in H.
  assert (Hw : w' = mk_world (snd (presentation_order hw d w))
                      (warnings w ++ warnings_of d))
    by (inversion H; reflexivity).
  split; [rewrite Hw; reflexivity |].
  split; [rewrite Hw; reflexivity |].
  split.
  { intros Hf. unfold presentation_order. rewrite Hf. reflexivity. }
  unfold add_balance_pins in H.
  destruct (filter is_co2 (odors d)) as [| co2_odor more].
  - inversion H; subst cfg. simpl.
    exists (fun p => balance_merge (pins2balances hw) [p]).
    split; [intros p; left; reflexivity |].
    apply map_expand.
  - destruct (co2_pin d) as [pin |]; [| discriminate].
    destruct more; [| discriminate].
    destruct (map fst (filter _ _)) as [| curr [| c' l]]; try discriminate.
    destruct (existsb _ _); [discriminate |].
    inversion H; subst cfg. simpl.
    exists (fun p => rewire curr pin (balance_merge (pins2balances hw) [p])).
    split.
    + intros p. unfold rewire.
      destruct (existsb (Z.eqb curr) (balance_merge (pins2balances hw) [p]));
        [right; exists pin | left]; reflexivity.
    + rewrite map_map.
      apply (map_expand (fun pl => rewire curr pin
                                     (balance_merge (pins2balances hw) pl))).
Qed.

(** ** The pins of the map and of the trials *)

Hypothesis laws : RandomLaws R.

Lemma sampled_pins_incl hw d (w : world) :
  (length (odors d) <= length (available_valve_pins hw))%nat ->
  incl (sampled_pins hw d w) (available_valve_pins hw).
Proof.
  intros Hlen.
  destruct (sample_selects R laws (available_valve_pins hw)
              (length (odors d)) (rng w) Hlen) as (rest & Hperm).
  intros x Hx. apply (Permutation_in x Hperm).
  apply in_or_app. left. exact Hx.
Qed.

(** X16. Every pin recorded in the pin-to-odor map of a panel is a pin of
    the pool or the CO2 pin. *)
Theorem panel_pins2odors_keys hw d (w w' : world) cfg :
  make_config_dict balance_merge hw d w = (inr cfg, w') ->
  forall pin, In pin (dict_keys (pins2odors cfg)) ->
    In pin (available_valve_pins hw) \/ co2_pin d = Some pin.
Proof.
  intros H pin Hpin.
  destruct (panel_make_config_dict_inr _ _ _ _ _ _ H)
    as (_ & Hlen & rand & tp & w0 & w1 & w2 & _ & _ & _ & _ & _ & Hco2).
  pose proof (sampled_pins_incl hw d w Hlen) as Hincl.
  set (base := dict_of_list Z.eqb (combine (sampled_pins hw d w) (odors d))) in *.
  assert (Hbase : forall k, In k (dict_keys base) -> In k (available_valve_pins hw)).
  { intros k Hk. unfold dict_keys in Hk. apply in_map_iff in Hk.
    destruct Hk as ([k' v] & <- & Hkv). simpl.
    destruct (dict_of_list_inv Z.eqb (fun _ => True) Z.eqb_refl Z_eqb_eq_on
                (combine (sampled_pins hw d w) (odors d)) (Forall_True _))
      as (_ & _ & Hin).
    apply Hin, in_combine_l in Hkv. apply Hincl. exact Hkv. }
  apply co2_rewiring_inr in Hco2.
  destruct Hco2 as [(_ & Hp & _)
                   | (co2_odor & curr & co2 & _ & Hcurr & Hpin' & Hp & _)].
  - rewrite Hp in Hpin. left. apply Hbase. exact Hpin.
  - assert (Hcurr_in : In curr (dict_keys base)).
    { assert (Hin : In curr (map fst (filter (fun po => is_co2 (snd po)) base)))
        by (rewrite Hcurr; left; reflexivity).
      apply in_map_iff in Hin. destruct Hin as (po & <- & Hpo).
      apply filter_In in Hpo. destruct Hpo as (Hpo & _).
      unfold dict_keys. apply in_map. exact Hpo. }
    rewrite Hp, !pin_dict_set_keys in Hpin.
    assert (Hcases : In pin (dict_keys base) \/ pin = curr \/ pin = co2).
    { destruct (existsb (Z.eqb curr) _) in Hpin;
        destruct (existsb (Z.eqb co2) _) in Hpin;
        repeat (apply in_app_or in Hpin; destruct Hpin as [Hpin | Hpin]);
        try (left; exact Hpin);
        try (destruct Hpin as [<- | []]; auto). }
    destruct Hcases as [Hk | [-> | ->]].
    + left. apply Hbase. exact Hk.
    + left. apply Hbase. exact Hcurr_in.
    + right. exact Hpin'.
Qed.

(** X17. Over a pool of distinct pins that does not hold the CO2 pin,
    every odor other than CO2 is recorded in the pin-to-odor map at the
    pin drawn for it. *)
Theorem panel_odors_are_recorded hw d (w w' : world) cfg :
  make_config_dict balance_merge hw d w = (inr cfg, w') ->
  NoDup (available_valve_pins hw) ->
  (forall pin, co2_pin d = Some pin -> ~ In pin (available_valve_pins hw)) ->
  forall pin o,
    In (pin, o) (combine (sampled_pins hw d w) (odors d)) ->
    is_co2 o = false ->
    dict_get Z.eqb (pins2odors cfg) pin = Some o.
Proof.
  intros H Hnd Hout pin o Hin Hnot.
  destruct (panel_make_config_dict_inr _ _ _ _ _ _ H)
    as (_ & Hlen & rand & tp & w0 & w1 & w2 & _ & _ & _ & _ & _ & Hco2).
  destruct (sampled_pins_NoDup laws hw d w Hlen Hnd) as (Hnds & Hincl).
  pose proof (sampled_pins_length laws hw d w Hlen) as Hlens.
  assert (Hkeys : map fst (combine (sampled_pins hw d w) (odors d))
                  = sampled_pins hw d w)
    by (apply map_fst_combine; exact Hlens).
  rewrite pin_dict_of_list_NoDup in Hco2 by (rewrite Hkeys; exact Hnds).
  assert (Hget : dict_get Z.eqb (combine (sampled_pins hw d w) (odors d)) pin
                 = Some o).
  { apply (dict_get_of_In Z.eqb (fun _ => True) Z.eqb_refl Z_eqb_eq_on);
      [apply Forall_True | unfold dict_keys; rewrite Hkeys; exact Hnds
      | exact Hin]. }
  apply co2_rewiring_inr in Hco2.
  destruct Hco2 as [(_ & -> & _)
                   | (co2_odor & curr & co2 & Hone & Hcurr & Hpin' & -> & _)].
  - exact Hget.
  - rewrite !pin_dict_get_set.
    destruct (Z.eqb_spec pin co2) as [-> | _].
    { exfalso. apply (Hout co2 Hpin'). apply Hincl.
      apply in_combine_l in Hin. exact Hin. }
    destruct (Z.eqb_spec pin curr) as [-> | _]; [| exact Hget].
    exfalso.
    assert (Hc : In curr (map fst (filter (fun po => is_co2 (snd po))
                                     (combine (sampled_pins hw d w) (odors d)))))
      by (rewrite Hcurr; left; reflexivity).
    apply in_map_iff in Hc. destruct Hc as ([c o'] & Hc & Hf).
    simpl in Hc. subst c. apply filter_In in Hf. destruct Hf as (Hf & Hco2o).
    simpl in Hco2o.
    assert (Hget' : dict_get Z.eqb (combine (sampled_pins hw d w) (odors d)) curr
                    = Some o').
    { apply (dict_get_of_In Z.eqb (fun _ => True) Z.eqb_refl Z_eqb_eq_on);
        [apply Forall_True | unfold dict_keys; rewrite Hkeys; exact Hnds
        | exact Hf]. }
    congruence.
Qed.

(** X18. When the balance-pin merge keeps the pins of a trial and there is
    at least one repeat, a CO2 pin that is also one of the pins drawn for
    the odors makes a panel with a CO2 odor fail: the CO2 pin cannot be
    reused. *)
Theorem panel_co2_pin_in_use hw d (w : world) pin :
  (forall b pl p, In p pl -> In p (balance_merge b pl)) ->
  0 < n_repeats_of d ->
  filter is_co2 (odors d) <> [] ->
  co2_pin d = Some pin ->
  In pin (sampled_pins hw d w) ->
  exists e, fst (make_config_dict balance_merge hw d w) = inl e.
Proof.
  intros Hkeep Hn Hco2 Hpin Hin.
  destruct (make_config_dict balance_merge hw d w) as [[e | cfg] w'] eqn:E.
  { exists e. reflexivity. }
  exfalso.
  destruct (panel_make_config_dict_inr _ _ _ _ _ _ E)
    as (_ & Hlen & rand & tp & w0 & w1 & w2 & _ & _ & _ & _ & Htp & Hrw).
  pose proof (trial_pins_perm laws _ _ _ _ _ Htp) as Hperm.
  apply co2_rewiring_inr in Hrw.
  destruct Hrw as [(Hnone & _) | (co2_odor & curr & co2 & _ & _ & Hpin' & _ & Hnot & _)].
  { contradiction. }
  assert (co2 = pin) by congruence. subst co2.
  rewrite Forall_forall in Hnot.
  apply (Hnot (balance_merge (pins2balances hw) [pin])).
  - unfold add_balance_pins. apply in_map. unfold expand_repeats.
    apply in_flat_map. exists pin. split.
    + apply Permutation_sym in Hperm. apply (Permutation_in pin Hperm). exact Hin.
    + destruct (Z.to_nat (n_repeats_of d)) as [| k] eqn:Ek; [lia |].
      left. reflexivity.
  - apply Hkeep. left. reflexivity.
Qed.

End Extra.

(** ** Runs on the tape-driven source *)

Lemma append_balances_keeps b pl p : In p pl -> In p (append_balances b pl).
Proof. intros H. unfold append_balances. apply in_or_app. left. exact H. Qed.

Lemma panel_checks_before_draw_witness :
  make_config_dict append_balances single_manifold_pins unnamed_data
    (start [1; 1]%nat) = (inl AssertionError, start [1; 1]%nat) /\
  make_config_dict append_balances single_manifold_pins text_flag_data
    (start [1; 1]%nat)
  = (inl AssertionError,
     mk_world (rng_after_sample single_manifold_pins text_flag_data
                 (start [1; 1]%nat))
       (warnings (start [1; 1]%nat))).
Proof.
  split.
  - apply (panel_checks_before_draw append_balances single_manifold_pins
             unnamed_data (start [1; 1]%nat)).
    left. reflexivity.
  - apply (panel_checks_before_draw append_balances single_manifold_pins
             text_flag_data (start [1; 1]%nat)).
    + reflexivity.
    + simpl. lia.
    + unfold flag_ok. simpl. discriminate.
Defined.

Lemma panel_co2_lookups_cannot_fail_witness :
  co2_rewiring no_co2_pin_data (odors no_co2_pin_data)
    (combine [3; 2] (odors no_co2_pin_data)) [[3]; [2]]
  = inl AssertionError /\
  co2_rewiring two_co2_data (odors two_co2_data)
    (combine [3; 2] (odors two_co2_data)) [[3]; [2]]
  = inl NotImplementedError /\
  NotImplementedError <> KeyError /\ NotImplementedError <> IndexError.
Proof.
  split; [vm_compute; reflexivity |].
  split; [vm_compute; reflexivity |].
  apply (panel_co2_lookups_cannot_fail two_co2_data (odors two_co2_data)
           (combine [3; 2] (odors two_co2_data)) [[3]; [2]]).
  - vm_compute. reflexivity.
  - repeat constructor.
  - vm_compute. reflexivity.
Defined.

Lemma panel_co2_errors_witness :
  fst (make_config_dict append_balances single_manifold_pins no_co2_pin_data
         (start [1; 1]%nat)) = inl AssertionError /\
  fst (make_config_dict append_balances single_manifold_pins two_co2_data
         (start [1; 1]%nat)) = inl NotImplementedError.
Proof.
  split.
  - apply (panel_co2_errors append_balances single_manifold_pins
             no_co2_pin_data (start [1; 1]%nat)).
    + reflexivity.
    + simpl. lia.
    + reflexivity.
    + discriminate.
    + reflexivity.
  - apply (panel_co2_errors append_balances single_manifold_pins
             two_co2_data (start [1; 1]%nat)).
    + reflexivity.
    + simpl. lia.
    + reflexivity.
    + simpl. lia.
    + discriminate.
Defined.

Lemma panel_without_co2_witness :
  make_config_dict append_balances single_manifold_pins single_data
    (start [1]%nat)
  = (inr (mk_config
            (dict_of_list Z.eqb
               (combine (sampled_pins single_manifold_pins single_data
                           (start [1]%nat))
                  (odors single_data)))
            (add_balance_pins append_balances
               (expand_repeats
                  (fst (presentation_order single_manifold_pins single_data
                          (start [1]%nat)))
                  (n_repeats_of single_data))
               (pins2balances single_manifold_pins))),
     mk_world
       (snd (presentation_order single_manifold_pins single_data
               (start [1]%nat)))
       (warnings (start [1]%nat) ++ warnings_of single_data)).
Proof.
  apply (panel_without_co2 append_balances single_manifold_pins single_data
           (start [1]%nat)).
  - reflexivity.
  - simpl. lia.
  - unfold flag_ok. simpl. lia.
  - reflexivity.
Defined.

Lemma panel_final_state_witness :
  make_config_dict append_balances single_manifold_pins abc_data
    (start [1; 1; 0]%nat) = (inr abc_config, start []) /\
  rng (start []) = snd (presentation_order single_manifold_pins abc_data
                          (start [1; 1; 0]%nat)) /\
  warnings (start []) = warnings (start [1; 1; 0]%nat) ++ warnings_of abc_data.
Proof.
  split; [vm_compute; reflexivity |].
  destruct (panel_final_state append_balances single_manifold_pins abc_data
              (start [1; 1; 0]%nat) (start []) abc_config)
    as (Hrng & Hwarn & _).
  - vm_compute. reflexivity.
  - split; [exact Hrng | exact Hwarn].
Defined.

Lemma panel_pins2odors_keys_witness :
  In 10 (available_valve_pins single_manifold_pins) \/
  co2_pin abc_data = Some 10.
Proof.
  apply (panel_pins2odors_keys append_balances tape_random_lawful
           single_manifold_pins abc_data (start [1; 1; 0]%nat) (start [])
           abc_config).
  - vm_compute. reflexivity.
  - simpl. auto.
Defined.

Lemma panel_odors_are_recorded_witness :
  dict_get Z.eqb (pins2odors abc_config) 4 = Some (odor_of "B" (-4)).
Proof.
  apply (panel_odors_are_recorded append_balances tape_random_lawful
           single_manifold_pins abc_data (start [1; 1; 0]%nat) (start [])
           abc_config).
  - vm_compute. reflexivity.
  - simpl. repeat constructor; simpl; intuition lia.
  - intros pin Hpin. simpl in Hpin. inversion Hpin; subst.
    simpl. intuition lia.
  - vm_compute. auto.
  - reflexivity.
Defined.

Lemma panel_co2_pin_in_use_witness :
  exists e,
    fst (make_config_dict append_balances single_manifold_pins
           co2_pin_in_pool_data (start [1; 1; 0]%nat)) = inl e.
Proof.
  apply (panel_co2_pin_in_use append_balances tape_random_lawful
           single_manifold_pins co2_pin_in_pool_data (start [1; 1; 0]%nat) 2).
  - intros b pl p. apply append_balances_keeps.
  - vm_compute. reflexivity.
  - discriminate.
  - reflexivity.
  - vm_compute. auto.
Defined.

End BasicPlusCo2Extra.
